(** * The schema-driven entity manager and its transport adapter

    A shallow embedding of [src/components/EntityManager.jsx] (the generic
    CRUD engine), [src/api.js] (the transport adapter) and the page
    schemas that instantiate the engine, together with the properties of
    the specification that concern them.

    Conventions of the embedding.
    - A JavaScript object used as a record is a [gmap string value]; reading a
      property that is absent yields [VUndefined].  Field names are assumed
      not to collide with members of [Object.prototype].
    - The component's [useState] cells form one [State] record.  A setter is
      an update of that record, applied in program order.  A handler reads
      the cells through the closure of the render it belongs to; a handler
      that reads a cell takes that render as its argument [r].
    - An asynchronous function is a computation in the monad [Async]: it
      threads the store and a trace of the effects it performs, may throw,
      and asks the [World] for the outcome of each [fetch] and each
      [window.confirm].  Every effect is recorded together with the store
      in which it was performed.
    - In [Async] one handler runs from its start to its completion.  The
      module [Interleaved] writes the same handlers as threads that are
      parked at each [await], for what is said of requests in flight;
      [atomic_handler] relates the two.
    - What ECMA-262 leaves to the implementation (number formatting, the
      fallback of [Date.parse], the local time zone, the text of the engine's
      own [TypeError]) is a field of [JSRuntime], and every statement holds
      for every runtime. *)

From Stdlib Require Import ZArith String Ascii List Bool Lia.
From stdpp Require Import base option gmap strings list pretty.

#[local] Set Warnings "-register-all".
#[local] Open Scope string_scope.
#[local] Open Scope Z_scope.
#[local] Open Scope list_scope.

(** ** Time values and the Date Time String Format (ECMA-262, Date objects)

    A time value is a number of milliseconds since the epoch, here a [Z].
    The definitions follow the abstract operations of the standard; the
    year of a day is found from an estimate that is then adjusted, and
    [ESDateFacts.YearFromDay_spec] shows that it is the year the standard
    defines.  A day of the month beyond the length of the month, on which
    engines differ, counts as outside the format. *)

Module ESDate.

Definition msPerDay : Z := 86400000.
Definition msPerHour : Z := 3600000.
Definition msPerMinute : Z := 60000.
Definition msPerSecond : Z := 1000.

Definition Day (t : Z) : Z := t / msPerDay.
Definition TimeWithinDay (t : Z) : Z := t mod msPerDay.

Definition DaysInYear (y : Z) : Z :=
  if negb (y mod 4 =? 0) then 365
  else if negb (y mod 100 =? 0) then 366
  else if negb (y mod 400 =? 0) then 365
  else 366.

Definition DayFromYear (y : Z) : Z :=
  365 * (y - 1970) + (y - 1969) / 4 - (y - 1901) / 100 + (y - 1601) / 400.

Definition TimeFromYear (y : Z) : Z := msPerDay * DayFromYear y.

Definition YearFromDay (d : Z) : Z :=
  let y := 1970 + (400 * d) / 146097 in
  if DayFromYear (y + 1) <=? d then y + 1
  else if d <? DayFromYear y then y - 1
  else y.

Definition YearFromTime (t : Z) : Z := YearFromDay (Day t).

Definition InLeapYear (t : Z) : Z :=
  if DaysInYear (YearFromTime t) =? 366 then 1 else 0.

Definition DayWithinYear (t : Z) : Z := Day t - DayFromYear (YearFromTime t).

Definition MonthFromTime (t : Z) : Z :=
  let d := DayWithinYear t in
  let l := InLeapYear t in
  if d <? 31 then 0
  else if d <? 59 + l then 1
  else if d <? 90 + l then 2
  else if d <? 120 + l then 3
  else if d <? 151 + l then 4
  else if d <? 181 + l then 5
  else if d <? 212 + l then 6
  else if d <? 243 + l then 7
  else if d <? 273 + l then 8
  else if d <? 304 + l then 9
  else if d <? 334 + l then 10
  else 11.

Definition DateFromTime (t : Z) : Z :=
  let d := DayWithinYear t in
  let l := InLeapYear t in
  match MonthFromTime t with
  | 0 => d + 1
  | 1 => d - 30
  | 2 => d - 58 - l
  | 3 => d - 89 - l
  | 4 => d - 119 - l
  | 5 => d - 150 - l
  | 6 => d - 180 - l
  | 7 => d - 211 - l
  | 8 => d - 242 - l
  | 9 => d - 272 - l
  | 10 => d - 303 - l
  | _ => d - 333 - l
  end.

Definition HourFromTime (t : Z) : Z := (t / msPerHour) mod 24.
Definition MinFromTime (t : Z) : Z := (t / msPerMinute) mod 60.
Definition SecFromTime (t : Z) : Z := (t / msPerSecond) mod 60.
Definition msFromTime (t : Z) : Z := t mod msPerSecond.

Definition MakeTime (h m s ms : Z) : Z :=
  h * msPerHour + m * msPerMinute + s * msPerSecond + ms.

Definition DaysBeforeMonth (leap mn : Z) : Z :=
  match mn with
  | 0 => 0
  | 1 => 31
  | 2 => 59 + leap
  | 3 => 90 + leap
  | 4 => 120 + leap
  | 5 => 151 + leap
  | 6 => 181 + leap
  | 7 => 212 + leap
  | 8 => 243 + leap
  | 9 => 273 + leap
  | 10 => 304 + leap
  | _ => 334 + leap
  end.

Definition MakeDay (year month date : Z) : Z :=
  let ym := year + month / 12 in
  let mn := month mod 12 in
  let leap := if DaysInYear ym =? 366 then 1 else 0 in
  DayFromYear ym + DaysBeforeMonth leap mn + date - 1.

Definition MakeDate (day time : Z) : Z := day * msPerDay + time.

Definition TimeClip (t : Z) : option Z :=
  if Z.abs t <=? 8640000000000000 then Some t else None.


(** *** Formatting *)

Definition digit_char (d : Z) : ascii := ascii_of_nat (48 + Z.to_nat d).

Definition pad2 (n : Z) : string :=
  String (digit_char (n / 10 mod 10)) (String (digit_char (n mod 10)) "").

Definition pad3 (n : Z) : string :=
  String (digit_char (n / 100 mod 10)) (pad2 n).

Definition pad4 (n : Z) : string :=
  String (digit_char (n / 1000 mod 10)) (pad3 n).

Definition pad6 (n : Z) : string :=
  String (digit_char (n / 100000 mod 10))
    (String (digit_char (n / 10000 mod 10)) (pad4 n)).

Definition year_string (y : Z) : string :=
  if (0 <=? y) && (y <=? 9999) then pad4 y
  else (if y <? 0 then "-" else "+") +:+ pad6 (Z.abs y).

Definition date_string (t : Z) : string :=
  year_string (YearFromTime t) +:+ "-" +:+ pad2 (MonthFromTime t + 1)
    +:+ "-" +:+ pad2 (DateFromTime t).

Definition time_string (t : Z) : string :=
  pad2 (HourFromTime t) +:+ ":" +:+ pad2 (MinFromTime t) +:+ ":"
    +:+ pad2 (SecFromTime t) +:+ "." +:+ pad3 (msFromTime t).

(** [Date.prototype.toISOString] on a finite time value *)
Definition toISOString (t : Z) : string :=
  date_string t +:+ "T" +:+ time_string t +:+ "Z".

(** [String.prototype.split] with a separator of one character *)
Fixpoint String_split (sep : ascii) (s : string) : list string :=
  match s with
  | EmptyString => [""]
  | String c s' =>
      if Ascii.eqb c sep then "" :: String_split sep s'
      else match String_split sep s' with
           | h :: tl => String c h :: tl
           | [] => [String c ""]
           end
  end.

(** *** The Date Time String Format *)

Definition digit_val (c : ascii) : option Z :=
  let n := Z.of_nat (nat_of_ascii c) in
  if (48 <=? n) && (n <=? 57) then Some (n - 48) else None.

Fixpoint read_digits (n : nat) (acc : Z) (s : string) : option (Z * string) :=
  match n with
  | O => Some (acc, s)
  | S n' =>
      match s with
      | String c s' =>
          match digit_val c with
          | Some d => read_digits n' (10 * acc + d) s'
          | None => None
          end
      | EmptyString => None
      end
  end.

Definition expect (c : ascii) (s : string) : option string :=
  match s with
  | String c' s' => if Ascii.eqb c c' then Some s' else None
  | EmptyString => None
  end.

(** The time part of a date-time form; [tf_offset] is the UTC offset in
    minutes, absent when the string has none. *)
Record TimeFields := mkTime {
  tf_hour : Z; tf_minute : Z; tf_second : Z; tf_ms : Z;
  tf_offset : option Z }.

Record DateFields := mkDate {
  df_year : Z; df_month : Z; df_day : Z;
  df_time : option TimeFields }.

Definition parse_year (s : string) : option (Z * string) :=
  match s with
  | String "+"%char s' => read_digits 6 0 s'
  | String "-"%char s' =>
      '(y, rest) ← read_digits 6 0 s';
      if y =? 0 then None else Some (- y, rest)
  | _ => read_digits 4 0 s
  end.

Definition parse_offset (s : string) : option (option Z) :=
  match s with
  | EmptyString => Some None
  | String "Z"%char EmptyString => Some (Some 0)
  | String sign s' =>
      if Ascii.eqb sign "+" || Ascii.eqb sign "-" then
        '(h, s1) ← read_digits 2 0 s';
        s2 ← expect ":" s1;
        '(m, s3) ← read_digits 2 0 s2;
        match s3 with
        | EmptyString =>
            if (h <=? 23) && (m <=? 59) then
              Some (Some (if Ascii.eqb sign "-" then - (60 * h + m) else 60 * h + m))
            else None
        | _ => None
        end
      else None
  end.

Definition parse_fraction (s : string) : option (Z * string) :=
  match s with
  | String "."%char s' => read_digits 3 0 s'
  | _ => Some (0, s)
  end.

Definition parse_seconds (s : string) : option (Z * Z * string) :=
  match s with
  | String ":"%char s' =>
      '(sec, s1) ← read_digits 2 0 s';
      '(ms, s2) ← parse_fraction s1;
      Some (sec, ms, s2)
  | _ => Some (0, 0, s)
  end.

Definition parse_time (s : string) : option TimeFields :=
  '(h, s1) ← read_digits 2 0 s;
  s2 ← expect ":" s1;
  '(m, s3) ← read_digits 2 0 s2;
  '(sec, ms, s4) ← parse_seconds s3;
  off ← parse_offset s4;
  Some (mkTime h m sec ms off).

Definition parse_day (y m : Z) (s : string) : option DateFields :=
  match s with
  | EmptyString => Some (mkDate y m 1 None)
  | String "-"%char s' =>
      '(d, s1) ← read_digits 2 0 s';
      match s1 with
      | EmptyString => Some (mkDate y m d None)
      | String "T"%char s2 => tf ← parse_time s2; Some (mkDate y m d (Some tf))
      | _ => None
      end
  | String "T"%char s' => tf ← parse_time s'; Some (mkDate y m 1 (Some tf))
  | _ => None
  end.

Definition parse_month (y : Z) (s : string) : option DateFields :=
  match s with
  | EmptyString => Some (mkDate y 1 1 None)
  | String "-"%char s' =>
      '(m, s1) ← read_digits 2 0 s';
      parse_day y m s1
  | String "T"%char s' => tf ← parse_time s'; Some (mkDate y 1 1 (Some tf))
  | _ => None
  end.

Definition parse_fields (s : string) : option DateFields :=
  '(y, s1) ← parse_year s;
  parse_month y s1.

Definition DaysInMonth (y m : Z) : Z :=
  match m with
  | 2 => if DaysInYear y =? 366 then 29 else 28
  | 4 | 6 | 9 | 11 => 30
  | _ => 31
  end.

Definition valid_time (tf : TimeFields) : bool :=
  ((tf_hour tf <=? 23) && (tf_minute tf <=? 59) && (tf_second tf <=? 59))
  || ((tf_hour tf =? 24) && (tf_minute tf =? 0) && (tf_second tf =? 0)
      && (tf_ms tf =? 0)).

Definition valid_fields (f : DateFields) : bool :=
  (1 <=? df_month f) && (df_month f <=? 12)
  && (1 <=? df_day f) && (df_day f <=? DaysInMonth (df_year f) (df_month f))
  && match df_time f with Some tf => valid_time tf | None => true end.

(** The time value the fields denote when read as UTC, before any offset. *)
Definition fields_time (f : DateFields) : Z :=
  MakeDate (MakeDay (df_year f) (df_month f - 1) (df_day f))
    (match df_time f with
     | Some tf => MakeTime (tf_hour tf) (tf_minute tf) (tf_second tf) (tf_ms tf)
     | None => 0
     end).

Definition is_digit (c : ascii) : bool :=
  match digit_val c with Some _ => true | None => false end.

(** The shape [YYYY-MM-DD]: ten characters, digits but for the two dashes. *)
Definition is_date_only (s : string) : bool :=
  match s with
  | String y1 (String y2 (String y3 (String y4 (String h1
      (String m1 (String m2 (String h2 (String d1 (String d2 EmptyString)))))))))
    =>
      is_digit y1 && is_digit y2 && is_digit y3 && is_digit y4
      && Ascii.eqb h1 "-" && is_digit m1 && is_digit m2
      && Ascii.eqb h2 "-" && is_digit d1 && is_digit d2
  | _ => false
  end.

(** No character of the string is a [T]. *)
Fixpoint has_no_T (s : string) : bool :=
  match s with
  | EmptyString => true
  | String c s' => negb (Ascii.eqb c "T") && has_no_T s'
  end.

(** A calendar date written [YYYY-MM-DD]. *)
Definition is_calendar_date (d : string) : bool :=
  is_date_only d
  && match parse_fields d with
     | Some f => valid_fields f
     | None => false
     end.

(** A time of day written [HH:mm], [HH:mm:ss] or [HH:mm:ss.sss], before
    midnight, followed by the UTC designator [Z] or a zero offset. *)
Definition is_utc_time (s : string) : bool :=
  match parse_time s with
  | Some tf =>
      valid_time tf && (tf_hour tf <=? 23)
      && match tf_offset tf with
         | Some 0 => true
         | _ => false
         end
  | None => false
  end.

End ESDate.

(** ** Schemas: the props of [EntityManager] *)

Record FieldSpec := mkField {
  name : string;
  label : string;
  type : string;
  placeholder : option string;
  required : bool;
  options : list (string * string);
  defaultValue : option string
}.

(** A column of the table.  Some columns also carry a [format] function
    ([toFixed], [toLocaleDateString]) for the cell they show; it belongs to
    the rendering of the table, which no handler reads and which is not
    part of the embedding. *)
Record DisplayFieldSpec := mkDisplay {
  key : string;
  display_label : string
}.

Record Props := mkProps {
  title : string;
  entityName : string;
  endpoint : string;
  formFields : list FieldSpec;
  idField : string;
  displayFields : list DisplayFieldSpec;
  uniqueIdentifierFields : list string
}.

(** ** The JavaScript runtime *)

Class JSRuntime := {
  (** the Number type *)
  Num : Type;
  (** [Number::toString(x)] in radix 10 *)
  Number_toString : Num -> string;
  (** [ToBoolean] on a number: false exactly for [+0], [-0] and [NaN] *)
  Number_toBoolean : Num -> bool;
  (** [ToIntegerOrInfinity(x)] where it is finite; [None] for [NaN] and the
      infinities *)
  Number_toInteger : Num -> option Z;
  (** the implementation-specific fallback of [Date.parse], for strings
      outside the Date Time String Format; [None] stands for [NaN] *)
  Date_parse_fallback : string -> option Z;
  (** the offset of local time from UTC, in milliseconds, at a local time *)
  LocalTZA : Z -> Z;
  (** the message of the [TypeError] raised on reading a property of [null]
      or [undefined] *)
  nullish_read_message : string -> string;
  (** the message of the [RangeError] raised by [toISOString] on an invalid
      date *)
  invalid_time_message : string
}.

Section Engine.
Context {rt : JSRuntime}.

(** ** Values *)

Inductive value : Type :=
| VUndefined
| VNull
| VBool (b : bool)
| VNum (n : Num)
| VStr (s : string)
| VArr (xs : list value)
| VObj (o : gmap string value).

(** A thrown [Error] object: its [name] and its [message]. *)
Record Error := mkError { err_name : string; err_message : string }.

Definition join_strings (sep : string) (l : list string) : string :=
  String.concat sep l.

(** [Array.prototype.join(sep)]: [undefined] and [null] elements become the
    empty string, every other element its [ToString].  [ToString] of an
    array joins its elements by a comma; a plain object prints as
    [[object Object]]. *)
Fixpoint ToString (v : value) : string :=
  match v with
  | VUndefined => "undefined"
  | VNull => "null"
  | VBool true => "true"
  | VBool false => "false"
  | VNum n => Number_toString n
  | VStr s => s
  | VArr xs =>
      join_strings ","
        (List.map (fun x => match x with
                            | VUndefined | VNull => ""
                            | _ => ToString x
                            end) xs)
  | VObj _ => "[object Object]"
  end.

Definition join_element (v : value) : string :=
  match v with
  | VUndefined | VNull => ""
  | _ => ToString v
  end.

Definition Array_join (sep : string) (xs : list value) : string :=
  join_strings sep (List.map join_element xs).

(** [ToBoolean(v)] *)
Definition ToBoolean (v : value) : bool :=
  match v with
  | VUndefined | VNull => false
  | VBool b => b
  | VNum n => Number_toBoolean n
  | VStr s => negb (String.eqb s "")
  | VArr _ | VObj _ => true
  end.

(** [o[k]] on a record *)
Definition get (o : gmap string value) (k : string) : value :=
  default VUndefined (o !! k).

(** [v.k] on an arbitrary value: reading a property of [null] or [undefined]
    throws; a primitive or an array has no own property of a field name. *)
Definition GetV (v : value) (k : string) : Error + value :=
  match v with
  | VUndefined | VNull => inl (mkError "TypeError" (nullish_read_message k))
  | VObj o => inr (get o k)
  | _ => inr VUndefined
  end.

(** [a || b] *)
Definition or_else (a b : value) : value :=
  if ToBoolean a then a else b.

(** [new Error(v)] *)
Definition new_Error (v : value) : Error :=
  mkError "Error" (match v with VUndefined => "" | _ => ToString v end).

(** ** Dates *)

(** [Date.parse(s)], before [TimeClip].  A string of the Date Time String
    Format with in-range elements denotes the time value of its fields: a
    date-only form is UTC, a date-time form without offset is local time.
    Every other string is left to the implementation. *)
Definition Date_parse (s : string) : option Z :=
  match ESDate.parse_fields s with
  | Some f =>
      if ESDate.valid_fields f then
        let t := ESDate.fields_time f in
        match ESDate.df_time f with
        | None => Some t
        | Some tf =>
            match ESDate.tf_offset tf with
            | Some off => Some (t - off * ESDate.msPerMinute)
            | None => Some (t - LocalTZA t)
            end
        end
      else Date_parse_fallback s
  | None => Date_parse_fallback s
  end.

(** The time value of [new Date(v)]; [None] is the invalid date. *)
Definition new_Date (v : value) : option Z :=
  tv ← match v with
       | VStr s => Date_parse s
       | VNum n => Number_toInteger n
       | VBool b => Some (if b then 1 else 0)
       | VNull => Some 0
       | VUndefined => None
       | VArr _ | VObj _ => Date_parse (ToString v)
       end;
  ESDate.TimeClip tv.

Definition Date_toISOString (d : option Z) : Error + string :=
  match d with
  | Some t => inr (ESDate.toISOString t)
  | None => inl (mkError "RangeError" invalid_time_message)
  end.

(** [a[0]] on an array of strings *)
Definition first_element (a : list string) : value :=
  match a with
  | s :: _ => VStr s
  | [] => VUndefined
  end.

(** ** The component's state: one cell per [useState] *)

Record State := mkState {
  entities : value;
  formData : gmap string value;
  loading : bool;
  error : string;
  isEditing : bool;
  editId : value;
  editIdentifier : gmap string value
}.

Definition initialState : State :=
  mkState (VArr []) ∅ true "" false VNull ∅.

Definition with_entities (v : value) (s : State) : State :=
  mkState v (formData s) (loading s) (error s) (isEditing s) (editId s)
    (editIdentifier s).
Definition with_formData (v : gmap string value) (s : State) : State :=
  mkState (entities s) v (loading s) (error s) (isEditing s) (editId s)
    (editIdentifier s).
Definition with_loading (v : bool) (s : State) : State :=
  mkState (entities s) (formData s) v (error s) (isEditing s) (editId s)
    (editIdentifier s).
Definition with_error (v : string) (s : State) : State :=
  mkState (entities s) (formData s) (loading s) v (isEditing s) (editId s)
    (editIdentifier s).
Definition with_isEditing (v : bool) (s : State) : State :=
  mkState (entities s) (formData s) (loading s) (error s) v (editId s)
    (editIdentifier s).
Definition with_editId (v : value) (s : State) : State :=
  mkState (entities s) (formData s) (loading s) (error s) (isEditing s) v
    (editIdentifier s).
Definition with_editIdentifier (v : gmap string value) (s : State) : State :=
  mkState (entities s) (formData s) (loading s) (error s) (isEditing s)
    (editId s) v.

(** ** Effects, the world and the monad *)

Inductive Event :=
| EvFetch (method url : string) (body : option (gmap string value))
| EvConsoleError (prefix : string) (e : Error)
| EvAlert (msg : string)
| EvConfirm (msg : string)
| EvPreventDefault
| EvScrollTo.

(** An HTTP response: its status code and the outcome of [response.json()]. *)
Record Response := mkResponse { status : Z; json : Error + value }.

Definition ok (r : Response) : bool :=
  (200 <=? status r) && (status r <=? 299).

(** The world decides, from what has happened so far, how a [fetch] settles
    (it rejects with an error or resolves to a response) and what the user
    answers to a confirmation prompt. *)
Record World := mkWorld {
  fetch_answer :
    list Event -> string -> string -> option (gmap string value) ->
    Error + Response;
  confirm_answer : list Event -> string -> bool
}.

Record Config := mkConfig {
  store : State;
  trace : list (Event * State)
}.

Definition history (c : Config) : list Event := List.map fst (trace c).

Inductive Completion (A : Type) : Type :=
| Returned (a : A)
| Threw (e : Error).
#[global] Arguments Returned {A} a.
#[global] Arguments Threw {A} e.

Definition Async (A : Type) : Type :=
  World -> Config -> Completion A * Config.

Definition ret {A} (a : A) : Async A := fun _ c => (Returned a, c).

Definition throw {A} (e : Error) : Async A := fun _ c => (Threw e, c).

Definition bind {A B} (m : Async A) (k : A -> Async B) : Async B :=
  fun W c =>
    match m W c with
    | (Returned a, c') => k a W c'
    | (Threw e, c') => (Threw e, c')
    end.

#[local] Instance Async_ret : MRet Async := @ret.
#[local] Instance Async_bind : MBind Async := fun A B k m => bind m k.

(** [try { body } catch (err) { handler err }] *)
Definition try_catch {A} (body : Async A) (handler : Error -> Async A)
  : Async A :=
  fun W c =>
    match body W c with
    | (Returned a, c') => (Returned a, c')
    | (Threw e, c') => handler e W c'
    end.

(** [try { body } finally { final }]: [final] runs on every exit of [body];
    when [final] itself throws, that completion replaces the body's. *)
Definition try_finally {A} (body : Async A) (final : Async unit) : Async A :=
  fun W c =>
    match body W c with
    | (r, c') =>
        match final W c' with
        | (Returned _, c'') => (r, c'')
        | (Threw e, c'') => (Threw e, c'')
        end
    end.

(** A call of an async function whose promise is dropped: it runs, and its
    rejection reaches nobody. *)
Definition detached (m : Async unit) : Async unit :=
  fun W c => (Returned tt, snd (m W c)).

(** A synchronous step that may throw. *)
Definition lift {A} (r : Error + A) : Async A :=
  match r with
  | inl e => throw e
  | inr a => ret a
  end.

Definition setState (f : State -> State) : Async unit :=
  fun _ c => (Returned tt, mkConfig (f (store c)) (trace c)).

Definition perform (ev : Event) : Async unit :=
  fun _ c => (Returned tt, mkConfig (store c) (trace c ++ [(ev, store c)])).

Definition setEntities (v : value) := setState (with_entities v).
Definition setFormData (v : gmap string value) := setState (with_formData v).
Definition setLoading (v : bool) := setState (with_loading v).
Definition setError (v : string) := setState (with_error v).
Definition setIsEditing (v : bool) := setState (with_isEditing v).
Definition setEditId (v : value) := setState (with_editId v).
Definition setEditIdentifier (v : gmap string value) :=
  setState (with_editIdentifier v).

Definition alert (msg : string) : Async unit := perform (EvAlert msg).

Definition console_error (prefix : string) (e : Error) : Async unit :=
  perform (EvConsoleError prefix e).

Definition window_confirm (msg : string) : Async bool :=
  fun W c =>
    (Returned (confirm_answer W (history c) msg),
     mkConfig (store c) (trace c ++ [(EvConfirm msg, store c)])).

(** [await fetch(url, {method, headers, body})] *)
Definition fetch (url method : string) (body : option (gmap string value))
  : Async Response :=
  fun W c =>
    let c' := mkConfig (store c) (trace c ++ [(EvFetch method url body, store c)]) in
    match fetch_answer W (history c) method url body with
    | inl e => (Threw e, c')
    | inr r => (Returned r, c')
    end.

(** [await response.json()] *)
Definition Response_json (r : Response) : Async value := lift (json r).

(** ** The transport adapter, [src/api.js] *)

Definition API_BASE_URL : string := "http://localhost:5000/api".

Definition apiCall (endpoint method : string)
    (data : option (gmap string value)) : Async value :=
  let url := API_BASE_URL +:+ endpoint in
  let body := data in
  try_catch
    (response ← fetch url method body;
     result ← Response_json response;
     if negb (ok response) then
       err ← lift (GetV result "error");
       throw (new_Error (or_else err (VStr "Something went wrong")))
     else ret result)
    (fun error =>
       console_error ("API Call Error (" +:+ method +:+ " " +:+ url +:+ "):") error ;;
       throw error).

(** ** The engine, [src/components/EntityManager.jsx] *)

Section Component.
Variable P : Props.

Definition fetchEntities : Async unit :=
  setLoading true ;;
  setError "" ;;
  try_finally
    (try_catch
       (data ← apiCall (endpoint P) "GET" None;
        setEntities data)
       (fun err =>
          setError ("Failed to fetch " +:+ entityName P +:+ "s: " +:+ err_message err)))
    (setLoading false).

Definition handleInputChange (name value type : string) (checked : bool)
  : Async unit :=
  setState (fun s =>
    with_formData
      (<[name := if String.eqb type "checkbox" then VBool checked else VStr value]>
         (formData s)) s).

Definition handleSubmit (r : State) : Async unit :=
  perform EvPreventDefault ;;
  setError "" ;;
  try_catch
    ((if isEditing r then
        let identifierPath :=
          Array_join "/"
            (List.map (fun field => get (editIdentifier r) field)
               (uniqueIdentifierFields P)) in
        apiCall (endpoint P +:+ "/" +:+ identifierPath) "PUT" (Some (formData r)) ;;
        alert (entityName P +:+ " updated successfully!")
      else
        apiCall (endpoint P) "POST" (Some (formData r)) ;;
        alert (entityName P +:+ " added successfully!")) ;;
     setFormData ∅ ;;
     setIsEditing false ;;
     setEditId VNull ;;
     setEditIdentifier ∅ ;;
     detached fetchEntities)
    (fun err =>
       setError ("Failed to save " +:+ entityName P +:+ ": " +:+ err_message err)).

(** The body of the [forEach] of [handleEdit] for one form field. *)
Definition normalize_date_field (newFormData : gmap string value)
    (field : FieldSpec) : Error + gmap string value :=
  if String.eqb (type field) "date" && ToBoolean (get newFormData (name field))
  then
    match Date_toISOString (new_Date (get newFormData (name field))) with
    | inl e => inl e
    | inr iso =>
        inr (<[name field := first_element (ESDate.String_split "T" iso)]>
               newFormData)
    end
  else inr newFormData.

Fixpoint forEach_field (fields : list FieldSpec)
    (newFormData : gmap string value) : Error + gmap string value :=
  match fields with
  | [] => inr newFormData
  | field :: rest =>
      match normalize_date_field newFormData field with
      | inl e => inl e
      | inr newFormData' => forEach_field rest newFormData'
      end
  end.

Definition capture_identifier (entity : gmap string value)
  : gmap string value :=
  fold_left (fun identifier field => <[field := get entity field]> identifier)
    (uniqueIdentifierFields P) ∅.

Definition handleEdit (entity : gmap string value) : Async unit :=
  newFormData ← lift (forEach_field (formFields P) entity);
  setFormData newFormData ;;
  setIsEditing true ;;
  setEditId (get entity "_id") ;;
  setEditIdentifier (capture_identifier entity) ;;
  perform EvScrollTo.

Definition handleDelete (entity : gmap string value) : Async unit :=
  confirmed ← window_confirm
    ("Are you sure you want to delete this " +:+ entityName P +:+ "?");
  if (confirmed : bool) then
    setError "" ;;
    try_catch
      (let identifierPath :=
         Array_join "/"
           (List.map (fun field => get entity field) (uniqueIdentifierFields P)) in
       apiCall (endpoint P +:+ "/" +:+ identifierPath) "DELETE" None ;;
       alert (entityName P +:+ " deleted successfully!") ;;
       detached fetchEntities)
      (fun err =>
         setError ("Failed to delete " +:+ entityName P +:+ ": " +:+ err_message err))
  else ret tt.

Definition handleCancelEdit : Async unit :=
  setFormData ∅ ;;
  setIsEditing false ;;
  setEditId VNull ;;
  setEditIdentifier ∅ ;;
  setError "".

(** ** User actions *)

Inductive Action :=
| Mount
| InputChange (name value type : string) (checked : bool)
| Submit
| Edit (entity : gmap string value)
| Delete (entity : gmap string value)
| CancelEdit.

(** An action runs the handler of the current render. *)
Definition dispatch (a : Action) : Async unit :=
  fun W c =>
    match a with
    | Mount => fetchEntities W c
    | InputChange n v t ch => handleInputChange n v t ch W c
    | Submit => handleSubmit (store c) W c
    | Edit entity => handleEdit entity W c
    | Delete entity => handleDelete entity W c
    | CancelEdit => handleCancelEdit W c
    end.

(** Actions one after the other; an error that escapes a handler is reported
    by the browser and the component goes on. *)
Fixpoint run_actions (acts : list Action) (W : World) (c : Config) : Config :=
  match acts with
  | [] => c
  | a :: rest => run_actions rest W (snd (dispatch a W c))
  end.

End Component.

(** ** Reading a run *)

(** The requests of a trace, in order. *)
Definition is_fetch (ev : Event) : bool :=
  match ev with EvFetch _ _ _ => true | _ => false end.

Definition requests (tr : list (Event * State)) : list Event :=
  List.filter is_fetch (List.map fst tr).

(** What a computation added to the trace of the configuration [c] it
    started from. *)
Definition new_events (c c' : Config) : list (Event * State) :=
  drop (length (trace c)) (trace c').

(** How [apiCall] completes, as a function of how its [fetch] settles;
    [apiCall_run] relates it to the code. *)
Definition api_completion (settled : Error + Response) : Error + value :=
  match settled with
  | inl e => inl e
  | inr response =>
      match json response with
      | inl e => inl e
      | inr result =>
          if ok response then inr result
          else match GetV result "error" with
               | inl e => inl e
               | inr err =>
                   inl (new_Error (or_else err (VStr "Something went wrong")))
               end
      end
  end.

(** The prefix [apiCall] gives to [console.error]. *)
Definition log_prefix (method url : string) : string :=
  "API Call Error (" +:+ method +:+ " " +:+ url +:+ "):".

(** The path suffix the specification prescribes for a record: the values
    of the identifier fields, in the order the schema declares them, joined
    by a slash. *)
Fixpoint slash_joined (segments : list string) : string :=
  match segments with
  | [] => ""
  | [seg] => seg
  | seg :: rest => seg +:+ "/" +:+ slash_joined rest
  end.

Definition identifier_path (P : Props) (record : gmap string value) : string :=
  slash_joined
    (List.map (fun f => join_element (get record f)) (uniqueIdentifierFields P)).


(** The request a submit from the render [r] sends, and the state of the
    form after a successful submit. *)
Definition submit_method (r : State) : string :=
  if isEditing r then "PUT" else "POST".

Definition submit_endpoint (P : Props) (r : State) : string :=
  if isEditing r then
    endpoint P +:+ "/" +:+
    Array_join "/"
      (List.map (fun field => get (editIdentifier r) field)
         (uniqueIdentifierFields P))
  else endpoint P.

Definition submit_alert (P : Props) (r : State) : string :=
  if isEditing r then entityName P +:+ " updated successfully!"
  else entityName P +:+ " added successfully!".

Definition delete_endpoint (P : Props) (entity : gmap string value) : string :=
  endpoint P +:+ "/" +:+
  Array_join "/"
    (List.map (fun field => get entity field) (uniqueIdentifierFields P)).

Definition delete_prompt (P : Props) : string :=
  "Are you sure you want to delete this " +:+ entityName P +:+ "?".

Definition form_reset (s : State) : State :=
  with_editIdentifier ∅
    (with_editId VNull (with_isEditing false (with_formData ∅ s))).

(** The state in which [handleEdit] leaves the component. *)
Definition edit_state (P : Props) (entity newFormData : gmap string value)
    (s : State) : State :=
  with_editIdentifier (capture_identifier P entity)
    (with_editId (get entity "_id")
       (with_isEditing true (with_formData newFormData s))).


Definition is_InputChange (a : Action) : bool :=
  match a with InputChange _ _ _ _ => true | _ => false end.

(** The names of the date-typed form fields. *)
Definition date_field_names (fields : list FieldSpec) : list string :=
  List.map name (List.filter (fun f => String.eqb (type f) "date") fields).

(** The field [k] of the draft [m] holds the UTC date of the instant that the
    record [entity] has there. *)
Definition normalized_at (entity m : gmap string value) (k : string) : Prop :=
  exists t : Z,
    ToBoolean (get entity k) = true
    /\ new_Date (get entity k) = Some t
    /\ m !! k = Some (VStr (ESDate.date_string t)).

(** The invariant of the loop of [handleEdit], once it has been through the
    form fields [done]: a field of the draft is the record's, or it is a
    date field that has been normalized. *)
Definition loop_invariant (entity : gmap string value) (done : list FieldSpec)
    (m : gmap string value) : Prop :=
  forall k : string,
    (m !! k = entity !! k
     /\ (k ∈ date_field_names done -> ToBoolean (get entity k) = false))
    \/ (k ∈ date_field_names done /\ normalized_at entity m k).

(** Every non-empty date field of the record is a date [new Date] accepts. *)
Definition dates_accepted (fields : list FieldSpec)
    (entity : gmap string value) : Prop :=
  forall f : FieldSpec,
    f ∈ fields -> type f = "date" ->
    ToBoolean (get entity (name f)) = true ->
    new_Date (get entity (name f)) <> None.

End Engine.

(** ** The page schemas *)

Definition text_field (name label placeholder : string) (required : bool)
  : FieldSpec :=
  mkField name label "text" (Some placeholder) required [] None.

Definition number_field (name label placeholder : string) (required : bool)
  : FieldSpec :=
  mkField name label "number" (Some placeholder) required [] None.

(** [src/pages/SupplierManager.jsx] *)
Definition SupplierManager : Props :=
  mkProps "Supplier" "Supplier" "/suppliers"
    [ text_field "supplier_id" "Supplier ID" "e.g., SUP001" true;
      text_field "supplier_name" "Supplier Name" "e.g., Silicon Inc." true;
      text_field "contact_person" "Contact Person" "e.g., John Doe" false;
      mkField "contact_email" "Contact Email" "email"
        (Some "e.g., john@example.com") false [] None;
      text_field "contact_phone" "Contact Phone" "e.g., +1234567890" false;
      text_field "supplier_location_id" "Location ID"
        "e.g., LOC001 (must exist)" true ]
    "supplier_id"
    [ mkDisplay "supplier_id" "ID";
      mkDisplay "supplier_name" "Name";
      mkDisplay "contact_person" "Contact Person";
      mkDisplay "contact_email" "Email";
      mkDisplay "supplier_location_id" "Location ID" ]
    [ "supplier_id" ].

(** [src/pages/StoreLimitManager.jsx] *)
Definition StoreLimitManager : Props :=
  mkProps "Store Limit" "Store Limit" "/store_limits"
    [ text_field "product_id" "Product ID" "e.g., PRD003" true;
      text_field "location_id" "Location ID" "e.g., LOC004" true;
      number_field "base_limit" "Base Limit" "e.g., 10" true;
      number_field "max_limit" "Max Limit" "e.g., 100" true ]
    "product_id"
    [ mkDisplay "product_id" "Product ID";
      mkDisplay "location_id" "Location ID";
      mkDisplay "base_limit" "Base Limit";
      mkDisplay "max_limit" "Max Limit" ]
    [ "product_id"; "location_id" ].

(** [src/pages/RawMaterialCostManager.jsx] *)
Definition RawMaterialCostManager : Props :=
  mkProps "Raw Material Cost" "Raw Material Cost" "/raw_material_costs"
    [ text_field "product_id" "Product ID" "e.g., PRD001" true;
      text_field "supplier_id" "Supplier ID" "e.g., SUP001" true;
      number_field "cost_per_unit" "Cost Per Unit" "e.g., 10.50" true;
      mkField "currency" "Currency" "text" (Some "e.g., USD") false []
        (Some "USD");
      mkField "effective_date" "Effective Date" "date" None true [] None ]
    "product_id"
    [ mkDisplay "product_id" "Product ID";
      mkDisplay "supplier_id" "Supplier ID";
      mkDisplay "cost_per_unit" "Cost/Unit";
      mkDisplay "currency" "Currency";
      mkDisplay "effective_date" "Effective Date" ]
    [ "product_id"; "supplier_id"; "effective_date" ].

(** [src/pages/InventoryManager.jsx] *)
Definition InventoryManager : Props :=
  mkProps "Inventory" "Inventory Item" "/inventory"
    [ text_field "product_id" "Product ID" "e.g., PRD003" true;
      text_field "location_id" "Location ID" "e.g., LOC004" true;
      number_field "current_stock" "Current Stock" "e.g., 50" true ]
    "product_id"
    [ mkDisplay "product_id" "Product ID";
      mkDisplay "location_id" "Location ID";
      mkDisplay "current_stock" "Stock";
      mkDisplay "updated_at" "Last Updated" ]
    [ "product_id"; "location_id" ].

(** [src/pages/TransportationRouteManager.jsx] *)
Definition TransportationRouteManager : Props :=
  mkProps "Transportation Route" "Transportation Route"
    "/transportation_routes"
    [ text_field "origin_location_id" "Origin Location ID" "e.g., LOC003" true;
      text_field "destination_location_id" "Destination Location ID"
        "e.g., LOC004" true;
      number_field "base_cost_per_kg" "Base Cost Per KG" "e.g., 1.50" true;
      number_field "estimated_travel_time_hours" "Est. Travel Time (Hours)"
        "e.g., 3.0" false;
      number_field "distance_km" "Distance (KM)" "e.g., 350" false ]
    "origin_location_id"
    [ mkDisplay "origin_location_id" "Origin ID";
      mkDisplay "destination_location_id" "Destination ID";
      mkDisplay "base_cost_per_kg" "Base Cost/KG";
      mkDisplay "estimated_travel_time_hours" "Travel Time (h)";
      mkDisplay "distance_km" "Distance (km)" ]
    [ "origin_location_id"; "destination_location_id" ].

(** [src/pages/LocationManager.jsx] *)
Definition LocationManager : Props :=
  mkProps "Location" "Location" "/locations"
    [ text_field "location_id" "Location ID" "e.g., LOC001" true;
      text_field "location_name" "Location Name" "e.g., Rouen Supplier" true;
      mkField "location_type" "Location Type" "select" None true
        [ ("manufacturing", "Manufacturing");
          ("store", "Store");
          ("supplier", "Supplier") ]
        None;
      mkField "address" "Address" "textarea" (Some "Street, City, Country")
        false [] None;
      text_field "city" "City" "e.g., Rouen" false;
      text_field "state_province" "State/Province" "e.g., Normandy" false;
      text_field "country" "Country" "e.g., France" false;
      number_field "latitude" "Latitude" "e.g., 49.4431" false;
      number_field "longitude" "Longitude" "e.g., 1.0993" false ]
    "location_id"
    [ mkDisplay "location_id" "ID";
      mkDisplay "location_name" "Name";
      mkDisplay "location_type" "Type";
      mkDisplay "city" "City";
      mkDisplay "country" "Country";
      mkDisplay "latitude" "Lat";
      mkDisplay "longitude" "Long" ]
    [ "location_id" ].

(** [src/pages/ProductManager.jsx] *)
Definition ProductManager : Props :=
  mkProps "Product" "Product" "/products"
    [ text_field "product_id" "Product ID" "e.g., PRD001" true;
      text_field "product_name" "Product Name" "e.g., Silicon" true;
      mkField "product_type" "Product Type" "select" None true
        [ ("raw_material", "Raw Material");
          ("manufactured", "Manufactured") ]
        None;
      text_field "unit_of_measure" "Unit of Measure" "e.g., kg, unit" true;
      mkField "description" "Description" "textarea"
        (Some "Optional product description") false [] None ]
    "product_id"
    [ mkDisplay "product_id" "ID";
      mkDisplay "product_name" "Name";
      mkDisplay "product_type" "Type";
      mkDisplay "unit_of_measure" "Unit";
      mkDisplay "description" "Description" ]
    [ "product_id" ].

(** The entity pages, in the order [renderPage] of [src/App.jsx] lists
    them. *)
Definition all_pages : list Props :=
  [ ProductManager; LocationManager; InventoryManager; StoreLimitManager;
    SupplierManager; RawMaterialCostManager; TransportationRouteManager ].

(** The [disabled] attribute of the input the form renders for a field: a
    [select] and a [textarea] never carry it, a [TextField] is disabled in
    Edit mode when it is the [idField]. *)
Definition input_disabled (P : Props) (isEditing : bool) (field : FieldSpec)
  : bool :=
  if String.eqb (type field) "select" then false
  else if String.eqb (type field) "textarea" then false
  else isEditing && String.eqb (name field) (idField P).

(** ** Worlds and records to run examples in *)

Section Examples.
Context {rt : JSRuntime}.

(** A server that answers every request with [200] and an empty list, and
    a user who confirms. *)
Definition agreeable_world : World :=
  mkWorld (fun _ _ _ _ => inr (mkResponse 200 (inr (VArr []))))
          (fun _ _ => true).

(** A server that rejects every request with [409] and
    [{error: "duplicate"}]. *)
Definition duplicate_world : World :=
  mkWorld
    (fun _ _ _ _ =>
       inr (mkResponse 409 (inr (VObj {[ "error" := VStr "duplicate" ]}))))
    (fun _ _ => true).

(** A server whose error responses carry the body [null]. *)
Definition null_body_world : World :=
  mkWorld (fun _ _ _ _ => inr (mkResponse 500 (inr VNull)))
          (fun _ _ => true).

(** A server whose error responses carry an empty [error] field. *)
Definition empty_error_world : World :=
  mkWorld
    (fun _ _ _ _ =>
       inr (mkResponse 400 (inr (VObj {[ "error" := VStr "" ]}))))
    (fun _ _ => true).

(** A network that is down: every [fetch] rejects. *)
Definition offline_world : World :=
  mkWorld (fun _ _ _ _ => inl (mkError "TypeError" "Failed to fetch"))
          (fun _ _ => true).

(** A user who declines every prompt. *)
Definition declining_world : World :=
  mkWorld (fun _ _ _ _ => inr (mkResponse 200 (inr (VArr []))))
          (fun _ _ => false).

Definition initial_config : Config := mkConfig initialState [].

Definition supplier_draft : gmap string value :=
  {[ "supplier_id" := VStr "SUP001";
     "supplier_name" := VStr "Silicon Inc.";
     "supplier_location_id" := VStr "LOC001" ]}.

Definition supplier_record : gmap string value :=
  {[ "_id" := VStr "665f1c2ab7e4a90012d3f000";
     "supplier_id" := VStr "SUP001";
     "supplier_name" := VStr "Silicon Inc.";
     "supplier_location_id" := VStr "LOC001" ]}.

Definition store_limit_record : gmap string value :=
  {[ "_id" := VStr "665f1c2ab7e4a90012d3f001";
     "product_id" := VStr "PRD003";
     "location_id" := VStr "LOC004";
     "base_limit" := VStr "10";
     "max_limit" := VStr "100" ]}.

Definition raw_material_cost_record : gmap string value :=
  {[ "_id" := VStr "665f1c2ab7e4a90012d3f002";
     "product_id" := VStr "PRD001";
     "supplier_id" := VStr "SUP001";
     "currency" := VStr "USD";
     "effective_date" := VStr "2024-03-05T00:00:00Z" ]}.

(** The Supplier page with the draft of scenario A typed in, in Add mode. *)
Definition supplier_form : Config :=
  mkConfig (with_formData supplier_draft initialState) [].


End Examples.

(** A runtime to run closed examples in: integers for numbers, UTC for the
    local time zone, no fallback date formats. *)
Definition decimal (n : Z) : string := pretty n.

#[export] Instance sample_runtime : JSRuntime := {|
  Num := Z;
  Number_toString := decimal;
  Number_toBoolean := fun n => negb (n =? 0);
  Number_toInteger := fun n => Some n;
  Date_parse_fallback := fun _ => None;
  LocalTZA := fun _ => 0;
  nullish_read_message := fun k =>
    "Cannot read properties of null (reading '" +:+ k +:+ "')";
  invalid_time_message := "Invalid time value"
|}.

(** ** More ways to read a run *)

Section Reading.
Context {rt : JSRuntime}.

(** What the input named [k] was last set to by a list of actions, when one
    of them is a change of that input. *)
Fixpoint last_typed (inputs : list Action) (k : string) : option value :=
  match inputs with
  | [] => None
  | a :: rest =>
      match last_typed rest k with
      | Some v => Some v
      | None =>
          match a with
          | InputChange n v t ch =>
              if String.eqb n k
              then Some (if String.eqb t "checkbox" then VBool ch else VStr v)
              else None
          | _ => None
          end
      end
  end.

(** The form field [f] is a date field whose value in [m] is non-empty and
    is rejected by [new Date]. *)
Definition rejected_date (m : gmap string value) (f : FieldSpec) : Prop :=
  type f = "date"
  /\ ToBoolean (get m (name f)) = true
  /\ new_Date (get m (name f)) = None.

(** The form as it is at mount and after a reset: in Add mode, empty, with
    no error shown. *)
Definition pristine (s : State) : Prop :=
  formData s = ∅ /\ isEditing s = false /\ editId s = VNull
  /\ editIdentifier s = ∅ /\ error s = "".

(** The value is [undefined] or [null]. *)
Definition nullish (v : value) : bool :=
  match v with
  | VUndefined | VNull => true
  | _ => false
  end.

(** A date field of the record that is empty, or holds a calendar date
    written [YYYY-MM-DD]. *)
Definition date_kept (entity : gmap string value) (f : FieldSpec) : Prop :=
  ToBoolean (get entity (name f)) = false
  \/ exists d : string,
       get entity (name f) = VStr d /\ ESDate.is_calendar_date d = true.

End Reading.

(** [n] slashes. *)
Fixpoint slashes (n : nat) : string :=
  match n with
  | O => ""
  | S n' => String "/" (slashes n')
  end.

(** ** More worlds and records *)

Section MoreExamples.
Context {rt : JSRuntime}.

(** A server that answers every request with [204] and no body, so that
    [response.json()] rejects. *)
Definition no_content_world : World :=
  mkWorld
    (fun _ _ _ _ =>
       inr (mkResponse 204
              (inl (mkError "SyntaxError" "Unexpected end of JSON input"))))
    (fun _ _ => true).

(** A RawMaterialCost record whose date is not a date. *)
Definition undated_record : gmap string value :=
  {[ "_id" := VStr "665f1c2ab7e4a90012d3f004";
     "product_id" := VStr "PRD001";
     "supplier_id" := VStr "SUP001";
     "effective_date" := VStr "next week" ]}.

(** A RawMaterialCost record whose date is written [YYYY-MM-DD]. *)
Definition plain_date_record : gmap string value :=
  {[ "_id" := VStr "665f1c2ab7e4a90012d3f005";
     "product_id" := VStr "PRD001";
     "supplier_id" := VStr "SUP001";
     "effective_date" := VStr "2024-03-05" ]}.

(** A record that has lost its identifier values. *)
Definition anonymous_record : gmap string value :=
  {[ "_id" := VStr "665f1c2ab7e4a90012d3f006"; "base_limit" := VStr "10" ]}.

(** A page that leaves [uniqueIdentifierFields] to its default. *)
Definition keyless_page : Props :=
  mkProps "Note" "Note" "/notes"
    [ text_field "note_id" "Note ID" "e.g., N1" true ]
    "note_id" [ mkDisplay "note_id" "ID" ] [].

Definition retyping : list Action :=
  [ InputChange "supplier_id" "SUP001" "text" false;
    InputChange "supplier_name" "Silicon Inc." "text" false;
    InputChange "supplier_id" "SUP002" "text" false ].

(** The draft of scenario A, typed in. *)
Definition supplier_typing : list Action :=
  [ InputChange "supplier_id" "SUP001" "text" false;
    InputChange "supplier_name" "Silicon Inc." "text" false;
    InputChange "supplier_location_id" "LOC001" "text" false ].

(** A StoreLimit draft, typed in. *)
Definition store_limit_typing : list Action :=
  [ InputChange "product_id" "PRD005" "text" false;
    InputChange "location_id" "LOC004" "text" false;
    InputChange "base_limit" "20" "number" false;
    InputChange "max_limit" "200" "number" false ].

End MoreExamples.

(** * Requests in flight *)

(** [dispatch] runs a handler to its end: every request settles in the step
    that sends it.  In the browser a handler runs to its next [await] and
    gives way; other handlers run before its request settles.  The module
    below writes the same handlers as resumable threads, so that a request
    in flight is a state of the component. *)

Module Interleaved.
Section Threads.
Context {rt : JSRuntime}.

(** What an async function does next.  [Req] is [await fetch(...)], [Body]
    is [await response.json()]: the function is parked there until the
    browser resumes it.  [Fork] is a call of an async function that is not
    awaited. *)
Inductive Proc (A : Type) : Type :=
| Ret (r : Completion A)
| Act (ev : Event) (k : Proc A)
| Upd (f : State -> State) (k : Proc A)
| Ask (msg : string) (k : bool -> Proc A)
| Req (method url : string) (body : option (gmap string value))
      (k : Error + Response -> Proc A)
| Body (response : Response) (k : Error + value -> Proc A)
| Fork (child : Proc unit) (k : Proc A).
#[global] Arguments Ret {A} r.
#[global] Arguments Act {A} ev k.
#[global] Arguments Upd {A} f k.
#[global] Arguments Ask {A} msg k.
#[global] Arguments Req {A} method url body k.
#[global] Arguments Body {A} response k.
#[global] Arguments Fork {A} child k.

Definition ret {A} (a : A) : Proc A := Ret (Returned a).

Definition throw {A} (e : Error) : Proc A := Ret (Threw e).

Fixpoint bind {A B} (m : Proc A) (f : A -> Proc B) : Proc B :=
  match m with
  | Ret (Returned a) => f a
  | Ret (Threw e) => Ret (Threw e)
  | Act ev k => Act ev (bind k f)
  | Upd g k => Upd g (bind k f)
  | Ask msg k => Ask msg (fun b => bind (k b) f)
  | Req m u b k => Req m u b (fun settled => bind (k settled) f)
  | Body r k => Body r (fun parsed => bind (k parsed) f)
  | Fork child k => Fork child (bind k f)
  end.

#[local] Instance Proc_ret : MRet Proc := @ret.
#[local] Instance Proc_bind : MBind Proc := fun A B k m => bind m k.

(** [try { body } catch (err) { handler err }] *)
Fixpoint try_catch {A} (body : Proc A) (handler : Error -> Proc A) : Proc A :=
  match body with
  | Ret (Returned a) => Ret (Returned a)
  | Ret (Threw e) => handler e
  | Act ev k => Act ev (try_catch k handler)
  | Upd g k => Upd g (try_catch k handler)
  | Ask msg k => Ask msg (fun b => try_catch (k b) handler)
  | Req m u b k => Req m u b (fun settled => try_catch (k settled) handler)
  | Body r k => Body r (fun parsed => try_catch (k parsed) handler)
  | Fork child k => Fork child (try_catch k handler)
  end.

(** [try { body } finally { final }] *)
Fixpoint try_finally {A} (body : Proc A) (final : Proc unit) : Proc A :=
  match body with
  | Ret r => bind final (fun _ => Ret r)
  | Act ev k => Act ev (try_finally k final)
  | Upd g k => Upd g (try_finally k final)
  | Ask msg k => Ask msg (fun b => try_finally (k b) final)
  | Req m u b k => Req m u b (fun settled => try_finally (k settled) final)
  | Body r k => Body r (fun parsed => try_finally (k parsed) final)
  | Fork child k => Fork child (try_finally k final)
  end.

(** A call of an async function whose promise is dropped. *)
Definition detached (m : Proc unit) : Proc unit := Fork m (ret tt).

Definition lift {A} (r : Error + A) : Proc A :=
  match r with
  | inl e => throw e
  | inr a => ret a
  end.

Definition setState (f : State -> State) : Proc unit := Upd f (ret tt).

Definition perform (ev : Event) : Proc unit := Act ev (ret tt).

Definition setEntities (v : value) := setState (with_entities v).
Definition setFormData (v : gmap string value) := setState (with_formData v).
Definition setLoading (v : bool) := setState (with_loading v).
Definition setError (v : string) := setState (with_error v).
Definition setIsEditing (v : bool) := setState (with_isEditing v).
Definition setEditId (v : value) := setState (with_editId v).
Definition setEditIdentifier (v : gmap string value) :=
  setState (with_editIdentifier v).

Definition alert (msg : string) : Proc unit := perform (EvAlert msg).

Definition console_error (prefix : string) (e : Error) : Proc unit :=
  perform (EvConsoleError prefix e).

Definition window_confirm (msg : string) : Proc bool := Ask msg ret.

(** [await fetch(url, {method, headers, body})] *)
Definition fetch (url method : string) (body : option (gmap string value))
  : Proc Response :=
  Req method url body lift.

(** [await response.json()] *)
Definition Response_json (r : Response) : Proc value := Body r lift.

(** ** The transport adapter, [src/api.js] *)

Definition apiCall (endpoint method : string)
    (data : option (gmap string value)) : Proc value :=
  let url := API_BASE_URL +:+ endpoint in
  let body := data in
  try_catch
    (response ← fetch url method body;
     result ← Response_json response;
     if negb (ok response) then
       err ← lift (GetV result "error");
       throw (new_Error (or_else err (VStr "Something went wrong")))
     else ret result)
    (fun error =>
       console_error ("API Call Error (" +:+ method +:+ " " +:+ url +:+ "):") error ;;
       throw error).

(** ** The engine, [src/components/EntityManager.jsx] *)

Section Component.
Variable P : Props.

Definition fetchEntities : Proc unit :=
  setLoading true ;;
  setError "" ;;
  try_finally
    (try_catch
       (data ← apiCall (endpoint P) "GET" None;
        setEntities data)
       (fun err =>
          setError ("Failed to fetch " +:+ entityName P +:+ "s: " +:+ err_message err)))
    (setLoading false).

Definition handleInputChange (name value type : string) (checked : bool)
  : Proc unit :=
  setState (fun s =>
    with_formData
      (<[name := if String.eqb type "checkbox" then VBool checked else VStr value]>
         (formData s)) s).

Definition handleSubmit (r : State) : Proc unit :=
  perform EvPreventDefault ;;
  setError "" ;;
  try_catch
    ((if isEditing r then
        let identifierPath :=
          Array_join "/"
            (List.map (fun field => get (editIdentifier r) field)
               (uniqueIdentifierFields P)) in
        apiCall (endpoint P +:+ "/" +:+ identifierPath) "PUT" (Some (formData r)) ;;
        alert (entityName P +:+ " updated successfully!")
      else
        apiCall (endpoint P) "POST" (Some (formData r)) ;;
        alert (entityName P +:+ " added successfully!")) ;;
     setFormData ∅ ;;
     setIsEditing false ;;
     setEditId VNull ;;
     setEditIdentifier ∅ ;;
     detached fetchEntities)
    (fun err =>
       setError ("Failed to save " +:+ entityName P +:+ ": " +:+ err_message err)).

Definition handleEdit (entity : gmap string value) : Proc unit :=
  newFormData ← lift (forEach_field (formFields P) entity);
  setFormData newFormData ;;
  setIsEditing true ;;
  setEditId (get entity "_id") ;;
  setEditIdentifier (capture_identifier P entity) ;;
  perform EvScrollTo.

Definition handleDelete (entity : gmap string value) : Proc unit :=
  confirmed ← window_confirm
    ("Are you sure you want to delete this " +:+ entityName P +:+ "?");
  if (confirmed : bool) then
    setError "" ;;
    try_catch
      (let identifierPath :=
         Array_join "/"
           (List.map (fun field => get entity field) (uniqueIdentifierFields P)) in
       apiCall (endpoint P +:+ "/" +:+ identifierPath) "DELETE" None ;;
       alert (entityName P +:+ " deleted successfully!") ;;
       detached fetchEntities)
      (fun err =>
         setError ("Failed to delete " +:+ entityName P +:+ ": " +:+ err_message err))
  else ret tt.

Definition handleCancelEdit : Proc unit :=
  setFormData ∅ ;;
  setIsEditing false ;;
  setEditId VNull ;;
  setEditIdentifier ∅ ;;
  setError "".

(** The handler an action runs, in the render [r] it was bound in. *)
Definition handler (a : Action) (r : State) : Proc unit :=
  match a with
  | Mount => fetchEntities
  | InputChange n v t ch => handleInputChange n v t ch
  | Submit => handleSubmit r
  | Edit entity => handleEdit entity
  | Delete entity => handleDelete entity
  | CancelEdit => handleCancelEdit
  end.

End Component.

(** ** The event loop *)

(** The component and the async functions that are parked at an [await],
    each in a slot of its own; a slot is empty once its function has
    returned. *)
Record Sys := mkSys {
  config : Config;
  pool : list (option (Proc unit))
}.

Definition record (ev : Event) (s : Sys) : Sys :=
  mkSys (mkConfig (store (config s))
           (trace (config s) ++ [(ev, store (config s))]))
        (pool s).

Definition update (f : State -> State) (s : Sys) : Sys :=
  mkSys (mkConfig (f (store (config s))) (trace (config s))) (pool s).

Definition park (slot : nat) (p : option (Proc unit)) (s : Sys) : Sys :=
  mkSys (config s) (<[slot := p]> (pool s)).

Definition new_slot (s : Sys) : Sys := mkSys (config s) (pool s ++ [None]).

(** A function runs in its slot until it returns or reaches an [await].  A
    request is sent when [fetch] is called, before the function is parked; a
    function called without [await] runs in a slot of its own until it is
    parked, and then the caller goes on.  An error that escapes is reported
    by the browser and changes nothing. *)
Fixpoint advance (W : World) (p : Proc unit) (slot : nat) (s : Sys) : Sys :=
  match p with
  | Ret _ => park slot None s
  | Act ev k => advance W k slot (record ev s)
  | Upd f k => advance W k slot (update f s)
  | Ask msg k =>
      advance W (k (confirm_answer W (history (config s)) msg)) slot
        (record (EvConfirm msg) s)
  | Req m u b _ => park slot (Some p) (record (EvFetch m u b) s)
  | Body _ _ => park slot (Some p) s
  | Fork child k =>
      advance W k slot (advance W child (length (pool s)) (new_slot s))
  end.

(** What happens next: the user acts, a request settles (its [fetch]
    rejects with an error or resolves to a response), or the body of a
    response has arrived. *)
Inductive Label :=
| User (a : Action)
| Settle (slot : nat) (settled : Error + Response)
| Resume (slot : nat).

Definition step (W : World) (P : Props) (l : Label) (s : Sys) : Sys :=
  match l with
  | User a =>
      advance W (handler P a (store (config s))) (length (pool s)) (new_slot s)
  | Settle i settled =>
      match pool s !! i with
      | Some (Some (Req _ _ _ k)) => advance W (k settled) i s
      | _ => s
      end
  | Resume i =>
      match pool s !! i with
      | Some (Some (Body r k)) => advance W (k (json r)) i s
      | _ => s
      end
  end.

Fixpoint run (W : World) (P : Props) (ls : list Label) (s : Sys) : Sys :=
  match ls with
  | [] => s
  | l :: rest => run W P rest (step W P l s)
  end.

(** The component before its first effect. *)
Definition boot : Sys := mkSys (mkConfig initialState []) [].

(** ** One handler at a time *)

(** A thread whose every request settles at once, as the world says: the
    run of [dispatch]. *)
Fixpoint atomic {A : Type} (p : Proc A) (W : World) (c : Config)
  : Completion A * Config :=
  match p with
  | Ret r => (r, c)
  | Act ev k =>
      atomic k W (mkConfig (store c) (trace c ++ [(ev, store c)]))
  | Upd f k => atomic k W (mkConfig (f (store c)) (trace c))
  | Ask msg k =>
      atomic (k (confirm_answer W (history c) msg)) W
        (mkConfig (store c) (trace c ++ [(EvConfirm msg, store c)]))
  | Req m u b k =>
      atomic (k (fetch_answer W (history c) m u b)) W
        (mkConfig (store c) (trace c ++ [(EvFetch m u b, store c)]))
  | Body r k => atomic (k (json r)) W c
  | Fork child k => atomic k W (snd (atomic child W c))
  end.

(** A thread refines a computation of [Async] when, with every request
    settled at once, it is that computation. *)
Definition refines {A} (p : Proc A) (m : Async A) : Prop :=
  forall (W : World) (c : Config), atomic p W c = m W c.

(** ** Reading an interleaved run *)

(** Where a handler is parked first, when the user confirms what it asks. *)
Fixpoint first_await (p : Proc unit) : Proc unit :=
  match p with
  | Act _ k | Upd _ k => first_await k
  | Ask _ k => first_await (k true)
  | _ => p
  end.

(** Where a function parked at its [fetch] is parked next, once the fetch
    has resolved to a response. *)
Definition after_response (p : Proc unit) (response : Response) : Proc unit :=
  match p with
  | Req _ _ _ k => first_await (k (inr response))
  | _ => p
  end.

(** The operations that send a request. *)
Definition is_operation (a : Action) : bool :=
  match a with
  | Mount | Submit | Delete _ => true
  | _ => false
  end.

(** The action starts a request: it is the fetch, a submit, or a delete that
    the user confirms. *)
Definition starts_request (W : World) (P : Props) (s : Sys) (a : Action)
  : bool :=
  match a with
  | Mount | Submit => true
  | Delete _ => confirm_answer W (history (config s)) (delete_prompt P)
  | _ => false
  end.

(** A slot of the pool holds nothing, or an operation of the engine parked
    at its [fetch] or at the body of the response. *)
Definition engine_thread (P : Props) (slot : option (Proc unit)) : Prop :=
  slot = None
  \/ exists (a : Action) (r : State),
       is_operation a = true
       /\ (slot = Some (first_await (handler P a r))
           \/ exists response : Response,
                slot
                = Some (after_response (first_await (handler P a r)) response)).

Definition engine_threads (P : Props) (s : Sys) : Prop :=
  Forall (engine_thread P) (pool s).

(** The request of slot [i] is in flight: its function waits for the
    response, or for the body of the response. *)
Definition in_flight (s : Sys) (i : nat) : bool :=
  match pool s !! i with
  | Some (Some (Req _ _ _ _)) | Some (Some (Body _ _)) => true
  | _ => false
  end.

(** The request slot [i] waits for. *)
Definition awaited (s : Sys) (i : nat) : option Event :=
  match pool s !! i with
  | Some (Some (Req m u b _)) => Some (EvFetch m u b)
  | _ => None
  end.

(** The step is not one of slot [i]. *)
Definition others (i : nat) (l : Label) : bool :=
  match l with
  | User _ => true
  | Settle j _ | Resume j => negb (Nat.eqb j i)
  end.

(** The step tells an operation that its request has failed: the [fetch]
    of a parked function rejects, or the body that arrives makes [apiCall]
    throw. *)
Definition delivers_failure (s : Sys) (l : Label) : bool :=
  match l with
  | User _ => false
  | Settle j settled =>
      match pool s !! j, settled with
      | Some (Some (Req _ _ _ _)), inl _ => true
      | _, _ => false
      end
  | Resume j =>
      match pool s !! j with
      | Some (Some (Body r _)) =>
          match api_completion (inr r) with
          | inl _ => true
          | inr _ => false
          end
      | _ => false
      end
  end.

(** No step of the run tells an operation that its request has failed. *)
Fixpoint quiet (W : World) (P : Props) (ls : list Label) (s : Sys) : bool :=
  match ls with
  | [] => true
  | l :: rest => negb (delivers_failure s l) && quiet W P rest (step W P l s)
  end.

(** The message an operation shows when its request fails with [e]. *)
Definition failure_message (P : Props) (a : Action) (e : Error) : string :=
  match a with
  | Mount => "Failed to fetch " +:+ entityName P +:+ "s: " +:+ err_message e
  | Submit => "Failed to save " +:+ entityName P +:+ ": " +:+ err_message e
  | Delete _ => "Failed to delete " +:+ entityName P +:+ ": " +:+ err_message e
  | _ => ""
  end.

(** The message shown when a request of the method [m] fails with [e]: the
    list is fetched with [GET], a record is deleted with [DELETE] and saved
    with [POST] or [PUT]. *)
Definition failure_text (P : Props) (m : string) (e : Error) : string :=
  if String.eqb m "GET" then
    "Failed to fetch " +:+ entityName P +:+ "s: " +:+ err_message e
  else if String.eqb m "DELETE" then
    "Failed to delete " +:+ entityName P +:+ ": " +:+ err_message e
  else "Failed to save " +:+ entityName P +:+ ": " +:+ err_message e.

(** Every request of the trace left a state whose [error] was empty. *)
Definition sent_without_error (tr : list (Event * State)) : Prop :=
  Forall (fun es => is_fetch (fst es) = true -> error (snd es) = "") tr.

End Threads.
End Interleaved.

(** * Properties *)

(** ** Time values and date strings *)

Module ESDateFacts.
Import ESDate.
Ltac zdiv := Z.div_mod_to_equations; lia.
Ltac case_tests :=
  repeat match goal with
  | |- context [ (?a =? ?b)%Z ] => destruct (Z.eqb_spec a b)
  | |- context [ (?a <? ?b)%Z ] => destruct (Z.ltb_spec a b)
  | |- context [ (?a <=? ?b)%Z ] => destruct (Z.leb_spec a b)
  end.

Lemma DaysInYear_cases y : DaysInYear y = 365 \/ DaysInYear y = 366.
Proof. unfold DaysInYear. case_tests; simpl; auto. Qed.

Lemma DayFromYear_succ y : DayFromYear (y + 1) = DayFromYear y + DaysInYear y.
Proof. unfold DayFromYear, DaysInYear. case_tests; simpl; zdiv. Qed.

Lemma DayFromYear_lt y1 y2 : y1 < y2 -> DayFromYear y1 < DayFromYear y2.
Proof. unfold DayFromYear. intros. zdiv. Qed.

Lemma YearFromDay_spec d :
  DayFromYear (YearFromDay d) <= d < DayFromYear (YearFromDay d + 1).
Proof.
  unfold YearFromDay.
  set (y := 1970 + 400 * d / 146097).
  destruct (Z.leb_spec (DayFromYear (y + 1)) d).
  - split; [lia|].
    subst y. unfold DayFromYear in *. zdiv.
  - destruct (Z.ltb_spec d (DayFromYear y)).
    + split; [|replace (y - 1 + 1) with y by lia; lia].
      subst y. unfold DayFromYear in *. zdiv.
    + lia.
Qed.

Lemma YearFromDay_unique d y :
  DayFromYear y <= d < DayFromYear (y + 1) -> YearFromDay d = y.
Proof.
  intros H. pose proof (YearFromDay_spec d) as H'.
  destruct (Z.lt_trichotomy (YearFromDay d) y) as [Hlt|[Heq|Hgt]]; [|exact Heq|].
  - assert (DayFromYear (YearFromDay d + 1) <= DayFromYear y).
    { destruct (Z.eq_dec (YearFromDay d + 1) y) as [->|]; [lia|].
      apply Z.lt_le_incl, DayFromYear_lt. lia. }
    lia.
  - assert (DayFromYear (y + 1) <= DayFromYear (YearFromDay d)).
    { destruct (Z.eq_dec (y + 1) (YearFromDay d)) as [->|]; [lia|].
      apply Z.lt_le_incl, DayFromYear_lt. lia. }
    lia.
Qed.

Lemma DayWithinYear_bounds t :
  0 <= DayWithinYear t < DaysInYear (YearFromTime t).
Proof.
  unfold DayWithinYear, YearFromTime.
  pose proof (YearFromDay_spec (Day t)) as H.
  rewrite DayFromYear_succ in H. lia.
Qed.

Lemma MonthFromTime_bounds t : 0 <= MonthFromTime t <= 11.
Proof. unfold MonthFromTime. cbv zeta. case_tests; lia. Qed.

Lemma DateFromTime_bounds t :
  1 <= DateFromTime t <= DaysInMonth (YearFromTime t) (MonthFromTime t + 1).
Proof.
  pose proof (DayWithinYear_bounds t) as Hb.
  unfold DateFromTime, MonthFromTime, DaysInMonth, InLeapYear in *.
  cbv zeta.
  destruct (DaysInYear_cases (YearFromTime t)) as [E|E]; rewrite E in *; simpl (_ =? _);
    cbv iota; case_tests; simpl; lia.
Qed.

Lemma MakeDay_in_year y m d :
  0 <= m <= 11 ->
  MakeDay y m d =
  DayFromYear y + DaysBeforeMonth (if DaysInYear y =? 366 then 1 else 0) m + d - 1.
Proof.
  intros Hm. unfold MakeDay. cbv zeta.
  replace (m / 12) with 0 by zdiv.
  replace (m mod 12) with m by zdiv.
  now rewrite Z.add_0_r.
Qed.

Lemma MakeDay_inverse t :
  MakeDay (YearFromTime t) (MonthFromTime t) (DateFromTime t) = Day t.
Proof.
  rewrite MakeDay_in_year by apply MonthFromTime_bounds.
  pose proof (DayWithinYear_bounds t) as Hb.
  unfold DateFromTime, MonthFromTime, InLeapYear, DayWithinYear in *.
  cbv zeta.
  destruct (DaysInYear_cases (YearFromTime t)) as [E|E]; rewrite E in *; simpl (_ =? _);
    cbv iota; case_tests; simpl; lia.
Qed.

(** A calendar date: month [1..12], day within the month. *)
Definition valid_date (y m d : Z) : Prop :=
  1 <= m <= 12 /\ 1 <= d <= DaysInMonth y m.

Lemma MakeDay_in_its_year y m d :
  valid_date y m d ->
  DayFromYear y <= MakeDay y (m - 1) d < DayFromYear (y + 1).
Proof.
  intros [Hm Hd]. rewrite MakeDay_in_year by lia. rewrite DayFromYear_succ.
  unfold DaysInMonth in Hd.
  destruct (DaysInYear_cases y) as [E|E]; rewrite E in *; simpl (_ =? _) in *; cbv iota in *;
  assert (m = 1 \/ m = 2 \/ m = 3 \/ m = 4 \/ m = 5 \/ m = 6 \/ m = 7 \/ m = 8
          \/ m = 9 \/ m = 10 \/ m = 11 \/ m = 12) as Hc by lia;
  repeat (destruct Hc as [->|Hc]); try subst m; simpl in *; lia.
Qed.

Lemma Day_MakeDate day time :
  0 <= time < msPerDay -> Day (MakeDate day time) = day.
Proof. unfold Day, MakeDate, msPerDay. intros. zdiv. Qed.

Section Civil.
Variables (y m d time : Z).
Hypothesis Hdate : valid_date y m d.
Hypothesis Htime : 0 <= time < msPerDay.
Let t := MakeDate (MakeDay y (m - 1) d) time.

Lemma YearFromTime_MakeDate : YearFromTime t = y.
Proof.
  unfold YearFromTime, t. rewrite Day_MakeDate by exact Htime.
  apply YearFromDay_unique, MakeDay_in_its_year, Hdate.
Qed.

Lemma DayWithinYear_MakeDate :
  DayWithinYear t =
  DaysBeforeMonth (if DaysInYear y =? 366 then 1 else 0) (m - 1) + d - 1.
Proof.
  unfold DayWithinYear. rewrite YearFromTime_MakeDate.
  unfold t. rewrite Day_MakeDate by exact Htime.
  destruct Hdate. rewrite MakeDay_in_year by lia. lia.
Qed.

Lemma MonthFromTime_MakeDate : MonthFromTime t = m - 1.
Proof.
  unfold MonthFromTime, InLeapYear. rewrite DayWithinYear_MakeDate, YearFromTime_MakeDate.
  destruct Hdate as [Hm Hd]. unfold DaysInMonth in Hd. cbv zeta.
  destruct (DaysInYear_cases y) as [E|E]; rewrite E in *; simpl (_ =? _) in *; cbv iota in *;
  assert (m = 1 \/ m = 2 \/ m = 3 \/ m = 4 \/ m = 5 \/ m = 6 \/ m = 7 \/ m = 8
          \/ m = 9 \/ m = 10 \/ m = 11 \/ m = 12) as Hc by lia;
  repeat (destruct Hc as [->|Hc]); try subst m; simpl in *; case_tests; lia.
Qed.

Lemma DateFromTime_MakeDate : DateFromTime t = d.
Proof.
  unfold DateFromTime, InLeapYear.
  rewrite MonthFromTime_MakeDate, DayWithinYear_MakeDate, YearFromTime_MakeDate.
  destruct Hdate as [Hm Hd]. cbv zeta.
  destruct (DaysInYear_cases y) as [E|E]; rewrite E in *; simpl (_ =? _) in *; cbv iota in *;
  assert (m = 1 \/ m = 2 \/ m = 3 \/ m = 4 \/ m = 5 \/ m = 6 \/ m = 7 \/ m = 8
          \/ m = 9 \/ m = 10 \/ m = 11 \/ m = 12) as Hc by lia;
  repeat (destruct Hc as [->|Hc]); try subst m; simpl; lia.
Qed.
End Civil.

(** *** Digits *)

Lemma append_cons (c : ascii) (s t : string) :
  String c s +:+ t = String c (s +:+ t).
Proof. reflexivity. Qed.

Lemma append_empty (t : string) : "" +:+ t = t.
Proof. reflexivity. Qed.

Lemma digit_val_digit_char (k : Z) :
  0 <= k <= 9 -> digit_val (digit_char k) = Some k.
Proof.
  intros Hk.
  assert (k = 0 \/ k = 1 \/ k = 2 \/ k = 3 \/ k = 4 \/ k = 5 \/ k = 6
          \/ k = 7 \/ k = 8 \/ k = 9) as Hc by lia.
  repeat (destruct Hc as [->|Hc]); try subst k; reflexivity.
Qed.

Lemma mod10_digit (n : Z) : 0 <= n mod 10 <= 9.
Proof. zdiv. Qed.

Lemma digit_val_mod10 (n : Z) :
  digit_val (digit_char (n mod 10)) = Some (n mod 10).
Proof. apply digit_val_digit_char, mod10_digit. Qed.

Lemma is_digit_mod10 (n : Z) : is_digit (digit_char (n mod 10)) = true.
Proof. unfold is_digit. now rewrite digit_val_mod10. Qed.

Lemma digit_is_not_T (n : Z) : Ascii.eqb (digit_char (n mod 10)) "T" = false.
Proof.
  pose proof (mod10_digit n) as Hk.
  assert (n mod 10 = 0 \/ n mod 10 = 1 \/ n mod 10 = 2 \/ n mod 10 = 3
          \/ n mod 10 = 4 \/ n mod 10 = 5 \/ n mod 10 = 6 \/ n mod 10 = 7
          \/ n mod 10 = 8 \/ n mod 10 = 9) as Hc by lia.
  repeat (destruct Hc as [->|Hc]); try rewrite Hc; reflexivity.
Qed.

Lemma read_digits_pad2 (n : Z) (rest : string) :
  0 <= n <= 99 -> read_digits 2 0 (pad2 n +:+ rest) = Some (n, rest).
Proof.
  intros Hn. unfold pad2. rewrite !append_cons, append_empty. cbn [read_digits].
  rewrite !digit_val_mod10. do 2 f_equal. zdiv.
Qed.

Lemma read_digits_pad4 (n : Z) (rest : string) :
  0 <= n <= 9999 -> read_digits 4 0 (pad4 n +:+ rest) = Some (n, rest).
Proof.
  intros Hn. unfold pad4, pad3, pad2. rewrite !append_cons, append_empty. cbn [read_digits].
  rewrite !digit_val_mod10. do 2 f_equal. zdiv.
Qed.

Lemma read_digits_pad6 (n : Z) (rest : string) :
  0 <= n <= 999999 -> read_digits 6 0 (pad6 n +:+ rest) = Some (n, rest).
Proof.
  intros Hn. unfold pad6, pad4, pad3, pad2. rewrite !append_cons, append_empty. cbn [read_digits].
  rewrite !digit_val_mod10. do 2 f_equal. zdiv.
Qed.

Lemma parse_year_digit (c : ascii) (s : string) :
  is_digit c = true -> parse_year (String c s) = read_digits 4 0 (String c s).
Proof.
  destruct c as [[] [] [] [] [] [] [] []]; intros H;
    try discriminate H; reflexivity.
Qed.

(** *** The date part of [toISOString] *)

Lemma date_string_Day (t1 t2 : Z) :
  Day t1 = Day t2 -> date_string t1 = date_string t2.
Proof.
  intros H.
  unfold date_string, DateFromTime, MonthFromTime, InLeapYear, DayWithinYear,
    YearFromTime.
  now rewrite H.
Qed.

Lemma Day_of_midnight (t : Z) : Day (Day t * msPerDay) = Day t.
Proof. unfold Day, msPerDay. zdiv. Qed.

Lemma year_string_cons (y : Z) : exists c s, year_string y = String c s.
Proof.
  unfold year_string.
  destruct ((0 <=? y) && (y <=? 9999)); [unfold pad4; eauto|].
  destruct (y <? 0); rewrite append_cons; eauto.
Qed.

Lemma date_string_not_empty (t : Z) : String.eqb (date_string t) "" = false.
Proof.
  unfold date_string.
  destruct (year_string_cons (YearFromTime t)) as (c & s & ->).
  reflexivity.
Qed.

Lemma String_split_at_T (s rest : string) :
  has_no_T s = true ->
  exists tl, String_split "T" (s +:+ String "T" rest) = s :: tl.
Proof.
  induction s as [|c s IH]; intros H.
  - rewrite append_empty. cbn. eauto.
  - cbn [has_no_T] in H. apply andb_prop in H as [Hc Hs].
    apply negb_true_iff in Hc.
    destruct (IH Hs) as (tl & Htl).
    rewrite append_cons. cbn [String_split]. rewrite Hc, Htl. eauto.
Qed.

Lemma has_no_T_app (s1 s2 : string) :
  has_no_T s1 = true -> has_no_T s2 = true -> has_no_T (s1 +:+ s2) = true.
Proof.
  induction s1 as [|c s1 IH]; intros H1 H2.
  - now rewrite append_empty.
  - rewrite append_cons. cbn [has_no_T] in *.
    apply andb_prop in H1 as [Hc H1]. now rewrite Hc, IH.
Qed.

Lemma has_no_T_pad2 (n : Z) : has_no_T (pad2 n) = true.
Proof. unfold pad2. cbn [has_no_T]. now rewrite !digit_is_not_T. Qed.

Lemma has_no_T_pad4 (n : Z) : has_no_T (pad4 n) = true.
Proof. unfold pad4, pad3, pad2. cbn [has_no_T]. now rewrite !digit_is_not_T. Qed.

Lemma has_no_T_pad6 (n : Z) : has_no_T (pad6 n) = true.
Proof.
  unfold pad6, pad4, pad3, pad2. cbn [has_no_T]. now rewrite !digit_is_not_T.
Qed.

Lemma has_no_T_date_string (t : Z) : has_no_T (date_string t) = true.
Proof.
  unfold date_string, year_string.
  repeat apply has_no_T_app; try apply has_no_T_pad2; try reflexivity.
  destruct ((0 <=? _) && _); [apply has_no_T_pad4|].
  apply has_no_T_app; [destruct (_ <? 0); reflexivity|apply has_no_T_pad6].
Qed.

(** [toISOString(t).split("T")[0]] is the date part. *)
Lemma toISOString_date_part (t : Z) :
  exists tl, String_split "T" (toISOString t) = date_string t :: tl.
Proof.
  unfold toISOString.
  change ("T" +:+ time_string t +:+ "Z")
    with (String "T" (time_string t +:+ "Z")).
  apply String_split_at_T, has_no_T_date_string.
Qed.

Lemma date_string_is_date_only (t : Z) :
  0 <= YearFromTime t <= 9999 -> is_date_only (date_string t) = true.
Proof.
  intros Hy. unfold date_string, year_string.
  replace ((0 <=? YearFromTime t) && (YearFromTime t <=? 9999)) with true
    by (symmetry; apply andb_true_intro; split; lia).
  unfold pad4, pad3, pad2. rewrite !append_cons, !append_empty.
  cbn [is_date_only]. now rewrite !is_digit_mod10.
Qed.

(** *** Reading a date part back *)

Lemma YearFromDay_range (d : Z) :
  -100000000 <= d <= 100000000 -> -271821 <= YearFromDay d <= 275760.
Proof.
  intros Hd. pose proof (YearFromDay_spec d) as [Hlo Hhi].
  split.
  - destruct (Z_lt_le_dec (YearFromDay d) (-271821)) as [Hlt|]; [|assumption].
    assert (DayFromYear (YearFromDay d + 1) <= DayFromYear (-271821)).
    { destruct (Z.eq_dec (YearFromDay d + 1) (-271821)) as [->|]; [lia|].
      apply Z.lt_le_incl, DayFromYear_lt. lia. }
    assert (DayFromYear (-271821) = -100000109) by reflexivity. lia.
  - destruct (Z_lt_le_dec 275760 (YearFromDay d)) as [Hlt|]; [|lia].
    assert (DayFromYear 275761 <= DayFromYear (YearFromDay d)).
    { destruct (Z.eq_dec 275761 (YearFromDay d)) as [<-|]; [lia|].
      apply Z.lt_le_incl, DayFromYear_lt. lia. }
    assert (DayFromYear 275761 = 100000110) by reflexivity. lia.
Qed.

Lemma append_empty_r (s : string) : s +:+ "" = s.
Proof. induction s as [|c s IH]; [reflexivity|]. now rewrite append_cons, IH. Qed.

Lemma append_assoc (s1 s2 s3 : string) :
  (s1 +:+ s2) +:+ s3 = s1 +:+ (s2 +:+ s3).
Proof.
  induction s1 as [|c s1 IH]; [reflexivity|]. now rewrite !append_cons, IH.
Qed.

Lemma parse_year_year_string (y : Z) (rest : string) :
  -999999 <= y <= 999999 ->
  parse_year (year_string y +:+ rest) = Some (y, rest).
Proof.
  intros Hy. unfold year_string.
  destruct (Z.leb_spec 0 y) as [H0|H0]; cbn [andb].
  - destruct (Z.leb_spec y 9999) as [H1|H1].
    + assert (parse_year (pad4 y +:+ rest) = read_digits 4 0 (pad4 y +:+ rest))
        as ->.
      { unfold pad4. rewrite append_cons. apply parse_year_digit, is_digit_mod10. }
      apply read_digits_pad4. lia.
    + destruct (Z.ltb_spec y 0); [lia|].
      rewrite append_assoc.
      change ("+" +:+ pad6 (Z.abs y) +:+ rest)
        with (String "+" (pad6 (Z.abs y) +:+ rest)).
      unfold parse_year. cbv beta iota.
      rewrite read_digits_pad6 by lia. do 2 f_equal. lia.
  - destruct (Z.ltb_spec y 0); [|lia].
    rewrite append_assoc.
    change ("-" +:+ pad6 (Z.abs y) +:+ rest)
      with (String "-" (pad6 (Z.abs y) +:+ rest)).
    unfold parse_year. cbv beta iota.
    rewrite read_digits_pad6 by lia. cbn [mbind option_bind].
    destruct (Z.eqb_spec (Z.abs y) 0); [lia|]. do 2 f_equal. lia.
Qed.

Lemma Day_range (t : Z) :
  -8640000000000000 <= t <= 8640000000000000 ->
  -100000000 <= Day t <= 100000000.
Proof. unfold Day, msPerDay. intros. zdiv. Qed.

Lemma DaysInMonth_le_31 (y m : Z) : DaysInMonth y m <= 31.
Proof.
  unfold DaysInMonth.
  destruct m as [|[[[[]|[]|]|[[]|[]|]|]|[[[]|[]|]|[[]|[]|]|]|]|]; try lia;
    destruct (DaysInYear y =? 366); lia.
Qed.

(** The date part of a time value in range reads back as its calendar
    date, with no time part. *)
Lemma parse_fields_date_string (t : Z) :
  -8640000000000000 <= t <= 8640000000000000 ->
  parse_fields (date_string t)
  = Some (mkDate (YearFromTime t) (MonthFromTime t + 1) (DateFromTime t) None).
Proof.
  intros Ht.
  pose proof (YearFromDay_range (Day t) (Day_range t Ht)) as Hy.
  fold (YearFromTime t) in Hy.
  pose proof (MonthFromTime_bounds t) as Hm.
  pose proof (DateFromTime_bounds t) as Hd.
  pose proof (DaysInMonth_le_31 (YearFromTime t) (MonthFromTime t + 1)).
  unfold parse_fields, date_string.
  rewrite parse_year_year_string by lia. cbn [mbind option_bind].
  change ("-" +:+ pad2 (MonthFromTime t + 1) +:+ "-" +:+ pad2 (DateFromTime t))
    with (String "-" (pad2 (MonthFromTime t + 1)
                      +:+ String "-" (pad2 (DateFromTime t)))).
  unfold parse_month. cbv beta iota.
  rewrite read_digits_pad2 by lia. cbn [mbind option_bind].
  unfold parse_day. cbv beta iota.
  rewrite <- (append_empty_r (pad2 (DateFromTime t))).
  rewrite read_digits_pad2 by lia. reflexivity.
Qed.

Lemma valid_fields_of_time (t : Z) :
  valid_fields
    (mkDate (YearFromTime t) (MonthFromTime t + 1) (DateFromTime t) None)
  = true.
Proof.
  pose proof (MonthFromTime_bounds t) as Hm.
  pose proof (DateFromTime_bounds t) as Hd.
  unfold valid_fields. cbn [df_year df_month df_day df_time].
  repeat (apply andb_true_intro; split); try apply Z.leb_le; try lia.

Qed.

Lemma fields_time_of_time (t : Z) :
  fields_time
    (mkDate (YearFromTime t) (MonthFromTime t + 1) (DateFromTime t) None)
  = Day t * msPerDay.
Proof.
  unfold fields_time. cbn [df_year df_month df_day df_time].
  replace (MonthFromTime t + 1 - 1) with (MonthFromTime t) by lia.
  rewrite MakeDay_inverse. unfold MakeDate. lia.
Qed.

Lemma TimeClip_of_midnight (t : Z) :
  -8640000000000000 <= t <= 8640000000000000 ->
  TimeClip (Day t * msPerDay) = Some (Day t * msPerDay).
Proof.
  intros Ht. unfold TimeClip.
  destruct (Z.leb_spec (Z.abs (Day t * msPerDay)) 8640000000000000);
    [reflexivity|].
  unfold Day, msPerDay in *. zdiv.
Qed.

Lemma TimeClip_range (t t' : Z) :
  TimeClip t = Some t' ->
  t' = t /\ -8640000000000000 <= t <= 8640000000000000.
Proof.
  unfold TimeClip.
  destruct (Z.leb_spec (Z.abs t) 8640000000000000); [|discriminate].
  intros [= <-]. split; [reflexivity|lia].
Qed.

(** *** A UTC timestamp and its date part *)

Lemma digit_char_digit_val (c : ascii) (k : Z) :
  digit_val c = Some k -> digit_char k = c /\ 0 <= k <= 9.
Proof.
  destruct c as [[] [] [] [] [] [] [] []]; intros H; vm_compute in H;
    try discriminate H; injection H as <-; split; try reflexivity; lia.
Qed.

Lemma is_digit_val (c : ascii) :
  is_digit c = true -> exists k, digit_val c = Some k.
Proof. unfold is_digit. destruct (digit_val c); [eauto|discriminate]. Qed.

Lemma read_digits_bounds (n : nat) (acc : Z) (s : string) (v : Z) (r : string) :
  read_digits n acc s = Some (v, r) ->
  10 ^ Z.of_nat n * acc <= v <= 10 ^ Z.of_nat n * acc + 10 ^ Z.of_nat n - 1.
Proof.
  revert acc s. induction n as [|n IH]; intros acc s.
  - cbn [read_digits]. intros [= <- <-]. change (10 ^ Z.of_nat 0) with 1. lia.
  - cbn [read_digits]. destruct s as [|c s]; [discriminate|].
    destruct (digit_val c) as [d|] eqn:Hd; [|discriminate].
    intros H. apply IH in H.
    apply digit_char_digit_val in Hd as [_ Hd].
    rewrite Nat2Z.inj_succ, Z.pow_succ_r by lia.
    assert (0 < 10 ^ Z.of_nat n) by (apply Z.pow_pos_nonneg; lia).
    nia.
Qed.

Lemma parse_seconds_bounds (s : string) (sec ms : Z) (r : string) :
  parse_seconds s = Some (sec, ms, r) -> 0 <= sec /\ 0 <= ms <= 999.
Proof.
  unfold parse_seconds.
  destruct s as [|c s]; [intros [= <- <- <-]; lia|].
  destruct (Ascii.eqb c ":") eqn:Hc.
  - apply Ascii.eqb_eq in Hc as ->. cbv beta iota.
    intros ([sec' s1] & Hsec & H)%bind_Some.
    apply bind_Some in H as ([ms' s2] & Hms & [= <- <- <-]).
    apply read_digits_bounds in Hsec. change (10 ^ Z.of_nat 2) with 100 in Hsec.
    split; [lia|].
    unfold parse_fraction in Hms.
    destruct s1 as [|c1 s1]; [injection Hms as <- <-; lia|].
    destruct (Ascii.eqb c1 ".") eqn:Hc1.
    + apply Ascii.eqb_eq in Hc1 as ->. cbv beta iota in Hms.
      apply read_digits_bounds in Hms.
      change (10 ^ Z.of_nat 3) with 1000 in Hms. lia.
    + assert (Hms' : Some (0, String c1 s1) = Some (ms', s2)).
      { rewrite <- Hms. clear -Hc1.
        destruct c1 as [[] [] [] [] [] [] [] []]; try reflexivity;
          discriminate Hc1. }
      injection Hms' as <- <-. lia.
  - intros H.
    assert (H' : Some (0, 0, String c s) = Some (sec, ms, r)).
    { rewrite <- H. clear -Hc.
      destruct c as [[] [] [] [] [] [] [] []]; try reflexivity;
        discriminate Hc. }
    injection H' as <- <- <-. lia.
Qed.

Lemma parse_time_bounds (s : string) (tf : TimeFields) :
  parse_time s = Some tf ->
  0 <= tf_hour tf /\ 0 <= tf_minute tf /\ 0 <= tf_second tf
  /\ 0 <= tf_ms tf <= 999.
Proof.
  unfold parse_time.
  intros ([h s1] & Hh & H)%bind_Some.
  apply bind_Some in H as (s2 & _ & H).
  apply bind_Some in H as ([m s3] & Hm & H).
  apply bind_Some in H as ([[sec ms] s4] & Hs & H).
  apply bind_Some in H as (off & _ & [= <-]).
  apply read_digits_bounds in Hh, Hm.
  change (10 ^ Z.of_nat 2) with 100 in Hh, Hm.
  apply parse_seconds_bounds in Hs.
  cbn [tf_hour tf_minute tf_second tf_ms]. lia.
Qed.

(** A date-only string and the fields it denotes. *)
Lemma date_only_fields (d : string) :
  is_date_only d = true ->
  exists y m day,
    (forall rest, parse_year (d +:+ rest)
                  = Some (y, "-" +:+ pad2 m +:+ "-" +:+ pad2 day +:+ rest))
    /\ d = pad4 y +:+ "-" +:+ pad2 m +:+ "-" +:+ pad2 day
    /\ 0 <= y <= 9999 /\ 0 <= m <= 99 /\ 0 <= day <= 99.
Proof.
  destruct d as [|y1 [|y2 [|y3 [|y4 [|h1 [|m1 [|m2 [|h2 [|d1 [|d2 [|? ?]]]]]]]]]]];
    try discriminate.
  cbn [is_date_only]. intros H.
  apply andb_prop in H as [H Hd2]. apply andb_prop in H as [H Hd1].
  apply andb_prop in H as [H Hh2]. apply andb_prop in H as [H Hm2].
  apply andb_prop in H as [H Hm1]. apply andb_prop in H as [H Hh1].
  apply andb_prop in H as [H Hy4]. apply andb_prop in H as [H Hy3].
  apply andb_prop in H as [Hy1 Hy2].
  apply Ascii.eqb_eq in Hh1, Hh2. subst h1 h2.
  destruct (is_digit_val y1 Hy1) as (a1 & Ha1).
  destruct (is_digit_val y2 Hy2) as (a2 & Ha2).
  destruct (is_digit_val y3 Hy3) as (a3 & Ha3).
  destruct (is_digit_val y4 Hy4) as (a4 & Ha4).
  destruct (is_digit_val m1 Hm1) as (b1 & Hb1).
  destruct (is_digit_val m2 Hm2) as (b2 & Hb2).
  destruct (is_digit_val d1 Hd1) as (e1 & He1).
  destruct (is_digit_val d2 Hd2) as (e2 & He2).
  destruct (digit_char_digit_val y1 a1 Ha1) as [<- ?].
  destruct (digit_char_digit_val y2 a2 Ha2) as [<- ?].
  destruct (digit_char_digit_val y3 a3 Ha3) as [<- ?].
  destruct (digit_char_digit_val y4 a4 Ha4) as [<- ?].
  destruct (digit_char_digit_val m1 b1 Hb1) as [<- ?].
  destruct (digit_char_digit_val m2 b2 Hb2) as [<- ?].
  destruct (digit_char_digit_val d1 e1 He1) as [<- ?].
  destruct (digit_char_digit_val d2 e2 He2) as [<- ?].
  set (y := 1000 * a1 + 100 * a2 + 10 * a3 + a4).
  set (m := 10 * b1 + b2).
  set (day := 10 * e1 + e2).
  exists y, m, day.
  assert (Hpad4 :
    pad4 y = String (digit_char a1) (String (digit_char a2)
               (String (digit_char a3) (String (digit_char a4) "")))).
  { subst y. unfold pad4, pad3, pad2. repeat f_equal; zdiv. }
  assert (Hpad2 : forall a b, 0 <= a <= 9 -> 0 <= b <= 9 ->
    pad2 (10 * a + b) = String (digit_char a) (String (digit_char b) "")).
  { intros a b Ha Hb. unfold pad2. repeat f_equal; zdiv. }
  assert (Hd :
    String (digit_char a1) (String (digit_char a2) (String (digit_char a3)
      (String (digit_char a4) (String "-" (String (digit_char b1)
        (String (digit_char b2) (String "-" (String (digit_char e1)
          (String (digit_char e2) "")))))))))
    = pad4 y +:+ "-" +:+ pad2 m +:+ "-" +:+ pad2 day).
  { subst m day. rewrite Hpad4, !Hpad2 by assumption. reflexivity. }
  split; [|split; [exact Hd|subst y m day; lia]].
  intros rest. rewrite Hd.
  rewrite !append_assoc.
  assert (parse_year (pad4 y +:+ "-" +:+ pad2 m +:+ "-" +:+ pad2 day +:+ rest)
          = read_digits 4 0
              (pad4 y +:+ "-" +:+ pad2 m +:+ "-" +:+ pad2 day +:+ rest))
    as ->.
  { unfold pad4. rewrite !append_cons.
    apply parse_year_digit, is_digit_mod10. }
  apply read_digits_pad4. subst y. lia.
Qed.

Lemma timestamp_fields (d rest : string) (tf : TimeFields) :
  is_date_only d = true ->
  parse_time rest = Some tf ->
  exists y m day,
    parse_fields d = Some (mkDate y m day None)
    /\ parse_fields (d +:+ String "T" rest) = Some (mkDate y m day (Some tf))
    /\ d = pad4 y +:+ "-" +:+ pad2 m +:+ "-" +:+ pad2 day
    /\ 0 <= y <= 9999.
Proof.
  intros Hd Htime.
  destruct (date_only_fields d Hd) as (y & m & day & Hyear & Hshape & Hy & Hm & Hday).
  exists y, m, day.
  assert (Hrest : forall tail,
    parse_month y ("-" +:+ pad2 m +:+ "-" +:+ pad2 day +:+ tail)
    = parse_day y m (String "-" (pad2 day +:+ tail))).
  { intros tail.
    change ("-" +:+ pad2 m +:+ "-" +:+ pad2 day +:+ tail)
      with (String "-" (pad2 m +:+ String "-" (pad2 day +:+ tail))).
    unfold parse_month. cbv beta iota.
    rewrite read_digits_pad2 by lia. reflexivity. }
  split; [|split; [|split; assumption]].
  - rewrite <- (append_empty_r d) at 1. unfold parse_fields.
    rewrite Hyear. cbn [mbind option_bind]. rewrite Hrest.
    unfold parse_day. cbv beta iota. rewrite read_digits_pad2 by lia.
    reflexivity.
  - unfold parse_fields. rewrite Hyear. cbn [mbind option_bind].
    rewrite Hrest. unfold parse_day. cbv beta iota.
    rewrite read_digits_pad2 by lia. cbn [mbind option_bind].
    cbv beta iota. rewrite Htime. reflexivity.
Qed.

Lemma DayFromYear_four_digits (y : Z) :
  0 <= y <= 9999 -> -719528 <= DayFromYear y /\ DayFromYear (y + 1) <= 2932897.
Proof. unfold DayFromYear. intros. zdiv. Qed.

(** The calendar date of a UTC timestamp of a four-digit year is the date
    the timestamp is written with. *)
Lemma utc_timestamp_date (y m day : Z) (tf : TimeFields) :
  0 <= y <= 9999 ->
  valid_fields (mkDate y m day (Some tf)) = true ->
  0 <= tf_hour tf <= 23 ->
  0 <= tf_minute tf /\ 0 <= tf_second tf /\ 0 <= tf_ms tf <= 999 ->
  let t := fields_time (mkDate y m day (Some tf)) in
  TimeClip t = Some t
  /\ date_string t = pad4 y +:+ "-" +:+ pad2 m +:+ "-" +:+ pad2 day.
Proof.
  intros Hy Hvalid Hh (Hmin & Hsec & Hms) t.
  unfold valid_fields in Hvalid. cbn [df_year df_month df_day df_time] in Hvalid.
  repeat (apply andb_prop in Hvalid as [Hvalid ?]).
  repeat match goal with
  | H : (_ <=? _) = true |- _ => apply Z.leb_le in H
  end.
  assert (Hdate : valid_date y m day) by (unfold valid_date; lia).
  assert (Htod : 0 <= MakeTime (tf_hour tf) (tf_minute tf) (tf_second tf)
                        (tf_ms tf) < msPerDay).
  { unfold valid_time in *.
    match goal with
    | H : _ || _ = true |- _ => apply orb_prop in H as [H|H]
    end.
    - repeat (apply andb_prop in H as [H ?]).
      repeat match goal with
      | H : (_ <=? _) = true |- _ => apply Z.leb_le in H
      end.
      unfold MakeTime, msPerDay, msPerHour, msPerMinute, msPerSecond. lia.
    - repeat (apply andb_prop in H as [H ?]).
      apply Z.eqb_eq in H. lia. }
  set (tod := MakeTime (tf_hour tf) (tf_minute tf) (tf_second tf) (tf_ms tf))
    in *.
  assert (Ht : t = MakeDate (MakeDay y (m - 1) day) tod) by reflexivity.
  pose proof (MakeDay_in_its_year y m day Hdate) as Hday.
  pose proof (DayFromYear_four_digits y Hy) as Hrange.
  split.
  - unfold TimeClip.
    destruct (Z.leb_spec (Z.abs t) 8640000000000000); [reflexivity|].
    rewrite Ht in *. unfold MakeDate, msPerDay in *. lia.
  - unfold date_string. rewrite Ht.
    rewrite (YearFromTime_MakeDate y m day tod Hdate Htod).
    rewrite (MonthFromTime_MakeDate y m day tod Hdate Htod).
    rewrite (DateFromTime_MakeDate y m day tod Hdate Htod).
    unfold year_string.
    replace ((0 <=? y) && (y <=? 9999)) with true
      by (symmetry; apply andb_true_intro; split; lia).
    now replace (m - 1 + 1) with m by lia.
Qed.

Lemma is_utc_time_fields (s : string) :
  is_utc_time s = true ->
  exists tf,
    parse_time s = Some tf /\ valid_time tf = true /\ tf_hour tf <= 23
    /\ tf_offset tf = Some 0.
Proof.
  unfold is_utc_time. destruct (parse_time s) as [tf|]; [|discriminate].
  intros H. apply andb_prop in H as [H Hoff].
  apply andb_prop in H as [Hvalid Hh]. apply Z.leb_le in Hh.
  exists tf. repeat split; try assumption.
  destruct (tf_offset tf) as [[| |]|]; try discriminate. reflexivity.
Qed.

End ESDateFacts.

(** ** How the engine runs *)

Section EngineFacts.
Context {rt : JSRuntime}.

Lemma Array_join_slash (vs : list value) :
  Array_join "/" vs = slash_joined (List.map join_element vs).
Proof.
  unfold Array_join, join_strings.
  induction vs as [|v [|w vs] IH]; simpl in *; try reflexivity.
  now rewrite IH.
Qed.

Lemma requests_app (tr1 tr2 : list (Event * State)) :
  requests (tr1 ++ tr2) = requests tr1 ++ requests tr2.
Proof. unfold requests. now rewrite List.map_app, List.filter_app. Qed.

Lemma new_events_app (c : Config) (s : State) (evs : list (Event * State)) :
  new_events c (mkConfig s (trace c ++ evs)) = evs.
Proof. unfold new_events. simpl. now rewrite drop_app_length. Qed.

Lemma history_app (s : State) (tr : list (Event * State)) ev s' :
  history (mkConfig s (tr ++ [(ev, s')])) = List.map fst tr ++ [ev].
Proof. unfold history. simpl. now rewrite List.map_app. Qed.

(** The transport adapter issues one request; it returns the parsed body, or
    it logs the error and throws it. *)
Lemma apiCall_run (W : World) (c : Config) (ep method : string)
    (data : option (gmap string value)) :
  let url := API_BASE_URL +:+ ep in
  let sent := trace c ++ [(EvFetch method url data, store c)] in
  apiCall ep method data W c =
  match api_completion (fetch_answer W (history c) method url data) with
  | inr result => (Returned result, mkConfig (store c) sent)
  | inl e =>
      (Threw e,
       mkConfig (store c)
         (sent ++ [(EvConsoleError (log_prefix method url) e, store c)]))
  end.
Proof.
  intros url sent.
  unfold apiCall, try_catch, fetch, Response_json, console_error, perform,
    api_completion, log_prefix.
  fold url.
  unfold mbind, Async_bind, bind.
  destruct (fetch_answer W (history c) method url data) as [e|response]; simpl.
  - reflexivity.
  - destruct (json response) as [e|result]; simpl; [reflexivity|].
    destruct (ok response); simpl; [reflexivity|].
    destruct (GetV result "error") as [e|err]; simpl; reflexivity.
Qed.

Ltac run_async :=
  unfold mbind, Async_bind, bind, try_catch, try_finally, detached, lift,
    throw, ret, alert, perform, window_confirm,
    setEntities, setFormData, setLoading, setError, setIsEditing, setEditId,
    setEditIdentifier, setState; simpl.

Lemma fetchEntities_run (P : Props) (W : World) (c : Config) :
  let s1 := with_error "" (with_loading true (store c)) in
  let url := API_BASE_URL +:+ endpoint P in
  let sent := trace c ++ [(EvFetch "GET" url None, s1)] in
  fetchEntities P W c =
  (Returned tt,
   match api_completion (fetch_answer W (history c) "GET" url None) with
   | inr data => mkConfig (with_loading false (with_entities data s1)) sent
   | inl e =>
       mkConfig
         (with_loading false
            (with_error
               ("Failed to fetch " +:+ entityName P +:+ "s: " +:+ err_message e)
               s1))
         (sent ++ [(EvConsoleError (log_prefix "GET" url) e, s1)])
   end).
Proof.
  intros s1 url sent. unfold fetchEntities. run_async.
  rewrite apiCall_run. simpl. fold s1 url.
  change (history {| store := s1; trace := trace c |}) with (history c).
  destruct (api_completion (fetch_answer W (history c) "GET" url None));
    reflexivity.
Qed.

Lemma handleSubmit_run (P : Props) (W : World) (c : Config) (r : State) :
  let s1 := with_error "" (store c) in
  let method := submit_method r in
  let url := API_BASE_URL +:+ submit_endpoint P r in
  let body := Some (formData r) in
  let sent :=
    trace c ++ [(EvPreventDefault, store c); (EvFetch method url body, s1)] in
  handleSubmit P r W c =
  (Returned tt,
   match api_completion
           (fetch_answer W (history c ++ [EvPreventDefault]) method url body)
   with
   | inr _ =>
       snd (fetchEntities P W
              (mkConfig (form_reset s1)
                 (sent ++ [(EvAlert (submit_alert P r), s1)])))
   | inl e =>
       mkConfig
         (with_error
            ("Failed to save " +:+ entityName P +:+ ": " +:+ err_message e) s1)
         (sent ++ [(EvConsoleError (log_prefix method url) e, s1)])
   end).
Proof.
  intros s1 method url body sent. subst method url body sent.
  unfold handleSubmit, submit_method, submit_endpoint, submit_alert.
  run_async.
  destruct (isEditing r); run_async; rewrite apiCall_run; simpl;
    rewrite history_app; fold (history c); fold s1;
    match goal with
    | |- context [api_completion ?a] => destruct (api_completion a)
    end; simpl; rewrite <- ?List.app_assoc; reflexivity.
Qed.

Lemma handleDelete_run (P : Props) (W : World) (c : Config)
    (entity : gmap string value) :
  let s1 := with_error "" (store c) in
  let url := API_BASE_URL +:+ delete_endpoint P entity in
  let asked := trace c ++ [(EvConfirm (delete_prompt P), store c)] in
  let sent := asked ++ [(EvFetch "DELETE" url None, s1)] in
  handleDelete P entity W c =
  (Returned tt,
   if confirm_answer W (history c) (delete_prompt P) then
     match api_completion
             (fetch_answer W (history c ++ [EvConfirm (delete_prompt P)])
                "DELETE" url None)
     with
     | inr _ =>
         snd (fetchEntities P W
                (mkConfig s1
                   (sent ++
                    [(EvAlert (entityName P +:+ " deleted successfully!"), s1)])))
     | inl e =>
         mkConfig
           (with_error
              ("Failed to delete " +:+ entityName P +:+ ": " +:+ err_message e)
              s1)
           (sent ++ [(EvConsoleError (log_prefix "DELETE" url) e, s1)])
     end
   else mkConfig (store c) asked).
Proof.
  intros s1 url asked sent. subst url asked sent.
  unfold handleDelete, delete_endpoint, delete_prompt. run_async.
  destruct (confirm_answer W (history c) _); [|reflexivity].
  run_async. rewrite apiCall_run. simpl.
  rewrite history_app. fold (history c). fold s1.
  match goal with
  | |- context [api_completion ?a] => destruct (api_completion a)
  end; simpl; rewrite <- ?List.app_assoc; reflexivity.
Qed.

Lemma handleCancelEdit_run (W : World) (c : Config) :
  handleCancelEdit W c =
  (Returned tt, mkConfig (with_error "" (form_reset (store c))) (trace c)).
Proof. reflexivity. Qed.

Lemma handleInputChange_run (W : World) (c : Config) n v t ch :
  handleInputChange n v t ch W c =
  (Returned tt,
   mkConfig
     (with_formData
        (<[n := if String.eqb t "checkbox" then VBool ch else VStr v]>
           (formData (store c))) (store c))
     (trace c)).
Proof. reflexivity. Qed.

Lemma new_events_two (c : Config) (s : State) (evs1 evs2 : list (Event * State)) :
  new_events c (mkConfig s ((trace c ++ evs1) ++ evs2)) = evs1 ++ evs2.
Proof. rewrite <- List.app_assoc. apply new_events_app. Qed.

Lemma new_events_three (c : Config) (s : State)
    (evs1 evs2 evs3 : list (Event * State)) :
  new_events c (mkConfig s (((trace c ++ evs1) ++ evs2) ++ evs3))
  = evs1 ++ evs2 ++ evs3.
Proof. rewrite <- !List.app_assoc. apply new_events_app. Qed.

Lemma trace_regroup {A : Type} (l : list A) (a b d : A) :
  (l ++ [a; b]) ++ [d] = (l ++ [a]) ++ [b; d].
Proof. rewrite <- !List.app_assoc. reflexivity. Qed.

Lemma new_events_same (c : Config) (s : State) :
  new_events c (mkConfig s (trace c)) = [].
Proof. unfold new_events. simpl. apply drop_all. Qed.

Ltac new_events_norm :=
  rewrite <- ?List.app_assoc; rewrite new_events_app; simpl.

Lemma apiCall_threw (W : World) (c : Config) ep method data e :
  fst (apiCall ep method data W c) = Threw e ->
  api_completion
    (fetch_answer W (history c) method (API_BASE_URL +:+ ep) data) = inl e.
Proof.
  rewrite apiCall_run.
  destruct (api_completion _); simpl; congruence.
Qed.

Lemma apiCall_returned (W : World) (c : Config) ep method data v :
  fst (apiCall ep method data W c) = Returned v ->
  api_completion
    (fetch_answer W (history c) method (API_BASE_URL +:+ ep) data) = inr v.
Proof.
  rewrite apiCall_run.
  destruct (api_completion _); simpl; congruence.
Qed.

Lemma handleEdit_run (P : Props) (W : World) (c : Config)
    (entity : gmap string value) :
  handleEdit P entity W c =
  match forEach_field (formFields P) entity with
  | inl e => (Threw e, c)
  | inr newFormData =>
      let s' := edit_state P entity newFormData (store c) in
      (Returned tt, mkConfig s' (trace c ++ [(EvScrollTo, s')]))
  end.
Proof.
  unfold handleEdit. run_async.
  destruct (forEach_field (formFields P) entity); reflexivity.
Qed.

Lemma capture_lookup (entity : gmap string value) (fields : list string)
    (acc : gmap string value) (f : string) :
  fold_left (fun identifier field => <[field := get entity field]> identifier)
    fields acc !! f
  = if decide (f ∈ fields) then Some (get entity f) else acc !! f.
Proof.
  revert acc. induction fields as [|g fields IH]; intros acc; simpl.
  - destruct (decide (f ∈ [])) as [Hin|]; [|reflexivity].
    now apply not_elem_of_nil in Hin.
  - rewrite IH.
    destruct (decide (f ∈ fields)) as [Hin|Hnin].
    + rewrite decide_True; [reflexivity|]. now apply elem_of_cons; right.
    + destruct (decide (f = g)) as [->|Hne].
      * rewrite lookup_insert_eq.
        rewrite decide_True; [reflexivity|]. now apply elem_of_cons; left.
      * rewrite lookup_insert_ne by congruence.
        rewrite decide_False; [reflexivity|].
        intros [?|?]%elem_of_cons; congruence.
Qed.

(** The captured identifier holds, for each identifier field, the value the
    record had for it. *)
Lemma capture_identifier_get (P : Props) (entity : gmap string value) (f : string) :
  f ∈ uniqueIdentifierFields P ->
  get (capture_identifier P entity) f = get entity f.
Proof.
  intros Hin. unfold capture_identifier, get at 1.
  rewrite capture_lookup, decide_True by exact Hin. reflexivity.
Qed.

Lemma captured_path (P : Props) (entity : gmap string value) :
  Array_join "/"
    (List.map (fun field => get (capture_identifier P entity) field)
       (uniqueIdentifierFields P))
  = identifier_path P entity.
Proof.
  rewrite Array_join_slash. unfold identifier_path. f_equal.
  rewrite List.map_map. apply List.map_ext_in. intros f Hf.
  rewrite capture_identifier_get; [reflexivity|].
  now apply list_elem_of_In.
Qed.

Lemma record_path (P : Props) (entity : gmap string value) :
  Array_join "/"
    (List.map (fun field => get entity field) (uniqueIdentifierFields P))
  = identifier_path P entity.
Proof.
  rewrite Array_join_slash. unfold identifier_path. now rewrite List.map_map.
Qed.

(** [fetchEntities] touches the records, the loading flag and the error, and
    nothing of the form. *)
Lemma fetchEntities_keeps_form (P : Props) (W : World) (c : Config) :
  let c' := snd (fetchEntities P W c) in
  formData (store c') = formData (store c)
  /\ isEditing (store c') = isEditing (store c)
  /\ editId (store c') = editId (store c)
  /\ editIdentifier (store c') = editIdentifier (store c).
Proof.
  cbv zeta. rewrite fetchEntities_run. cbn [snd].
  destruct (api_completion _); repeat split.
Qed.



(** A submit in Edit mode sends one update, to the path of the captured
    identifier and with the draft as body; a list request follows when the
    update succeeds. *)
Lemma edit_mode_submit_requests (P : Props) (W : World) (c : Config)
    (entity : gmap string value) :
  isEditing (store c) = true ->
  editIdentifier (store c) = capture_identifier P entity ->
  exists rest,
    requests (new_events c (snd (handleSubmit P (store c) W c)))
    = EvFetch "PUT"
        (API_BASE_URL +:+ endpoint P +:+ "/" +:+ identifier_path P entity)
        (Some (formData (store c))) :: rest
    /\ (rest = [] \/ rest = [EvFetch "GET" (API_BASE_URL +:+ endpoint P) None]).
Proof.
  intros Hmode Hid.
  rewrite handleSubmit_run. cbv zeta. cbn [snd].
  unfold submit_method, submit_endpoint. rewrite Hmode, Hid, captured_path.
  destruct (api_completion _).
  - exists []. split; [|now left]. new_events_norm. reflexivity.
  - rewrite fetchEntities_run. cbn [snd store trace].
    exists [EvFetch "GET" (API_BASE_URL +:+ endpoint P) None].
    split; [|now right].
    destruct (api_completion _); new_events_norm; reflexivity.
Qed.

(** A confirmed delete sends one delete, to the path of the record's
    identifier; a list request follows when the delete succeeds. *)
Lemma confirmed_delete_requests (P : Props) (W : World) (c : Config)
    (entity : gmap string value) :
  confirm_answer W (history c) (delete_prompt P) = true ->
  exists rest,
    requests (new_events c (snd (handleDelete P entity W c)))
    = EvFetch "DELETE"
        (API_BASE_URL +:+ endpoint P +:+ "/" +:+ identifier_path P entity)
        None :: rest
    /\ (rest = [] \/ rest = [EvFetch "GET" (API_BASE_URL +:+ endpoint P) None]).
Proof.
  intros Hyes.
  rewrite handleDelete_run. cbv zeta. cbn [snd]. rewrite Hyes.
  unfold delete_endpoint. rewrite record_path.
  destruct (api_completion _).
  - exists []. split; [|now left]. new_events_norm. reflexivity.
  - rewrite fetchEntities_run. cbn [snd store trace].
    exists [EvFetch "GET" (API_BASE_URL +:+ endpoint P) None].
    split; [|now right].
    destruct (api_completion _); new_events_norm; reflexivity.
Qed.

Lemma input_changes_touch_the_draft_only (P : Props) (W : World)
    (inputs : list Action) (c : Config) :
  forallb is_InputChange inputs = true ->
  let c' := run_actions P inputs W c in
  isEditing (store c') = isEditing (store c)
  /\ editIdentifier (store c') = editIdentifier (store c)
  /\ trace c' = trace c.
Proof.
  revert c. induction inputs as [|a inputs IH]; intros c Hin; simpl.
  - repeat split.
  - simpl in Hin. apply andb_prop in Hin as [Ha Hin].
    destruct a; try discriminate Ha.
    unfold dispatch. rewrite handleInputChange_run. cbn [snd].
    destruct (IH (mkConfig
                    (with_formData
                       (<[name0 := if String.eqb type0 "checkbox"
                                   then VBool checked else VStr value0]>
                          (formData (store c))) (store c)) (trace c)) Hin)
      as (H1 & H2 & H3).
    rewrite H1, H2, H3. repeat split.
Qed.

Lemma after_edit (P : Props) (W : World) (c : Config)
    (entity : gmap string value) :
  fst (handleEdit P entity W c) = Returned tt ->
  let c1 := snd (dispatch P (Edit entity) W c) in
  isEditing (store c1) = true
  /\ editIdentifier (store c1) = capture_identifier P entity
  /\ forEach_field (formFields P) entity = inr (formData (store c1)).
Proof.
  unfold dispatch. rewrite handleEdit_run.
  destruct (forEach_field (formFields P) entity) as [e|newFormData];
    [discriminate|].
  intros _. repeat split.
Qed.

(** Apart from the date fields it rewrites, the loop of [handleEdit] leaves
    the copy of the record as it is, and it adds and removes no field. *)
Lemma normalize_date_field_frame (m m' : gmap string value) (f : FieldSpec) :
  normalize_date_field m f = inr m' ->
  (forall k, is_Some (m' !! k) <-> is_Some (m !! k))
  /\ (forall k, k <> name f \/ String.eqb (type f) "date" = false ->
                m' !! k = m !! k).
Proof.
  unfold normalize_date_field.
  destruct (String.eqb (type f) "date") eqn:Hty; simpl.
  - destruct (ToBoolean (get m (name f))) eqn:Htruthy.
    + destruct (Date_toISOString _) as [e|iso]; [discriminate|].
      intros [= <-]. split.
      * intros k. destruct (decide (k = name f)) as [->|Hne].
        -- rewrite lookup_insert_eq. unfold get in Htruthy.
           destruct (m !! name f); [|discriminate Htruthy].
           split; intros _; eauto.
        -- now rewrite lookup_insert_ne by congruence.
      * intros k [Hne|Hne]; [|discriminate].
        now rewrite lookup_insert_ne by congruence.
    + intros [= <-]. split; [reflexivity|]. reflexivity.
  - intros [= <-]. split; reflexivity.
Qed.


(** Outside a call of [fetchEntities] the loading flag stays down. *)
Lemma dispatch_keeps_loading_false (P : Props) (W : World) (c : Config)
    (a : Action) :
  loading (store c) = false ->
  loading (store (snd (dispatch P a W c))) = false.
Proof.
  intros Hidle.
  destruct a as [|n v t ch| |e|e|]; unfold dispatch.
  - rewrite fetchEntities_run. cbn [snd].
    destruct (api_completion _); reflexivity.
  - rewrite handleInputChange_run. exact Hidle.
  - rewrite handleSubmit_run. cbv zeta. cbn [snd].
    destruct (api_completion _); [exact Hidle|].
    rewrite fetchEntities_run. cbn [snd].
    destruct (api_completion _); reflexivity.
  - rewrite handleEdit_run.
    destruct (forEach_field _ _); exact Hidle.
  - rewrite handleDelete_run. cbv zeta. cbn [snd].
    destruct (confirm_answer _ _ _); [|exact Hidle].
    destruct (api_completion _); [exact Hidle|].
    rewrite fetchEntities_run. cbn [snd].
    destruct (api_completion _); reflexivity.
  - rewrite handleCancelEdit_run. exact Hidle.
Qed.

(** ** Date normalization in [handleEdit] *)

Lemma new_Date_range (v : value) (t : Z) :
  new_Date v = Some t -> -8640000000000000 <= t <= 8640000000000000.
Proof.
  unfold new_Date. intros (tv & _ & Hclip)%bind_Some.
  apply ESDateFacts.TimeClip_range in Hclip as [-> H]. exact H.
Qed.

(** A date part is itself a date [new Date] accepts: midnight UTC of the
    same day. *)
Lemma new_Date_date_string (t : Z) :
  -8640000000000000 <= t <= 8640000000000000 ->
  new_Date (VStr (ESDate.date_string t))
  = Some (ESDate.Day t * ESDate.msPerDay).
Proof.
  intros Ht. unfold new_Date, Date_parse.
  rewrite ESDateFacts.parse_fields_date_string by exact Ht.
  rewrite ESDateFacts.valid_fields_of_time.
  cbn [ESDate.df_time]. rewrite ESDateFacts.fields_time_of_time.
  cbn [mbind option_bind]. now apply ESDateFacts.TimeClip_of_midnight.
Qed.

Lemma date_only_of_time (t : Z) :
  first_element (ESDate.String_split "T" (ESDate.toISOString t))
  = VStr (ESDate.date_string t).
Proof.
  destruct (ESDateFacts.toISOString_date_part t) as (tl & ->). reflexivity.
Qed.

(** A UTC timestamp denotes an instant of the calendar date it is written
    with. *)
Lemma new_Date_utc_timestamp (d rest : string) :
  ESDate.is_calendar_date d = true ->
  ESDate.is_utc_time rest = true ->
  exists t : Z,
    new_Date (VStr (d +:+ "T" +:+ rest)) = Some t
    /\ ESDate.date_string t = d.
Proof.
  intros Hd Hrest.
  unfold ESDate.is_calendar_date in Hd. apply andb_prop in Hd as [Hshape Hd].
  destruct (ESDateFacts.is_utc_time_fields rest Hrest)
    as (tf & Htime & Hvalid & Hhour & Hoff).
  destruct (ESDateFacts.timestamp_fields d rest tf Hshape Htime)
    as (y & m & day & Hdate & Hstamp & Hwritten & Hy).
  rewrite Hdate in Hd.
  pose proof (ESDateFacts.parse_time_bounds rest tf Htime)
    as (Hh & Hmin & Hsec & Hms).
  assert (Hfields :
    ESDate.valid_fields (ESDate.mkDate y m day (Some tf)) = true).
  { unfold ESDate.valid_fields in *.
    cbn [ESDate.df_year ESDate.df_month ESDate.df_day ESDate.df_time] in *.
    rewrite andb_true_r in Hd. now rewrite Hd, Hvalid. }
  destruct (ESDateFacts.utc_timestamp_date y m day tf Hy Hfields)
    as [Hclip Hstring]; [lia|auto|].
  exists (ESDate.fields_time (ESDate.mkDate y m day (Some tf))).
  split; [|now rewrite Hstring].
  unfold new_Date, Date_parse.
  change (d +:+ "T" +:+ rest) with (d +:+ String "T" rest).
  rewrite Hstamp, Hfields. cbn [ESDate.df_time]. rewrite Hoff.
  cbn [mbind option_bind]. now rewrite Z.mul_0_l, Z.sub_0_r.
Qed.

Lemma normalize_date_field_date (m : gmap string value) (f : FieldSpec) (t : Z) :
  type f = "date" ->
  ToBoolean (get m (name f)) = true ->
  new_Date (get m (name f)) = Some t ->
  normalize_date_field m f
  = inr (<[name f := VStr (ESDate.date_string t)]> m).
Proof.
  intros Hty Htruthy Hdate. unfold normalize_date_field.
  rewrite Hty, Htruthy, Hdate. rewrite String.eqb_refl.
  cbn [andb Date_toISOString]. now rewrite date_only_of_time.
Qed.

Lemma normalize_date_field_skip (m : gmap string value) (f : FieldSpec) :
  String.eqb (type f) "date" && ToBoolean (get m (name f)) = false ->
  normalize_date_field m f = inr m.
Proof. intros H. unfold normalize_date_field. now rewrite H. Qed.

Lemma date_field_names_snoc (done : list FieldSpec) (f : FieldSpec) :
  date_field_names (done ++ [f])
  = date_field_names done
    ++ (if String.eqb (type f) "date" then [name f] else []).
Proof.
  unfold date_field_names. rewrite List.filter_app, List.map_app. simpl.
  now destruct (String.eqb (type f) "date").
Qed.

Lemma get_Some (m : gmap string value) (k : string) (v : value) :
  m !! k = Some v -> get m k = v.
Proof. unfold get. now intros ->. Qed.

Lemma get_of_lookup (m1 m2 : gmap string value) (k : string) :
  m1 !! k = m2 !! k -> get m1 k = get m2 k.
Proof. unfold get. now intros ->. Qed.

(** One turn of the loop keeps the invariant. *)
Lemma normalize_date_field_invariant (entity : gmap string value)
    (done : list FieldSpec) (m : gmap string value) (f : FieldSpec) :
  loop_invariant entity done m ->
  (type f = "date" -> ToBoolean (get entity (name f)) = true ->
   new_Date (get entity (name f)) <> None) ->
  exists m',
    normalize_date_field m f = inr m'
    /\ loop_invariant entity (done ++ [f]) m'.
Proof.
  intros Hinv Hok.
  destruct (String.eqb (type f) "date") eqn:Hty.
  2:{ exists m. split.
      - apply normalize_date_field_skip. now rewrite Hty.
      - intros k. rewrite date_field_names_snoc, Hty, List.app_nil_r.
        apply Hinv. }
  apply String.eqb_eq in Hty.
  destruct (Hinv (name f)) as [[Hsame Hfalsy]|[Hdone (t & Htruthy & Hdate & Hm)]].
  - destruct (ToBoolean (get entity (name f))) eqn:Htruthy.
    + destruct (new_Date (get entity (name f))) as [t|] eqn:Hdate;
        [|now destruct (Hok Hty eq_refl)].
      exists (<[name f := VStr (ESDate.date_string t)]> m). split.
      * apply normalize_date_field_date; [exact Hty| |];
          rewrite (get_of_lookup _ _ _ Hsame); assumption.
      * intros k. rewrite date_field_names_snoc, Hty, String.eqb_refl.
        destruct (decide (k = name f)) as [->|Hne].
        -- right. split; [apply elem_of_app; right; apply list_elem_of_singleton; reflexivity|].
           exists t. now rewrite lookup_insert_eq.
        -- rewrite lookup_insert_ne by congruence.
           destruct (Hinv k) as [[Hk Hkf]|[Hk (t' & ? & ? & ?)]].
           ++ left. split; [exact Hk|].
              intros [?|Hin%list_elem_of_singleton]%elem_of_app;
                [auto|congruence].
           ++ right. split; [apply elem_of_app; now left|].
              exists t'. now rewrite lookup_insert_ne by congruence.
    + exists m. split.
      * apply normalize_date_field_skip.
        rewrite (get_of_lookup _ _ _ Hsame), Htruthy. apply andb_false_r.
      * intros k. rewrite date_field_names_snoc, Hty, String.eqb_refl.
        destruct (decide (k = name f)) as [->|Hne].
        -- left. split; [exact Hsame|]. intros _. exact Htruthy.
        -- destruct (Hinv k) as [[Hk Hkf]|[Hk Hnorm]].
           ++ left. split; [exact Hk|].
              intros [?|Hin%list_elem_of_singleton]%elem_of_app;
                [auto|congruence].
           ++ right. split; [apply elem_of_app; now left|exact Hnorm].
  - pose proof (new_Date_range _ _ Hdate) as Hrange.
    exists m. split.
    + rewrite (normalize_date_field_date m f (ESDate.Day t * ESDate.msPerDay)).
      * rewrite (ESDateFacts.date_string_Day _ t)
          by apply ESDateFacts.Day_of_midnight.
        now rewrite insert_id.
      * exact Hty.
      * rewrite (get_Some _ _ _ Hm). cbn [ToBoolean].
        now rewrite ESDateFacts.date_string_not_empty.
      * rewrite (get_Some _ _ _ Hm). now apply new_Date_date_string.
    + intros k. rewrite date_field_names_snoc, Hty, String.eqb_refl.
      destruct (Hinv k) as [[Hk Hkf]|[Hk Hnorm]].
      * destruct (decide (k = name f)) as [->|Hne].
        -- right. split; [apply elem_of_app; now left|].
           exists t. auto.
        -- left. split; [exact Hk|].
           intros [?|Hin%list_elem_of_singleton]%elem_of_app;
             [auto|congruence].
      * right. split; [apply elem_of_app; now left|exact Hnorm].
Qed.

(** The loop runs to its end, and keeps the invariant, when [new Date]
    accepts the dates it meets. *)
Lemma forEach_field_invariant (entity : gmap string value)
    (rest done : list FieldSpec) (m : gmap string value) :
  loop_invariant entity done m ->
  dates_accepted rest entity ->
  exists m',
    forEach_field rest m = inr m'
    /\ loop_invariant entity (done ++ rest) m'.
Proof.
  revert done m. induction rest as [|f rest IH]; intros done m Hinv Hok.
  - exists m. rewrite List.app_nil_r. split; [reflexivity|exact Hinv].
  - destruct (normalize_date_field_invariant entity done m f Hinv)
      as (m1 & Hstep & Hinv1).
    { intros Hty. apply Hok; [apply elem_of_cons; now left|exact Hty]. }
    destruct (IH (done ++ [f]) m1 Hinv1) as (m' & Hloop & Hinv').
    { intros g Hg. apply Hok. apply elem_of_cons. now right. }
    exists m'. cbn [forEach_field]. rewrite Hstep.
    split; [exact Hloop|]. now rewrite <- List.app_assoc in Hinv'.
Qed.

Lemma forEach_field_normalizes (P : Props) (entity : gmap string value) :
  dates_accepted (formFields P) entity ->
  exists m,
    forEach_field (formFields P) entity = inr m
    /\ forall (f : FieldSpec) (t : Z),
         f ∈ formFields P -> type f = "date" ->
         ToBoolean (get entity (name f)) = true ->
         new_Date (get entity (name f)) = Some t ->
         get m (name f) = VStr (ESDate.date_string t).
Proof.
  intros Hok.
  destruct (forEach_field_invariant entity (formFields P) [] entity)
    as (m & Hloop & Hinv); [|exact Hok|].
  { intros k. left. split; [reflexivity|].
    intros Hin. now apply not_elem_of_nil in Hin. }
  exists m. split; [exact Hloop|].
  intros f t Hf Hty Htruthy Hdate. cbn [List.app] in Hinv.
  assert (Hin : name f ∈ date_field_names (formFields P)).
  { unfold date_field_names. apply list_elem_of_fmap. exists f.
    split; [reflexivity|]. apply list_elem_of_In, List.filter_In.
    split; [now apply list_elem_of_In|]. now apply String.eqb_eq. }
  destruct (Hinv (name f)) as [[_ Hfalsy]|[_ (t' & _ & Hdate' & Hm)]].
  - rewrite (Hfalsy Hin) in Htruthy. discriminate.
  - rewrite (get_Some _ _ _ Hm). congruence.
Qed.

(** ** The engine: fetch, submit, cancel, delete *)

(** C3.  [fetchEntities] never throws and ends with [loading] false, and
    every effect of the call is performed while [loading] is true; the
    [finally] block resets the flag on every exit of every body, whether it
    returns or throws; and no action of the user raises the flag beyond its
    own run.  When the request of the call fails with an error [e], the
    records are those of before the call and [error] is the message
    [Failed to fetch <entity>s: <message of e>]. *)
Theorem fetchEntities_failure_keeps_records (P : Props) (W : World) (c : Config) :
  let s1 := with_error "" (with_loading true (store c)) in
  let c' := snd (fetchEntities P W c) in
  (fst (fetchEntities P W c) = Returned tt
   /\ loading (store c') = false
   /\ Forall (fun es => loading (snd es) = true) (new_events c c'))
  /\ (forall (A : Type) (body : Async A) (W0 : World) (c0 : Config),
        loading (store (snd (try_finally body (setLoading false) W0 c0))) = false)
  /\ (forall a : Action,
        loading (store c) = false ->
        loading (store (snd (dispatch P a W c))) = false)
  /\ (forall e : Error,
        fst (apiCall (endpoint P) "GET" None W (mkConfig s1 (trace c))) = Threw e ->
        entities (store c') = entities (store c)
        /\ error (store c')
           = "Failed to fetch " +:+ entityName P +:+ "s: " +:+ err_message e
        /\ loading (store c') = false).
Proof.
  intros s1 c'. subst c'. rewrite fetchEntities_run. fold s1. cbn [fst snd].
  split; [|split; [|split]].
  - split; [reflexivity|].
    destruct (api_completion _); split; try reflexivity;
      new_events_norm; repeat constructor.
  - intros A body W0 c0. unfold try_finally, setLoading, setState.
    destruct (body W0 c0) as [res c1]. reflexivity.
  - intros a. apply dispatch_keeps_loading_false.
  - intros e He. apply apiCall_threw in He.
    change (history {| store := s1; trace := trace c |}) with (history c) in He.
    rewrite He. simpl. auto.
Qed.

(** C4.  When the request of a submit succeeds, in Add mode as in Edit mode,
    the handler clears the draft, leaves Edit mode, clears the captured
    identifier, and then runs [fetchEntities]: the requests of the whole
    submit are the create or update followed by exactly one list request.
    Submitting the Add-mode draft of scenario A against the Supplier schema
    posts that draft to [/suppliers] and then lists [/suppliers] once. *)
Theorem submit_success_resets_and_refetches :
  (forall (P : Props) (W : World) (c : Config) (v : value),
     let r := store c in
     let s1 := with_error "" (store c) in
     let asked := trace c ++ [(EvPreventDefault, store c)] in
     let c' := snd (handleSubmit P r W c) in
     fst (apiCall (submit_endpoint P r) (submit_method r) (Some (formData r)) W
            (mkConfig s1 asked)) = Returned v ->
     formData (store c') = ∅
     /\ isEditing (store c') = false
     /\ editId (store c') = VNull
     /\ editIdentifier (store c') = ∅
     /\ c' = snd (fetchEntities P W
                    (mkConfig (form_reset s1)
                       (asked ++
                        [(EvFetch (submit_method r)
                            (API_BASE_URL +:+ submit_endpoint P r)
                            (Some (formData r)), s1);
                         (EvAlert (submit_alert P r), s1)])))
     /\ requests (new_events c c')
        = [EvFetch (submit_method r) (API_BASE_URL +:+ submit_endpoint P r)
             (Some (formData r));
           EvFetch "GET" (API_BASE_URL +:+ endpoint P) None])
  /\ (forall (W : World) (c : Config) (v : value),
        isEditing (store c) = false ->
        formData (store c) = supplier_draft ->
        fst (apiCall "/suppliers" "POST" (Some supplier_draft) W
               (mkConfig (with_error "" (store c))
                  (trace c ++ [(EvPreventDefault, store c)]))) = Returned v ->
        requests (new_events c (snd (handleSubmit SupplierManager (store c) W c)))
        = [EvFetch "POST" "http://localhost:5000/api/suppliers"
             (Some supplier_draft);
           EvFetch "GET" "http://localhost:5000/api/suppliers" None]).
Proof.
  assert (Hgen : forall (P : Props) (W : World) (c : Config) (v : value),
     let r := store c in
     let s1 := with_error "" (store c) in
     let asked := trace c ++ [(EvPreventDefault, store c)] in
     let c' := snd (handleSubmit P r W c) in
     fst (apiCall (submit_endpoint P r) (submit_method r) (Some (formData r)) W
            (mkConfig s1 asked)) = Returned v ->
     formData (store c') = ∅
     /\ isEditing (store c') = false
     /\ editId (store c') = VNull
     /\ editIdentifier (store c') = ∅
     /\ c' = snd (fetchEntities P W
                    (mkConfig (form_reset s1)
                       (asked ++
                        [(EvFetch (submit_method r)
                            (API_BASE_URL +:+ submit_endpoint P r)
                            (Some (formData r)), s1);
                         (EvAlert (submit_alert P r), s1)])))
     /\ requests (new_events c c')
        = [EvFetch (submit_method r) (API_BASE_URL +:+ submit_endpoint P r)
             (Some (formData r));
           EvFetch "GET" (API_BASE_URL +:+ endpoint P) None]).
  { intros P W c v. cbv zeta. intros Hok.
    apply apiCall_returned in Hok.
    rewrite history_app in Hok. fold (history c) in Hok.
    rewrite handleSubmit_run. cbv zeta. cbn [fst snd]. rewrite Hok. clear Hok.
    rewrite (trace_regroup (trace c)).
    repeat split;
      try (rewrite fetchEntities_run; cbn [fst snd];
           destruct (api_completion _); reflexivity).
    rewrite fetchEntities_run. cbn [fst snd store trace].
    destruct (api_completion _); new_events_norm; reflexivity. }
  split; [exact Hgen|].
  intros W c v Hadd Hdraft Hok.
  pose proof (Hgen SupplierManager W c v) as H. cbv zeta in H.
  unfold submit_endpoint, submit_method in H.
  rewrite Hadd, Hdraft in H. simpl in H.
  apply H in Hok. apply Hok.
Qed.

(** C5 (as amended).  When the backend rejects a submit with a non-success
    status and a body whose [error] field is ["duplicate"], the draft, the
    mode, the captured identifier, the records and the loading flag are those
    of before the submit, no further request is sent, and [error] is the
    message [Failed to save <entity>: duplicate]. *)
Theorem rejected_submit_keeps_draft (P : Props) (W : World) (c : Config)
    (st : Z) (o : gmap string value) :
  let r := store c in
  let c' := snd (handleSubmit P r W c) in
  let url := API_BASE_URL +:+ submit_endpoint P r in
  fetch_answer W (history c ++ [EvPreventDefault]) (submit_method r) url
    (Some (formData r)) = inr (mkResponse st (inr (VObj o))) ->
  ok (mkResponse st (inr (VObj o))) = false ->
  get o "error" = VStr "duplicate" ->
  formData (store c') = formData (store c)
  /\ isEditing (store c') = isEditing (store c)
  /\ editId (store c') = editId (store c)
  /\ editIdentifier (store c') = editIdentifier (store c)
  /\ entities (store c') = entities (store c)
  /\ loading (store c') = loading (store c)
  /\ error (store c') = "Failed to save " +:+ entityName P +:+ ": duplicate"
  /\ requests (new_events c c')
     = [EvFetch (submit_method r) url (Some (formData r))].
Proof.
  cbv zeta. intros Hans Hok Herr.
  rewrite handleSubmit_run. cbv zeta. cbn [fst snd]. rewrite Hans.
  unfold api_completion. cbn [json]. rewrite Hok. cbn [GetV]. rewrite Herr.
  cbn [store trace].
  repeat split. new_events_norm. reflexivity.
Qed.

(** C6.  [handleCancelEdit] clears the draft, leaves Edit mode, clears the
    captured identifier and the error, and does nothing else: it performs no
    effect, so it sends no request, and the records and the loading flag are
    unchanged. *)
Theorem cancelEdit_is_a_pure_reset (W : World) (c : Config) :
  let c' := snd (handleCancelEdit W c) in
  fst (handleCancelEdit W c) = Returned tt
  /\ formData (store c') = ∅
  /\ isEditing (store c') = false
  /\ editId (store c') = VNull
  /\ editIdentifier (store c') = ∅
  /\ error (store c') = ""
  /\ trace c' = trace c
  /\ requests (new_events c c') = []
  /\ entities (store c') = entities (store c)
  /\ loading (store c') = loading (store c).
Proof.
  cbv zeta. rewrite handleCancelEdit_run. cbn [fst snd store trace].
  rewrite new_events_same. repeat split.
Qed.

(** C10.  When the user declines the confirmation prompt, [handleDelete]
    returns at once: the only effect is the prompt itself, no request is
    sent, and the whole state is the one before the call. *)
Theorem declined_delete_changes_nothing (P : Props) (W : World) (c : Config)
    (entity : gmap string value) :
  let prompt :=
    "Are you sure you want to delete this " +:+ entityName P +:+ "?" in
  let c' := snd (handleDelete P entity W c) in
  confirm_answer W (history c) prompt = false ->
  fst (handleDelete P entity W c) = Returned tt
  /\ store c' = store c
  /\ new_events c c' = [(EvConfirm prompt, store c)]
  /\ requests (new_events c c') = [].
Proof.
  cbv zeta. intros Hno.
  rewrite handleDelete_run. cbv zeta. cbn [fst snd]. unfold delete_prompt.
  rewrite Hno. cbn [store].
  repeat split; new_events_norm; reflexivity.
Qed.

(** C1.  The path of a delete and of an Edit-mode update is the record's
    identifier values, in the order the schema declares them, joined by
    slashes.  A confirmed delete of a record addresses that path.  After
    [handleEdit] of a record, whatever is then typed into the form, a submit
    addresses the path of that record, not of the form.  For the Supplier,
    StoreLimit and RawMaterialCost schemas the path has one, two and three
    segments; deleting the StoreLimit record of scenario B sends
    [DELETE /store_limits/PRD003/LOC004]. *)
Theorem identifier_path_in_declared_order :
  (forall (P : Props) (W : World) (c : Config) (entity : gmap string value),
     confirm_answer W (history c)
       ("Are you sure you want to delete this " +:+ entityName P +:+ "?") = true ->
     exists rest,
       requests (new_events c (snd (handleDelete P entity W c)))
       = EvFetch "DELETE"
           (API_BASE_URL +:+ endpoint P +:+ "/" +:+ identifier_path P entity)
           None :: rest
       /\ (rest = [] \/ rest = [EvFetch "GET" (API_BASE_URL +:+ endpoint P) None]))
  /\ (forall (P : Props) (W : World) (c : Config) (entity : gmap string value)
        (inputs : list Action),
        fst (handleEdit P entity W c) = Returned tt ->
        forallb is_InputChange inputs = true ->
        let c1 := run_actions P (Edit entity :: inputs) W c in
        exists rest,
          requests (new_events c1 (snd (handleSubmit P (store c1) W c1)))
          = EvFetch "PUT"
              (API_BASE_URL +:+ endpoint P +:+ "/" +:+ identifier_path P entity)
              (Some (formData (store c1))) :: rest
          /\ (rest = []
              \/ rest = [EvFetch "GET" (API_BASE_URL +:+ endpoint P) None]))
  /\ (forall r : gmap string value,
        identifier_path SupplierManager r = join_element (get r "supplier_id"))
  /\ (forall r : gmap string value,
        identifier_path StoreLimitManager r
        = join_element (get r "product_id") +:+ "/" +:+
          join_element (get r "location_id"))
  /\ (forall r : gmap string value,
        identifier_path RawMaterialCostManager r
        = join_element (get r "product_id") +:+ "/" +:+
          join_element (get r "supplier_id") +:+ "/" +:+
          join_element (get r "effective_date"))
  /\ (forall (W : World) (c : Config) (r : gmap string value),
        confirm_answer W (history c)
          "Are you sure you want to delete this Store Limit?" = true ->
        get r "product_id" = VStr "PRD003" ->
        get r "location_id" = VStr "LOC004" ->
        exists rest,
          requests (new_events c (snd (handleDelete StoreLimitManager r W c)))
          = EvFetch "DELETE"
              "http://localhost:5000/api/store_limits/PRD003/LOC004" None
            :: rest).
Proof.
  repeat split.
  - intros P W c entity Hyes. now apply confirmed_delete_requests.
  - intros P W c entity inputs Hedit Hinputs c1.
    destruct (after_edit P W c entity Hedit) as (Hmode & Hid & _).
    destruct (input_changes_touch_the_draft_only P W inputs
                (snd (dispatch P (Edit entity) W c)) Hinputs) as (H1 & H2 & _).
    apply edit_mode_submit_requests; subst c1; cbn [run_actions];
      [rewrite H1|rewrite H2]; assumption.
  - intros W c r Hyes Hp Hl.
    destruct (confirmed_delete_requests StoreLimitManager W c r Hyes)
      as (rest & Hreq & _).
    exists rest. rewrite Hreq. unfold identifier_path. simpl.
    rewrite Hp, Hl. reflexivity.
Qed.


(** X16.  When [new Date] accepts every non-empty date field of the
    record, [handleEdit] succeeds, and for every form field of type [date]
    whose value in the record is truthy, the draft holds the UTC calendar
    date of the instant that value denotes; this string has the shape
    [YYYY-MM-DD] when the UTC year of the instant lies between 0 and 9999.
    For a UTC timestamp, a calendar date [YYYY-MM-DD] followed by [T], a
    time of day and [Z], the draft holds the date the timestamp is written
    with.  Loading a record whose [effective_date] is
    [2024-03-05T00:00:00Z] into the RawMaterialCost form gives the draft
    the [effective_date] [2024-03-05]. *)
Theorem date_fields_are_normalized_to_the_UTC_date :
  (forall (P : Props) (W : World) (c : Config) (entity : gmap string value),
     dates_accepted (formFields P) entity ->
     fst (handleEdit P entity W c) = Returned tt
     /\ forall (f : FieldSpec) (t : Z),
          f ∈ formFields P -> type f = "date" ->
          ToBoolean (get entity (name f)) = true ->
          new_Date (get entity (name f)) = Some t ->
          get (formData (store (snd (handleEdit P entity W c)))) (name f)
          = VStr (ESDate.date_string t)
          /\ (0 <= ESDate.YearFromTime t <= 9999 ->
              ESDate.is_date_only (ESDate.date_string t) = true))
  /\ (forall (P : Props) (W : World) (c : Config) (entity : gmap string value)
        (f : FieldSpec) (d rest : string),
        dates_accepted (formFields P) entity ->
        f ∈ formFields P -> type f = "date" ->
        get entity (name f) = VStr (d +:+ "T" +:+ rest) ->
        ESDate.is_calendar_date d = true ->
        ESDate.is_utc_time rest = true ->
        get (formData (store (snd (handleEdit P entity W c)))) (name f)
        = VStr d
        /\ ESDate.is_date_only d = true)
  /\ (forall (W : World) (c : Config) (entity : gmap string value),
        get entity "effective_date" = VStr "2024-03-05T00:00:00Z" ->
        fst (handleEdit RawMaterialCostManager entity W c) = Returned tt
        /\ get (formData
                  (store (snd (handleEdit RawMaterialCostManager entity W c))))
             "effective_date"
           = VStr "2024-03-05").
Proof.
  assert (Hgen :
    forall (P : Props) (W : World) (c : Config) (entity : gmap string value),
     dates_accepted (formFields P) entity ->
     fst (handleEdit P entity W c) = Returned tt
     /\ forall (f : FieldSpec) (t : Z),
          f ∈ formFields P -> type f = "date" ->
          ToBoolean (get entity (name f)) = true ->
          new_Date (get entity (name f)) = Some t ->
          get (formData (store (snd (handleEdit P entity W c)))) (name f)
          = VStr (ESDate.date_string t)
          /\ (0 <= ESDate.YearFromTime t <= 9999 ->
              ESDate.is_date_only (ESDate.date_string t) = true)).
  { intros P W c entity Hok.
    destruct (forEach_field_normalizes P entity Hok) as (m & Hloop & Hm).
    rewrite handleEdit_run, Hloop. cbn [fst snd store].
    split; [reflexivity|].
    intros f t Hf Hty Htruthy Hdate. split.
    - now apply Hm.
    - apply ESDateFacts.date_string_is_date_only. }
  split; [exact Hgen|]. split.
  { intros P W c entity f d rest Hok Hf Hty Hget Hd Hrest.
    destruct (new_Date_utc_timestamp d rest Hd Hrest) as (t & Hdate & Hwritten).
    assert (Hshape : ESDate.is_date_only d = true).
    { unfold ESDate.is_calendar_date in Hd. now apply andb_prop in Hd as [? _]. }
    split; [|exact Hshape].
    destruct (Hgen P W c entity Hok) as [_ Hfields].
    rewrite <- Hwritten. apply (Hfields f t Hf Hty).
    - rewrite Hget. destruct d; [discriminate Hshape|reflexivity].
    - now rewrite Hget. }
  intros W c entity Hget.
  assert (Hdate : new_Date (get entity "effective_date") = Some 1709596800000).
  { rewrite Hget. reflexivity. }
  destruct (Hgen RawMaterialCostManager W c entity) as [Hret Hfields].
  - intros f Hf Hty _.
    cbn [formFields RawMaterialCostManager] in Hf.
    repeat (apply elem_of_cons in Hf as [->|Hf]); try discriminate Hty.
    + cbn [name]. rewrite Hdate. discriminate.
    + now apply not_elem_of_nil in Hf.
  - split; [exact Hret|].
    apply (Hfields (mkField "effective_date" "Effective Date" "date" None true
                      [] None) 1709596800000).
    + cbn [formFields RawMaterialCostManager]. do 4 apply list_elem_of_further.
      apply list_elem_of_here.
    + reflexivity.
    + cbn [name]. now rewrite Hget.
    + exact Hdate.
Qed.

(** ** The transport adapter *)

(** C8 (as amended).  [apiCall] sends one request.  On a response with a
    non-success status whose parsed body is not [null], it fails with an
    [Error] whose message is the body's [error] property when that property
    is truthy, and [Something went wrong] otherwise.  When the [fetch]
    rejects, or the body does not parse, it fails with that very error.
    Every failure is logged by [console.error], with the method and the URL
    in the prefix and the error itself, after the request and before the
    error reaches the caller; a success logs nothing. *)
Theorem apiCall_failure_is_logged_then_thrown (W : World) (c : Config)
    (ep method : string) (data : option (gmap string value)) :
  let url := API_BASE_URL +:+ ep in
  let settled := fetch_answer W (history c) method url data in
  let sent := (EvFetch method url data, store c) in
  let logged (e : Error) :=
    (EvConsoleError ("API Call Error (" +:+ method +:+ " " +:+ url +:+ "):") e,
     store c) in
  (forall (response : Response) (result err : value),
     settled = inr response ->
     ok response = false ->
     json response = inr result ->
     GetV result "error" = inr err ->
     let e := mkError "Error"
                (if ToBoolean err then ToString err
                 else "Something went wrong") in
     apiCall ep method data W c
     = (Threw e, mkConfig (store c) (trace c ++ [sent; logged e])))
  /\ (forall e : Error,
        settled = inl e ->
        apiCall ep method data W c
        = (Threw e, mkConfig (store c) (trace c ++ [sent; logged e])))
  /\ (forall (response : Response) (e : Error),
        settled = inr response ->
        json response = inl e ->
        apiCall ep method data W c
        = (Threw e, mkConfig (store c) (trace c ++ [sent; logged e])))
  /\ (forall e : Error,
        fst (apiCall ep method data W c) = Threw e ->
        new_events c (snd (apiCall ep method data W c)) = [sent; logged e])
  /\ (forall (response : Response) (result : value),
        settled = inr response ->
        ok response = true ->
        json response = inr result ->
        apiCall ep method data W c
        = (Returned result, mkConfig (store c) (trace c ++ [sent]))).
Proof.
  cbv zeta. rewrite apiCall_run. cbv zeta. unfold log_prefix.
  repeat split.
  - intros response result err -> Hok Hjson Herr.
    unfold api_completion. rewrite Hjson, Hok, Herr.
    unfold new_Error, or_else.
    destruct (ToBoolean err) eqn:Ht.
    + destruct err; try discriminate Ht; now rewrite <- List.app_assoc.
    + now rewrite <- List.app_assoc.
  - intros e ->. cbn [api_completion]. now rewrite <- List.app_assoc.
  - intros response e -> Hjson. unfold api_completion. rewrite Hjson.
    now rewrite <- List.app_assoc.
  - intros e. destruct (api_completion _) as [e'|v]; cbn [fst snd];
      [|discriminate].
    intros [= ->]. new_events_norm. reflexivity.
  - intros response result -> Hok Hjson.
    unfold api_completion. now rewrite Hjson, Hok.
Qed.

End EngineFacts.

(** * Requests in flight: properties *)

Section InterleavedFacts.
Context {rt : JSRuntime}.

(** ** The two models agree *)

Lemma atomic_bind {A B} (p : Interleaved.Proc A)
    (f : A -> Interleaved.Proc B) (W : World) (c : Config) :
  Interleaved.atomic (Interleaved.bind p f) W c
  = match Interleaved.atomic p W c with
    | (Returned a, c') => Interleaved.atomic (f a) W c'
    | (Threw e, c') => (Threw e, c')
    end.
Proof.
  revert f W c.
  induction p as [A [a|e]|A ev k IH|A u k IH|A msg k IH|A m u b k IH|A r k IH
                 |A child _ k IH]; intros f W c; cbn; auto.
Qed.

Lemma atomic_try_catch {A} (p : Interleaved.Proc A)
    (h : Error -> Interleaved.Proc A) (W : World) (c : Config) :
  Interleaved.atomic (Interleaved.try_catch p h) W c
  = match Interleaved.atomic p W c with
    | (Returned a, c') => (Returned a, c')
    | (Threw e, c') => Interleaved.atomic (h e) W c'
    end.
Proof.
  revert h W c.
  induction p as [A [a|e]|A ev k IH|A u k IH|A msg k IH|A m u b k IH|A r k IH
                 |A child _ k IH]; intros h W c; cbn; auto.
Qed.

Lemma atomic_try_finally {A} (p : Interleaved.Proc A)
    (q : Interleaved.Proc unit) (W : World) (c : Config) :
  Interleaved.atomic (Interleaved.try_finally p q) W c
  = match Interleaved.atomic p W c with
    | (r, c') =>
        match Interleaved.atomic q W c' with
        | (Returned _, c'') => (r, c'')
        | (Threw e, c'') => (Threw e, c'')
        end
    end.
Proof.
  revert q W c.
  induction p as [A r|A ev k IH|A u k IH|A msg k IH|A m u b k IH|A r k IH
                 |A child _ k IH]; intros q W c; cbn; auto.
  rewrite atomic_bind. destruct (Interleaved.atomic q W c) as [[[]|e] c'];
    reflexivity.
Qed.

Lemma refines_bind {A B} (p : Interleaved.Proc A) (m : Async A)
    (f : A -> Interleaved.Proc B) (g : A -> Async B) :
  Interleaved.refines p m -> (forall a, Interleaved.refines (f a) (g a)) ->
  Interleaved.refines (Interleaved.bind p f) (bind m g).
Proof.
  intros Hp Hf W c. unfold bind. rewrite atomic_bind, Hp.
  destruct (m W c) as [[a|e] c']; [apply Hf|reflexivity].
Qed.

Lemma refines_try_catch {A} (p : Interleaved.Proc A) (m : Async A)
    (h : Error -> Interleaved.Proc A) (g : Error -> Async A) :
  Interleaved.refines p m -> (forall e, Interleaved.refines (h e) (g e)) ->
  Interleaved.refines (Interleaved.try_catch p h) (try_catch m g).
Proof.
  intros Hp Hh W c. unfold try_catch. rewrite atomic_try_catch, Hp.
  destruct (m W c) as [[a|e] c']; [reflexivity|apply Hh].
Qed.

Lemma refines_try_finally {A} (p : Interleaved.Proc A) (m : Async A)
    (q : Interleaved.Proc unit) (n : Async unit) :
  Interleaved.refines p m -> Interleaved.refines q n ->
  Interleaved.refines (Interleaved.try_finally p q) (try_finally m n).
Proof.
  intros Hp Hq W c. unfold try_finally. rewrite atomic_try_finally, Hp.
  destruct (m W c) as [r c']. rewrite Hq. reflexivity.
Qed.

Lemma refines_seq {A B} (p : Interleaved.Proc A) (m : Async A)
    (q : Interleaved.Proc B) (n : Async B) :
  Interleaved.refines p m -> Interleaved.refines q n ->
  Interleaved.refines (Interleaved.bind p (fun _ => q)) (bind m (fun _ => n)).
Proof. intros Hp Hq. apply refines_bind; [exact Hp|intros _; exact Hq]. Qed.

Lemma refines_setState (f : State -> State) :
  Interleaved.refines (Interleaved.setState f) (setState f).
Proof. intros W c. reflexivity. Qed.

Lemma refines_perform (ev : Event) :
  Interleaved.refines (Interleaved.perform ev) (perform ev).
Proof. intros W c. reflexivity. Qed.

Lemma refines_lift {A} (r : Error + A) :
  Interleaved.refines (Interleaved.lift r) (lift r).
Proof. intros W c. destruct r; reflexivity. Qed.

Lemma refines_apiCall (ep method : string) (data : option (gmap string value)) :
  Interleaved.refines (Interleaved.apiCall ep method data)
    (apiCall ep method data).
Proof.
  apply refines_try_catch.
  - apply refines_bind.
    + intros W c. cbn. unfold fetch.
      destruct (fetch_answer _ _ _ _ _); reflexivity.
    + intros response. apply refines_bind.
      * intros W c. cbn. unfold Response_json. destruct (json response);
          reflexivity.
      * intros result. destruct (negb (ok response)).
        -- apply refines_bind; [apply refines_lift|]. intros err W c.
           reflexivity.
        -- intros W c. reflexivity.
  - intros e. apply refines_seq; [apply refines_perform|].
    intros W c. reflexivity.
Qed.

Lemma refines_fetchEntities (P : Props) :
  Interleaved.refines (Interleaved.fetchEntities P) (fetchEntities P).
Proof.
  repeat apply refines_seq; try apply refines_setState.
  apply refines_try_finally; [|apply refines_setState].
  apply refines_try_catch.
  - apply refines_bind; [apply refines_apiCall|].
    intros data. apply refines_setState.
  - intros e. apply refines_setState.
Qed.

Lemma refines_detached (p : Interleaved.Proc unit) (m : Async unit) :
  Interleaved.refines p m ->
  Interleaved.refines (Interleaved.detached p) (detached m).
Proof. intros Hp W c. cbn. unfold detached. now rewrite Hp. Qed.

Lemma refines_handleSubmit (P : Props) (r : State) :
  Interleaved.refines (Interleaved.handleSubmit P r) (handleSubmit P r).
Proof.
  apply refines_seq; [apply refines_perform|].
  apply refines_seq; [apply refines_setState|].
  apply refines_try_catch; [|intros e; apply refines_setState].
  apply refines_seq.
  - destruct (isEditing r);
      (apply refines_seq; [apply refines_apiCall|apply refines_perform]).
  - repeat (apply refines_seq; [apply refines_setState|]).
    apply refines_detached, refines_fetchEntities.
Qed.

Lemma refines_handleEdit (P : Props) (entity : gmap string value) :
  Interleaved.refines (Interleaved.handleEdit P entity) (handleEdit P entity).
Proof.
  apply refines_bind; [apply refines_lift|]. intros newFormData.
  repeat (apply refines_seq; [apply refines_setState|]).
  apply refines_perform.
Qed.

Lemma refines_handleDelete (P : Props) (entity : gmap string value) :
  Interleaved.refines (Interleaved.handleDelete P entity) (handleDelete P entity).
Proof.
  apply refines_bind; [intros W c; reflexivity|].
  intros [|]; [|intros W c; reflexivity].
  apply refines_seq; [apply refines_setState|].
  apply refines_try_catch; [|intros e; apply refines_setState].
  apply refines_seq; [apply refines_apiCall|].
  apply refines_seq; [apply refines_perform|].
  apply refines_detached, refines_fetchEntities.
Qed.

Lemma refines_handleCancelEdit :
  Interleaved.refines Interleaved.handleCancelEdit handleCancelEdit.
Proof.
  repeat (apply refines_seq; [apply refines_setState|]).
  apply refines_setState.
Qed.

(** The handlers of [dispatch] are the threads of [Interleaved], run with
    every request settled at once. *)
Lemma atomic_handler (P : Props) (W : World) (c : Config) (a : Action) :
  Interleaved.atomic (Interleaved.handler P a (store c)) W c = dispatch P a W c.
Proof.
  destruct a as [|n v t ch| |entity|entity|]; cbn [Interleaved.handler dispatch].
  - apply refines_fetchEntities.
  - apply refines_setState.
  - apply refines_handleSubmit.
  - apply refines_handleEdit.
  - apply refines_handleDelete.
  - apply refines_handleCancelEdit.
Qed.

(** ** One step of the event loop *)

Lemma insert_new_slot {A} (l : list A) (x y : A) :
  <[length l := y]> (l ++ [x]) = l ++ [y].
Proof. induction l as [|a l IH]; [reflexivity|]. cbn. f_equal. exact IH. Qed.

Lemma lookup_new_slot {A} (l : list A) (x : A) :
  (l ++ [x]) !! length l = Some x.
Proof. induction l as [|a l IH]; [reflexivity|exact IH]. Qed.

Lemma others_ne (i j : nat) : negb (Nat.eqb j i) = true -> j <> i.
Proof. intros H ->. rewrite Nat.eqb_refl in H. discriminate H. Qed.

Lemma step_spec_skip (P : Props) (s : Interleaved.Sys) (b : nat -> bool) :
  Interleaved.engine_threads P s ->
  Interleaved.engine_threads P s
  /\ (forall i (x : option (Interleaved.Proc unit)),
        Interleaved.pool s !! i = Some x -> b i = true ->
        Interleaved.pool s !! i = Some x)
  /\ (false = false ->
      error (store (Interleaved.config s)) = "" ->
      error (store (Interleaved.config s)) = "")
  /\ (exists evs,
        trace (Interleaved.config s) = trace (Interleaved.config s) ++ evs
        /\ Interleaved.sent_without_error evs)
  /\ forall ev,
       Interleaved.awaited s (length (Interleaved.pool s)) = Some ev ->
       error (store (Interleaved.config s)) = ""
       /\ exists st,
            last (trace (Interleaved.config s)) = Some (ev, st)
            /\ error st = "".
Proof.
  intros Hinv. split; [exact Hinv|]. split; [auto|]. split; [auto|]. split.
  - exists []. split; [now rewrite app_nil_r|constructor].
  - intros ev Hev. unfold Interleaved.awaited in Hev.
    rewrite lookup_ge_None_2 in Hev by lia. discriminate Hev.
Qed.

Ltac same_thread :=
  first
    [ reflexivity
    | unfold Interleaved.handler, Interleaved.handleSubmit;
      match goal with H : isEditing _ = _ |- _ => rewrite H end;
      reflexivity ].

Ltac thread_ok a r :=
  first
    [ left; reflexivity
    | right; exists a, r; split; [reflexivity|];
      first [left; same_thread | right; eexists; same_thread]
    | right; exists Mount, r; split; [reflexivity|]; left; reflexivity ].

Ltac threads_ok Hinv a r :=
  repeat first
    [ exact Hinv
    | apply Forall_insert
    | apply Forall_app_2
    | apply Forall_cons_2
    | apply Forall_nil_2
    | thread_ok a r ].

Ltac frame_ok :=
  let i := fresh "i" in
  let x := fresh "x" in
  let Hi := fresh "Hi" in
  let Ho := fresh "Ho" in
  intros i x Hi Ho;
  try (apply others_ne in Ho);
  rewrite ?list_lookup_insert_ne by congruence;
  try (apply lookup_app_l_Some);
  exact Hi.

Ltac trace_ok :=
  first
    [ exists []; split; [now rewrite app_nil_r|constructor]
    | eexists; split;
      [ rewrite <- ?app_assoc; reflexivity
      | repeat constructor; cbn; intros; first [discriminate|reflexivity] ] ].

Ltac body_outcome resp :=
  unfold api_completion;
  destruct (json resp) as [?e|?result]; cbn;
  [|destruct (ok resp); cbn; [|destruct (GetV _ "error"); cbn]].

Ltac start_ok :=
  let ev := fresh "ev" in
  let Hev := fresh "Hev" in
  intros ev Hev;
  rewrite ?list_lookup_insert_ne in Hev by lia;
  first
    [ rewrite lookup_new_slot in Hev; cbn in Hev;
      first
        [ discriminate Hev
        | injection Hev as <-; split; [reflexivity|];
          eexists; split; [apply last_snoc|reflexivity] ]
    | rewrite lookup_ge_None_2 in Hev by (rewrite ?length_insert; lia);
      discriminate Hev ].

Ltac step_leaf Hinv a r :=
  unfold Interleaved.engine_threads, Interleaved.awaited; cbn;
  rewrite ?insert_new_slot;
  split; [threads_ok Hinv a r|];
  split; [frame_ok|];
  split; [intros Hq He; first [discriminate Hq|reflexivity|exact He]|];
  split; [trace_ok|];
  start_ok.

Lemma step_spec (P : Props) (W : World) (s : Interleaved.Sys)
    (l : Interleaved.Label) :
  Interleaved.engine_threads P s ->
  let s' := Interleaved.step W P l s in
  Interleaved.engine_threads P s'
  /\ (forall i x,
        Interleaved.pool s !! i = Some x -> Interleaved.others i l = true ->
        Interleaved.pool s' !! i = Some x)
  /\ (Interleaved.delivers_failure s l = false ->
      error (store (Interleaved.config s)) = "" ->
      error (store (Interleaved.config s')) = "")
  /\ (exists evs,
        trace (Interleaved.config s') = trace (Interleaved.config s) ++ evs
        /\ Interleaved.sent_without_error evs)
  /\ forall ev,
       Interleaved.awaited s' (length (Interleaved.pool s)) = Some ev ->
       error (store (Interleaved.config s')) = ""
       /\ exists st,
            last (trace (Interleaved.config s')) = Some (ev, st)
            /\ error st = "".
Proof.
  intros Hinv. cbv zeta. destruct l as [a|j settled|j].
  - unfold Interleaved.step, Interleaved.delivers_failure.
    set (r := store (Interleaved.config s)).
    destruct a as [|n v t ch| |entity|entity|];
      cbn [Interleaved.handler].
    + step_leaf Hinv Mount r.
    + step_leaf Hinv Mount r.
    + unfold Interleaved.handleSubmit. destruct (isEditing r) eqn:Hmode.
      * step_leaf Hinv Submit r.
      * step_leaf Hinv Submit r.
    + unfold Interleaved.handleEdit.
      destruct (forEach_field (formFields P) entity);
        step_leaf Hinv Mount r.
    + unfold Interleaved.handleDelete. cbn.
      destruct (confirm_answer _ _ _);
        step_leaf Hinv (Delete entity) r.
    + step_leaf Hinv Mount r.
  - unfold Interleaved.step, Interleaved.delivers_failure.
    destruct (Interleaved.pool s !! j) as [[q|]|] eqn:Hj.
    2,3: destruct settled; apply (step_spec_skip P s _ Hinv).
    pose proof (proj1 (Forall_lookup _ _) Hinv j _ Hj) as Hq.
    apply lookup_lt_Some in Hj as Hlt.
    destruct Hq as [Hq|(a & r & Hop & [Hq|(resp & Hq)])]; [discriminate Hq| |];
      injection Hq as ->; destruct a as [| | |entity0|entity| ];
      try discriminate Hop; clear Hop.
    + cbn. destruct settled as [e|resp]; step_leaf Hinv Mount r.
    + unfold Interleaved.handler, Interleaved.handleSubmit.
      destruct (isEditing r) eqn:Hmode; cbn;
        destruct settled as [e|resp]; step_leaf Hinv Submit r.
    + cbn. destruct settled as [e|resp]; step_leaf Hinv (Delete entity) r.
    + cbn. destruct settled; apply (step_spec_skip P s _ Hinv).
    + unfold Interleaved.handler, Interleaved.handleSubmit.
      destruct (isEditing r) eqn:Hmode; cbn;
        destruct settled; apply (step_spec_skip P s _ Hinv).
    + cbn. destruct settled; apply (step_spec_skip P s _ Hinv).
  - unfold Interleaved.step, Interleaved.delivers_failure.
    destruct (Interleaved.pool s !! j) as [[q|]|] eqn:Hj.
    2,3: apply (step_spec_skip P s _ Hinv).
    pose proof (proj1 (Forall_lookup _ _) Hinv j _ Hj) as Hq.
    apply lookup_lt_Some in Hj as Hlt.
    destruct Hq as [Hq|(a & r & Hop & [Hq|(resp & Hq)])]; [discriminate Hq| |];
      injection Hq as ->; destruct a as [| | |entity0|entity| ];
      try discriminate Hop; clear Hop.
    + cbn. apply (step_spec_skip P s _ Hinv).
    + unfold Interleaved.handler, Interleaved.handleSubmit.
      destruct (isEditing r) eqn:Hmode; cbn;
        apply (step_spec_skip P s _ Hinv).
    + cbn. apply (step_spec_skip P s _ Hinv).
    + cbn. body_outcome resp; step_leaf Hinv Mount r.
    + unfold Interleaved.handler, Interleaved.handleSubmit.
      destruct (isEditing r) eqn:Hmode; cbn; body_outcome resp;
        step_leaf Hinv Submit r.
    + cbn. body_outcome resp; step_leaf Hinv (Delete entity) r.
Qed.

(** ** Runs *)

Lemma run_app (P : Props) (W : World) (ls1 ls2 : list Interleaved.Label)
    (s : Interleaved.Sys) :
  Interleaved.run W P (ls1 ++ ls2) s
  = Interleaved.run W P ls2 (Interleaved.run W P ls1 s).
Proof.
  revert s. induction ls1 as [|l ls1 IH]; intros s; [reflexivity|].
  cbn. apply IH.
Qed.

Lemma quiet_app (P : Props) (W : World) (ls1 ls2 : list Interleaved.Label)
    (s : Interleaved.Sys) :
  Interleaved.quiet W P (ls1 ++ ls2) s
  = Interleaved.quiet W P ls1 s
    && Interleaved.quiet W P ls2 (Interleaved.run W P ls1 s).
Proof.
  revert s. induction ls1 as [|l ls1 IH]; intros s; [reflexivity|].
  cbn. rewrite IH. now rewrite andb_assoc.
Qed.

Lemma sent_without_error_app (tr1 tr2 : list (Event * State)) :
  Interleaved.sent_without_error tr1 -> Interleaved.sent_without_error tr2 ->
  Interleaved.sent_without_error (tr1 ++ tr2).
Proof. apply Forall_app_2. Qed.

Lemma run_spec (P : Props) (W : World) (ls : list Interleaved.Label)
    (s : Interleaved.Sys) :
  Interleaved.engine_threads P s ->
  let s' := Interleaved.run W P ls s in
  Interleaved.engine_threads P s'
  /\ (forall i x,
        Interleaved.pool s !! i = Some x ->
        forallb (Interleaved.others i) ls = true ->
        Interleaved.pool s' !! i = Some x)
  /\ (Interleaved.quiet W P ls s = true ->
      error (store (Interleaved.config s)) = "" ->
      error (store (Interleaved.config s')) = "")
  /\ (Interleaved.sent_without_error (trace (Interleaved.config s)) ->
      Interleaved.sent_without_error (trace (Interleaved.config s'))).
Proof.
  revert s. induction ls as [|l ls IH]; intros s Hinv; cbn zeta.
  - cbn. repeat split; auto.
  - destruct (step_spec P W s l Hinv)
      as (Hinv1 & Hframe1 & Hquiet1 & Htrace1 & _).
    destruct (IH _ Hinv1) as (Hinv2 & Hframe2 & Hquiet2 & Htrace2).
    cbn [Interleaved.run]. split; [exact Hinv2|]. split; [|split].
    + intros i x Hi Ho. cbn [forallb] in Ho.
      apply andb_prop in Ho as [Hl Hls].
      apply Hframe2; [|exact Hls]. now apply Hframe1.
    + intros Hq He. cbn [Interleaved.quiet] in Hq.
      apply andb_prop in Hq as [Hl Hls].
      apply Hquiet2; [exact Hls|]. apply Hquiet1; [|exact He].
      now apply negb_true_iff.
    + intros Hsent. apply Htrace2.
      destruct Htrace1 as (evs & -> & Hevs).
      now apply sent_without_error_app.
Qed.

Lemma boot_threads (P : Props) : Interleaved.engine_threads P Interleaved.boot.
Proof. constructor. Qed.

Lemma reachable_threads (P : Props) (W : World) (ls : list Interleaved.Label) :
  Interleaved.engine_threads P (Interleaved.run W P ls Interleaved.boot).
Proof. apply run_spec, boot_threads. Qed.

(** ** An operation from its start to the end of its request *)

(** An operation that starts a request clears the error, sends the request
    and is parked in the slot it was given. *)
Lemma start_spec (P : Props) (W : World) (s : Interleaved.Sys) (a : Action) :
  Interleaved.starts_request W P s a = true ->
  let s' := Interleaved.step W P (Interleaved.User a) s in
  Interleaved.pool s'
  = Interleaved.pool s
    ++ [Some (Interleaved.first_await
                (Interleaved.handler P a (store (Interleaved.config s))))]
  /\ error (store (Interleaved.config s')) = ""
  /\ exists ev st,
       Interleaved.awaited s' (length (Interleaved.pool s)) = Some ev
       /\ last (trace (Interleaved.config s')) = Some (ev, st)
       /\ error st = "".
Proof.
  intros Hstart. cbv zeta. unfold Interleaved.awaited, Interleaved.step.
  set (r := store (Interleaved.config s)).
  destruct a as [|n v t ch| |entity|entity|]; try discriminate Hstart;
    cbn [Interleaved.handler].
  - cbn. rewrite insert_new_slot, lookup_new_slot.
    split; [reflexivity|]. split; [reflexivity|].
    eexists _, _. rewrite last_snoc. repeat split.
  - unfold Interleaved.handleSubmit. destruct (isEditing r); cbn;
      rewrite insert_new_slot, lookup_new_slot;
      (split; [reflexivity|]); (split; [reflexivity|]);
      eexists _, _; rewrite last_snoc; repeat split.
  - cbn in Hstart. unfold delete_prompt in Hstart.
    unfold Interleaved.handleDelete. cbn. rewrite Hstart. cbn.
    rewrite insert_new_slot, lookup_new_slot.
    split; [reflexivity|]. split; [reflexivity|].
    eexists _, _. rewrite last_snoc. repeat split.
Qed.

(** The [fetch] of an operation rejects: the operation ends with its
    failure message. *)
Lemma failure_at_fetch (P : Props) (W : World) (s : Interleaved.Sys)
    (i : nat) (a : Action) (r : State) (e : Error) :
  Interleaved.is_operation a = true ->
  Interleaved.pool s !! i
  = Some (Some (Interleaved.first_await (Interleaved.handler P a r))) ->
  error (store (Interleaved.config
                  (Interleaved.step W P (Interleaved.Settle i (inl e)) s)))
  = Interleaved.failure_message P a e.
Proof.
  intros Hop Hi. unfold Interleaved.step. rewrite Hi.
  destruct a as [|n v t ch| |entity0|entity|]; try discriminate Hop;
    cbn [Interleaved.handler].
  - reflexivity.
  - unfold Interleaved.handleSubmit. destruct (isEditing r); reflexivity.
  - reflexivity.
Qed.

(** The [fetch] of an operation resolves: the operation waits for the body,
    and nothing else has changed. *)
Lemma response_at_fetch (P : Props) (W : World) (s : Interleaved.Sys)
    (i : nat) (a : Action) (r : State) (response : Response) :
  Interleaved.is_operation a = true ->
  Interleaved.pool s !! i
  = Some (Some (Interleaved.first_await (Interleaved.handler P a r))) ->
  let s' := Interleaved.step W P (Interleaved.Settle i (inr response)) s in
  Interleaved.config s' = Interleaved.config s
  /\ Interleaved.pool s' !! i
     = Some (Some (Interleaved.after_response
                     (Interleaved.first_await (Interleaved.handler P a r))
                     response)).
Proof.
  intros Hop Hi. cbv zeta. unfold Interleaved.step. rewrite Hi.
  apply lookup_lt_Some in Hi as Hlt.
  destruct a as [|n v t ch| |entity0|entity|]; try discriminate Hop;
    cbn [Interleaved.handler].
  - cbn. split; [reflexivity|]. now apply list_lookup_insert_eq.
  - unfold Interleaved.handleSubmit. destruct (isEditing r); cbn;
      (split; [reflexivity|]); now apply list_lookup_insert_eq.
  - cbn. split; [reflexivity|]. now apply list_lookup_insert_eq.
Qed.

(** The body of the response makes [apiCall] throw: the operation ends with
    its failure message. *)
Lemma failure_at_body (P : Props) (W : World) (s : Interleaved.Sys)
    (i : nat) (a : Action) (r : State) (response : Response) (e : Error) :
  Interleaved.is_operation a = true ->
  Interleaved.pool s !! i
  = Some (Some (Interleaved.after_response
                  (Interleaved.first_await (Interleaved.handler P a r))
                  response)) ->
  api_completion (inr response) = inl e ->
  error (store (Interleaved.config
                  (Interleaved.step W P (Interleaved.Resume i) s)))
  = Interleaved.failure_message P a e.
Proof.
  intros Hop Hi. unfold Interleaved.step. rewrite Hi. clear Hi.
  destruct a as [|n v t ch| |entity0|entity|]; try discriminate Hop;
    cbn [Interleaved.handler].
  - cbn. body_outcome response; intros He; try discriminate He;
      injection He as <-; reflexivity.
  - unfold Interleaved.handleSubmit. destruct (isEditing r); cbn;
      body_outcome response; intros He; try discriminate He;
      injection He as <-; reflexivity.
  - cbn. body_outcome response; intros He; try discriminate He;
      injection He as <-; reflexivity.
Qed.

Lemma in_flight_at_fetch (P : Props) (s : Interleaved.Sys) (i : nat)
    (a : Action) (r : State) :
  Interleaved.is_operation a = true ->
  Interleaved.pool s !! i
  = Some (Some (Interleaved.first_await (Interleaved.handler P a r))) ->
  Interleaved.in_flight s i = true.
Proof.
  intros Hop Hi. unfold Interleaved.in_flight. rewrite Hi.
  destruct a as [|n v t ch| |entity0|entity|]; try discriminate Hop;
    cbn [Interleaved.handler]; try reflexivity.
  unfold Interleaved.handleSubmit. destruct (isEditing r); reflexivity.
Qed.

Lemma in_flight_at_body (P : Props) (s : Interleaved.Sys) (i : nat)
    (a : Action) (r : State) (response : Response) :
  Interleaved.is_operation a = true ->
  Interleaved.pool s !! i
  = Some (Some (Interleaved.after_response
                  (Interleaved.first_await (Interleaved.handler P a r))
                  response)) ->
  Interleaved.in_flight s i = true.
Proof.
  intros Hop Hi. unfold Interleaved.in_flight. rewrite Hi.
  destruct a as [|n v t ch| |entity0|entity|]; try discriminate Hop;
    cbn [Interleaved.handler]; try reflexivity.
  unfold Interleaved.handleSubmit. destruct (isEditing r); reflexivity.
Qed.

(** A slot that waits for a request holds an operation of the engine, and
    the method of the request tells which. *)
Lemma awaited_thread (P : Props) (s : Interleaved.Sys) (i : nat)
    (m u : string) (b : option (gmap string value)) :
  Interleaved.engine_threads P s ->
  Interleaved.awaited s i = Some (EvFetch m u b) ->
  exists (a : Action) (r : State),
    Interleaved.is_operation a = true
    /\ Interleaved.pool s !! i
       = Some (Some (Interleaved.first_await (Interleaved.handler P a r)))
    /\ forall e : Error,
         Interleaved.failure_message P a e = Interleaved.failure_text P m e.
Proof.
  intros Hinv Hev. unfold Interleaved.awaited in Hev.
  destruct (Interleaved.pool s !! i) as [[q|]|] eqn:Hi; try discriminate Hev.
  pose proof (proj1 (Forall_lookup _ _) Hinv i _ Hi) as Hq.
  destruct Hq as [Hq|(a & r & Hop & [Hq|(resp & Hq)])]; [discriminate Hq| |];
    injection Hq as ->.
  - exists a, r. split; [exact Hop|]. split; [reflexivity|].
    destruct a as [|n v t ch| |entity0|entity|]; try discriminate Hop;
      cbn [Interleaved.handler] in Hev.
    + cbn in Hev. injection Hev as <- <- <-. reflexivity.
    + unfold Interleaved.handleSubmit in Hev.
      destruct (isEditing r); cbn in Hev; injection Hev as <- <- <-;
        reflexivity.
    + cbn in Hev. injection Hev as <- <- <-. reflexivity.
  - destruct a as [|n v t ch| |entity0|entity|]; try discriminate Hop;
      cbn [Interleaved.handler] in Hev.
    + cbn in Hev. discriminate Hev.
    + unfold Interleaved.handleSubmit in Hev.
      destruct (isEditing r); cbn in Hev; discriminate Hev.
    + cbn in Hev. discriminate Hev.
Qed.

(** The request each operation sends. *)
Lemma operation_requests (P : Props) (W : World) (s : Interleaved.Sys) :
  let i := length (Interleaved.pool s) in
  let r := store (Interleaved.config s) in
  Interleaved.awaited (Interleaved.step W P (Interleaved.User Mount) s) i
  = Some (EvFetch "GET" (API_BASE_URL +:+ endpoint P) None)
  /\ Interleaved.awaited (Interleaved.step W P (Interleaved.User Submit) s) i
     = Some (EvFetch (submit_method r) (API_BASE_URL +:+ submit_endpoint P r)
               (Some (formData r)))
  /\ forall entity : gmap string value,
       confirm_answer W (history (Interleaved.config s)) (delete_prompt P)
       = true ->
       Interleaved.awaited
         (Interleaved.step W P (Interleaved.User (Delete entity)) s) i
       = Some (EvFetch "DELETE" (API_BASE_URL +:+ delete_endpoint P entity)
                 None).
Proof.
  cbv zeta. unfold Interleaved.awaited, Interleaved.step.
  cbn [Interleaved.handler]. split; [|split].
  - cbn. now rewrite insert_new_slot, lookup_new_slot.
  - unfold Interleaved.handleSubmit, submit_method, submit_endpoint.
    destruct (isEditing (store (Interleaved.config s))); cbn;
      now rewrite insert_new_slot, lookup_new_slot.
  - intros entity Hyes. unfold delete_prompt in Hyes.
    unfold Interleaved.handleDelete, delete_endpoint. cbn. rewrite Hyes. cbn.
    now rewrite insert_new_slot, lookup_new_slot.
Qed.

(** C9 (as amended).  Every request the component ever sends leaves a
    state whose [error] is empty; the fetch, a submit and a delete that the
    user confirms each send one.  Whenever a step sends a request, be it
    an operation the user starts or the fetch that follows a successful
    submit or delete, [error] is empty after the step, whatever it held
    before.  While the request is in flight, whatever the user does and
    whichever other requests settle, [error] stays empty as long as no
    operation is told that its request has failed; this holds until the
    response and its body have arrived.  When the request fails, because
    the [fetch] rejects or because of the body that arrives, [error] is the
    failure message of the operation, with the message of this failure. *)
Theorem error_is_empty_until_a_request_fails (P : Props) (W : World) :
  (forall ls : list Interleaved.Label,
     Interleaved.sent_without_error
       (trace (Interleaved.config (Interleaved.run W P ls Interleaved.boot))))
  /\ (forall s : Interleaved.Sys,
        let i := length (Interleaved.pool s) in
        let r := store (Interleaved.config s) in
        Interleaved.awaited (Interleaved.step W P (Interleaved.User Mount) s) i
        = Some (EvFetch "GET" (API_BASE_URL +:+ endpoint P) None)
        /\ Interleaved.awaited
             (Interleaved.step W P (Interleaved.User Submit) s) i
           = Some (EvFetch (submit_method r)
                     (API_BASE_URL +:+ submit_endpoint P r)
                     (Some (formData r)))
        /\ forall entity : gmap string value,
             confirm_answer W (history (Interleaved.config s))
               (delete_prompt P) = true ->
             Interleaved.awaited
               (Interleaved.step W P (Interleaved.User (Delete entity)) s) i
             = Some (EvFetch "DELETE"
                       (API_BASE_URL +:+ delete_endpoint P entity) None))
  /\ forall (before : list Interleaved.Label) (l : Interleaved.Label)
       (m u : string) (b : option (gmap string value)),
       let s0 := Interleaved.run W P before Interleaved.boot in
       let i := length (Interleaved.pool s0) in
       let s1 := Interleaved.step W P l s0 in
       Interleaved.awaited s1 i = Some (EvFetch m u b) ->
       (error (store (Interleaved.config s1)) = ""
        /\ exists st,
             last (trace (Interleaved.config s1)) = Some (EvFetch m u b, st)
             /\ error st = "")
       /\ forall ls : list Interleaved.Label,
            forallb (Interleaved.others i) ls = true ->
            let s2 := Interleaved.run W P ls s1 in
            Interleaved.in_flight s2 i = true
            /\ (Interleaved.quiet W P ls s1 = true ->
                error (store (Interleaved.config s2)) = "")
            /\ (forall e : Error,
                  error (store (Interleaved.config
                                  (Interleaved.step W P
                                     (Interleaved.Settle i (inl e)) s2)))
                  = Interleaved.failure_text P m e)
            /\ forall (response : Response) (ls' : list Interleaved.Label),
                 forallb (Interleaved.others i) ls' = true ->
                 let s3 :=
                   Interleaved.run W P ls'
                     (Interleaved.step W P
                        (Interleaved.Settle i (inr response)) s2) in
                 Interleaved.in_flight s3 i = true
                 /\ (Interleaved.quiet W P
                       (ls ++ Interleaved.Settle i (inr response) :: ls') s1
                     = true ->
                     error (store (Interleaved.config s3)) = "")
                 /\ forall e : Error,
                      api_completion (inr response) = inl e ->
                      error (store (Interleaved.config
                                      (Interleaved.step W P
                                         (Interleaved.Resume i) s3)))
                      = Interleaved.failure_text P m e.
Proof.
  split; [|split].
  - intros ls. apply run_spec; [apply boot_threads|constructor].
  - intros s. apply operation_requests.
  - intros before l m u b s0 i s1 Hsent.
    pose proof (reachable_threads P W before) as Hinv0. fold s0 in Hinv0.
    destruct (step_spec P W s0 l Hinv0) as (Hinv1 & _ & _ & _ & Hstart).
    fold s1 in Hinv1, Hstart. fold i in Hstart.
    destruct (awaited_thread P s1 i m u b Hinv1 Hsent)
      as (a & r0 & Hop & Hslot & Htext).
    split; [exact (Hstart _ Hsent)|].
    destruct (Hstart _ Hsent) as (Herr & _).
    intros ls Hls s2.
    destruct (run_spec P W ls s1 Hinv1) as (Hinv2 & Hframe2 & Hquiet2 & _).
    fold s2 in Hinv2, Hframe2, Hquiet2.
    pose proof (Hframe2 _ _ Hslot Hls) as Hslot2.
    split; [now apply (in_flight_at_fetch P s2 i a r0 Hop)|].
    split; [intros Hq; now apply Hquiet2|].
    split; [intros e; rewrite <- Htext;
            now apply (failure_at_fetch P W s2 i a r0 e Hop)|].
    intros response ls' Hls' s3.
    destruct (response_at_fetch P W s2 i a r0 response Hop Hslot2)
      as (Hconf & Hslot2').
    destruct (step_spec P W s2 (Interleaved.Settle i (inr response)) Hinv2)
      as (Hinv2' & _).
    destruct (run_spec P W ls' _ Hinv2') as (Hinv3 & Hframe3 & Hquiet3 & _).
    fold s3 in Hinv3, Hframe3, Hquiet3.
    pose proof (Hframe3 _ _ Hslot2' Hls') as Hslot3.
    split; [now apply (in_flight_at_body P s3 i a r0 response Hop)|].
    split; [|intros e He; rewrite <- Htext;
             now apply (failure_at_body P W s3 i a r0 response e Hop)].
    intros Hq. rewrite quiet_app in Hq. apply andb_prop in Hq as [Hq1 Hq2].
    fold s2 in Hq2. cbn [Interleaved.quiet] in Hq2.
    apply andb_prop in Hq2 as [_ Hq2].
    apply Hquiet3; [exact Hq2|]. rewrite Hconf. now apply Hquiet2.
Qed.

(** The body of a list response arrives and [apiCall] returns: the records
    are replaced and [loading] is lowered. *)
Lemma list_at_body (P : Props) (W : World) (s : Interleaved.Sys) (i : nat)
    (r : State) (response : Response) (data : value) :
  Interleaved.pool s !! i
  = Some (Some (Interleaved.after_response
                  (Interleaved.first_await (Interleaved.handler P Mount r))
                  response)) ->
  api_completion (inr response) = inr data ->
  Interleaved.config (Interleaved.step W P (Interleaved.Resume i) s)
  = mkConfig
      (with_loading false (with_entities data (store (Interleaved.config s))))
      (trace (Interleaved.config s)).
Proof.
  intros Hi. unfold Interleaved.step. rewrite Hi. clear Hi. cbn.
  body_outcome response; intros He; try discriminate He;
    injection He as <-; reflexivity.
Qed.

(** X17.  Nothing ties a response to the state it was requested in.  From
    the moment [fetchEntities] has sent its request, whatever the user does
    and whichever other requests are sent and answered in the meantime, the
    response that arrives replaces the records by its body and lowers
    [loading]: a list that was requested first and arrives last overwrites
    the newer one. *)
Theorem late_list_response_overwrites_records (P : Props) (W : World)
    (before ls : list Interleaved.Label) (response : Response) (data : value) :
  let s0 := Interleaved.run W P before Interleaved.boot in
  let i := length (Interleaved.pool s0) in
  let s2 :=
    Interleaved.run W P ls (Interleaved.step W P (Interleaved.User Mount) s0) in
  let s3 :=
    Interleaved.run W P
      [Interleaved.Settle i (inr response); Interleaved.Resume i] s2 in
  forallb (Interleaved.others i) ls = true ->
  api_completion (inr response) = inr data ->
  store (Interleaved.config s3)
  = with_loading false (with_entities data (store (Interleaved.config s2)))
  /\ trace (Interleaved.config s3) = trace (Interleaved.config s2)
  /\ Interleaved.in_flight s3 i = false.
Proof.
  intros s0 i s2 s3 Hls Hdata.
  pose proof (reachable_threads P W before) as Hinv0. fold s0 in Hinv0.
  destruct (start_spec P W s0 Mount eq_refl) as (Hpool & _).
  destruct (step_spec P W s0 (Interleaved.User Mount) Hinv0) as (Hinv1 & _).
  destruct (run_spec P W ls _ Hinv1) as (Hinv2 & Hframe2 & _).
  fold s2 in Hinv2, Hframe2.
  set (r0 := store (Interleaved.config s0)) in *.
  assert (Hslot2 : Interleaved.pool s2 !! i
                   = Some (Some (Interleaved.first_await
                                   (Interleaved.handler P Mount r0)))).
  { apply Hframe2; [|exact Hls]. rewrite Hpool. apply lookup_new_slot. }
  destruct (response_at_fetch P W s2 i Mount r0 response eq_refl Hslot2)
    as (Hconf & Hbody).
  pose proof (list_at_body P W _ i r0 response data Hbody Hdata) as Hend.
  subst s3. cbn [Interleaved.run]. rewrite Hend, Hconf. cbn [store trace].
  split; [reflexivity|]. split; [reflexivity|].
  unfold Interleaved.in_flight, Interleaved.step at 1. rewrite Hbody. cbn.
  revert Hdata. body_outcome response; intros He; try discriminate He;
    cbn; apply lookup_lt_Some in Hbody; now rewrite list_lookup_insert_eq.
Qed.

End InterleavedFacts.

(** ** The theorems at work, and where the specification departs *)

(** C1 at work: the composite-key delete of scenario B, and an update of a
    RawMaterialCost record after its identifier fields were retyped. *)
Lemma identifier_path_witness :
  (exists rest,
     requests
       (new_events initial_config
          (snd (handleDelete StoreLimitManager store_limit_record
                  agreeable_world initial_config)))
     = EvFetch "DELETE"
         "http://localhost:5000/api/store_limits/PRD003/LOC004" None :: rest)
  /\ (let c1 :=
        run_actions RawMaterialCostManager
          [ Edit raw_material_cost_record;
            InputChange "product_id" "PRD999" "text" false ]
          agreeable_world initial_config in
      exists rest,
        requests
          (new_events c1
             (snd (handleSubmit RawMaterialCostManager (store c1)
                     agreeable_world c1)))
        = EvFetch "PUT"
            (API_BASE_URL +:+ endpoint RawMaterialCostManager +:+ "/" +:+
             identifier_path RawMaterialCostManager raw_material_cost_record)
            (Some (formData (store c1))) :: rest
        /\ (rest = []
            \/ rest = [EvFetch "GET"
                         (API_BASE_URL +:+ endpoint RawMaterialCostManager)
                         None])).
Proof.
  pose proof (@identifier_path_in_declared_order sample_runtime)
    as (_ & Hput & _ & _ & _ & Hb).
  split.
  - apply Hb; reflexivity.
  - apply (Hput RawMaterialCostManager agreeable_world initial_config
             raw_material_cost_record
             [InputChange "product_id" "PRD999" "text" false]);
      reflexivity.
Defined.



(** C3 at work: the network is down at mount. *)
Lemma fetch_failure_witness :
  let c' := snd (fetchEntities SupplierManager offline_world initial_config) in
  entities (store c') = entities (store initial_config)
  /\ error (store c') = "Failed to fetch Suppliers: Failed to fetch"
  /\ loading (store c') = false.
Proof.
  apply (proj2 (proj2 (proj2 (@fetchEntities_failure_keeps_records
                                sample_runtime SupplierManager offline_world
                                initial_config)))
           (mkError "TypeError" "Failed to fetch")).
  reflexivity.
Defined.

(** C4 at work: scenario A. *)
Lemma scenario_A_witness :
  requests
    (new_events supplier_form
       (snd (handleSubmit SupplierManager (store supplier_form)
               agreeable_world supplier_form)))
  = [ EvFetch "POST" "http://localhost:5000/api/suppliers" (Some supplier_draft);
      EvFetch "GET" "http://localhost:5000/api/suppliers" None ].
Proof.
  apply (proj2 (@submit_success_resets_and_refetches sample_runtime)
           agreeable_world supplier_form (VArr []));
    reflexivity.
Defined.

(** C5 at work: scenario C. *)
Lemma rejected_submit_witness :
  let c' :=
    snd (handleSubmit SupplierManager (store supplier_form) duplicate_world
           supplier_form) in
  formData (store c') = supplier_draft
  /\ isEditing (store c') = false
  /\ error (store c') = "Failed to save Supplier: duplicate".
Proof.
  pose proof (@rejected_submit_keeps_draft sample_runtime SupplierManager
                duplicate_world supplier_form 409
                {[ "error" := VStr "duplicate" ]} eq_refl eq_refl eq_refl)
    as (Hdraft & Hmode & _ & _ & _ & _ & Herr & _).
  repeat split; assumption.
Defined.

(** C5, the claim as stated, fails: the error shown after the rejected submit
    of scenario C is not the bare message of the backend. *)
Lemma rejected_submit_error_is_prefixed :
  let c' :=
    snd (handleSubmit SupplierManager (store supplier_form) duplicate_world
           supplier_form) in
  error (store c') = "Failed to save Supplier: duplicate"
  /\ ~ (formData (store c') = supplier_draft
        /\ error (store c') = "duplicate"
        /\ isEditing (store c') = false).
Proof.
  cbv zeta. split; [reflexivity|].
  intros (_ & H & _). vm_compute in H. discriminate H.
Qed.

(** X16 at work: the date of the specification's example. *)
Lemma date_normalization_witness :
  fst (handleEdit RawMaterialCostManager raw_material_cost_record
         agreeable_world initial_config) = Returned tt
  /\ get (formData
            (store (snd (handleEdit RawMaterialCostManager
                           raw_material_cost_record agreeable_world
                           initial_config))))
       "effective_date"
     = VStr "2024-03-05".
Proof.
  apply (proj2 (proj2 (@date_fields_are_normalized_to_the_UTC_date
                         sample_runtime))
           agreeable_world initial_config raw_material_cost_record).
  reflexivity.
Defined.

(** C7.  [handleEdit] misses the format that its own comment promises.  On
    every runtime and whatever else the record holds, a RawMaterialCost
    record whose [effective_date] is the ISO-8601 timestamp
    [9999-12-31T23:00:00-02:00] is accepted, and its draft gets
    [+010000-01-01]: the instant lies in the year 10000 of UTC, which
    [toISOString] writes with a sign and six digits. *)
Lemma late_timestamp_is_not_normalized_to_date_only (rt : JSRuntime)
    (W : World) (c : Config) (rest : gmap string value) :
  let entity :=
    <["effective_date" := VStr "9999-12-31T23:00:00-02:00"]> rest in
  let c' := snd (handleEdit RawMaterialCostManager entity W c) in
  fst (handleEdit RawMaterialCostManager entity W c) = Returned tt
  /\ get (formData (store c')) "effective_date" = VStr "+010000-01-01"
  /\ ESDate.is_date_only "+010000-01-01" = false.
Proof.
  cbv zeta. rewrite handleEdit_run.
  cbn [formFields RawMaterialCostManager forEach_field].
  unfold text_field, number_field, normalize_date_field.
  cbn [type name String.eqb Ascii.eqb Bool.eqb andb].
  assert (Hget : get (<["effective_date" := VStr "9999-12-31T23:00:00-02:00"]>
                        rest) "effective_date"
                 = VStr "9999-12-31T23:00:00-02:00")
    by (unfold get; now rewrite lookup_insert_eq).
  rewrite !Hget.
  assert (Hiso : Date_toISOString (new_Date (VStr "9999-12-31T23:00:00-02:00"))
                 = inr "+010000-01-01T01:00:00.000Z")
    by (vm_compute; reflexivity).
  rewrite Hiso.
  change (ToBoolean (VStr "9999-12-31T23:00:00-02:00")) with true.
  cbv iota.
  assert (Hsplit : first_element
                     (ESDate.String_split "T" "+010000-01-01T01:00:00.000Z")
                   = VStr "+010000-01-01")
    by (vm_compute; reflexivity).
  rewrite Hsplit.
  split; [reflexivity|]. split; [|vm_compute; reflexivity].
  cbn [snd store edit_state formData with_formData with_isEditing with_editId
         with_editIdentifier].
  unfold get. now rewrite lookup_insert_eq.
Qed.

(** C8 at work: the rejection of scenario C, as the adapter reports it. *)
Lemma apiCall_failure_witness :
  apiCall "/suppliers" "POST" (Some supplier_draft) duplicate_world
    initial_config
  = (Threw (mkError "Error" "duplicate"),
     mkConfig initialState
       [ (EvFetch "POST" "http://localhost:5000/api/suppliers"
            (Some supplier_draft), initialState);
         (EvConsoleError
            "API Call Error (POST http://localhost:5000/api/suppliers):"
            (mkError "Error" "duplicate"), initialState) ]).
Proof.
  apply (proj1 (@apiCall_failure_is_logged_then_thrown sample_runtime
                  duplicate_world initial_config "/suppliers" "POST"
                  (Some supplier_draft))
           (mkResponse 409 (inr (VObj {[ "error" := VStr "duplicate" ]})))
           (VObj {[ "error" := VStr "duplicate" ]}) (VStr "duplicate"));
    reflexivity.
Defined.

(** C8, the claim as stated, fails.  On an error response whose body is
    [null] the adapter fails with the engine's [TypeError], which is neither
    an [error] field of the body nor the fallback message; and on an error
    response whose [error] field is present but empty it fails with the
    fallback message, not with the field. *)
Lemma error_body_without_message :
  fst (apiCall "/suppliers" "GET" None null_body_world initial_config)
  = Threw (mkError "TypeError"
             "Cannot read properties of null (reading 'error')")
  /\ mkError "TypeError" "Cannot read properties of null (reading 'error')"
     <> mkError "Error" "Something went wrong"
  /\ fst (apiCall "/suppliers" "GET" None empty_error_world initial_config)
     = Threw (mkError "Error" "Something went wrong")
  /\ "Something went wrong" <> "".
Proof. repeat split; try reflexivity; discriminate. Qed.

(** C9 at work.  The list has loaded; a submit fails and its error is shown;
    the user confirms the delete of a record, which empties the error; it
    stays empty while the user types; then the delete fails in its turn.
    And the fetch that follows a successful submit is an attempt like any
    other: when it fails, the error is its message. *)
Lemma error_in_flight_witness :
  let offline := mkError "TypeError" "Failed to fetch" in
  let listed := mkResponse 200 (inr (VArr [VObj store_limit_record])) in
  let created := mkResponse 201 (inr (VObj supplier_draft)) in
  let s0 :=
    Interleaved.run agreeable_world StoreLimitManager
      ([Interleaved.User Mount; Interleaved.Settle 0 (inr listed);
        Interleaved.Resume 0]
       ++ List.map Interleaved.User store_limit_typing
       ++ [Interleaved.User Submit; Interleaved.Settle 5 (inl offline)])
      Interleaved.boot in
  let s1 :=
    Interleaved.step agreeable_world StoreLimitManager
      (Interleaved.User (Delete store_limit_record)) s0 in
  let s2 :=
    Interleaved.run agreeable_world StoreLimitManager
      [Interleaved.User (InputChange "max_limit" "250" "number" false)] s1 in
  let t1 :=
    Interleaved.run agreeable_world SupplierManager
      (List.map Interleaved.User supplier_typing
       ++ [Interleaved.User Submit; Interleaved.Settle 3 (inr created);
           Interleaved.Resume 3])
      Interleaved.boot in
  (error (store (Interleaved.config s0))
   = "Failed to save Store Limit: Failed to fetch"
   /\ error (store (Interleaved.config s1)) = ""
   /\ Interleaved.in_flight s2 6 = true
   /\ error (store (Interleaved.config s2)) = ""
   /\ error (store (Interleaved.config
                      (Interleaved.step agreeable_world StoreLimitManager
                         (Interleaved.Settle 6 (inl offline)) s2)))
      = "Failed to delete Store Limit: Failed to fetch")
  /\ Interleaved.awaited t1 4
     = Some (EvFetch "GET" "http://localhost:5000/api/suppliers" None)
  /\ error (store (Interleaved.config
                     (Interleaved.step agreeable_world SupplierManager
                        (Interleaved.Settle 4 (inl offline)) t1)))
     = "Failed to fetch Suppliers: Failed to fetch".
Proof.
  cbv zeta. split; [|split; [vm_compute; reflexivity|]].
  - destruct (proj2 (proj2 (@error_is_empty_until_a_request_fails
                              sample_runtime StoreLimitManager
                              agreeable_world))
                ([Interleaved.User Mount;
                  Interleaved.Settle 0
                    (inr (mkResponse 200
                            (inr (VArr [VObj store_limit_record]))));
                  Interleaved.Resume 0]
                 ++ List.map Interleaved.User store_limit_typing
                 ++ [Interleaved.User Submit;
                     Interleaved.Settle 5
                       (inl (mkError "TypeError" "Failed to fetch"))])
                (Interleaved.User (Delete store_limit_record))
                "DELETE" "http://localhost:5000/api/store_limits/PRD003/LOC004"
                None ltac:(vm_compute; reflexivity))
      as [[Hstart _] Hrest].
    destruct (Hrest
                [Interleaved.User
                   (InputChange "max_limit" "250" "number" false)]
                ltac:(vm_compute; reflexivity))
      as (Hflight & Hquiet & Hfail & _).
    split; [vm_compute; reflexivity|].
    split; [vm_cast_no_check Hstart|].
    split; [vm_cast_no_check Hflight|].
    split; [vm_cast_no_check (Hquiet ltac:(vm_compute; reflexivity))|].
    vm_cast_no_check (Hfail (mkError "TypeError" "Failed to fetch")).
  - destruct (proj2 (proj2 (@error_is_empty_until_a_request_fails
                              sample_runtime SupplierManager agreeable_world))
                (List.map Interleaved.User supplier_typing
                 ++ [Interleaved.User Submit;
                     Interleaved.Settle 3
                       (inr (mkResponse 201 (inr (VObj supplier_draft))))])
                (Interleaved.Resume 3)
                "GET" "http://localhost:5000/api/suppliers" None
                ltac:(vm_compute; reflexivity))
      as [_ Hrest].
    destruct (Hrest [] ltac:(vm_compute; reflexivity)) as (_ & _ & Hfail & _).
    vm_cast_no_check (Hfail (mkError "TypeError" "Failed to fetch")).
Defined.

(** C9, the claim as stated, fails: the list is still loading when the user
    submits the form, and the list request fails while the submit is in
    flight.  The [POST] is in flight and [error] is not empty. *)
Lemma error_shown_while_a_request_is_in_flight :
  let s :=
    Interleaved.run agreeable_world SupplierManager
      ([Interleaved.User Mount]
       ++ List.map Interleaved.User supplier_typing
       ++ [Interleaved.User Submit;
           Interleaved.Settle 0 (inl (mkError "TypeError" "Failed to fetch"))])
      Interleaved.boot in
  Interleaved.awaited s 4
  = Some (EvFetch "POST" "http://localhost:5000/api/suppliers"
            (Some supplier_draft))
  /\ Interleaved.in_flight s 4 = true
  /\ error (store (Interleaved.config s))
     = "Failed to fetch Suppliers: Failed to fetch"
  /\ error (store (Interleaved.config s)) <> "".
Proof.
  cbv zeta. split; [vm_compute; reflexivity|].
  split; [vm_compute; reflexivity|]. split; [vm_compute; reflexivity|].
  vm_compute. discriminate.
Qed.

(** C10 at work: the user declines. *)
Lemma declined_delete_witness :
  let c' :=
    snd (handleDelete StoreLimitManager store_limit_record declining_world
           initial_config) in
  store c' = store initial_config /\ requests (new_events initial_config c') = [].
Proof.
  pose proof (@declined_delete_changes_nothing sample_runtime StoreLimitManager
                declining_world initial_config store_limit_record eq_refl)
    as (_ & Hstore & _ & Hreq).
  split; assumption.
Defined.

(** * Further properties of the engine *)

Section MoreEngineFacts.
Context {rt : JSRuntime}.

Ltac trace_norm :=
  rewrite <- ?List.app_assoc; rewrite new_events_app; simpl.

Lemma run_actions_app (P : Props) (W : World) (acts1 acts2 : list Action)
    (c : Config) :
  run_actions P (acts1 ++ acts2) W c
  = run_actions P acts2 W (run_actions P acts1 W c).
Proof.
  revert c. induction acts1 as [|a acts1 IH]; intros c; [reflexivity|].
  simpl. apply IH.
Qed.

Lemma State_eq (s1 s2 : State) :
  entities s1 = entities s2 -> formData s1 = formData s2 ->
  loading s1 = loading s2 -> error s1 = error s2 ->
  isEditing s1 = isEditing s2 -> editId s1 = editId s2 ->
  editIdentifier s1 = editIdentifier s2 ->
  s1 = s2.
Proof. destruct s1, s2. cbn. congruence. Qed.

(** What a run of input changes leaves in the draft. *)
Lemma typing_draft (P : Props) (W : World) (inputs : list Action)
    (c : Config) (k : string) :
  forallb is_InputChange inputs = true ->
  formData (store (run_actions P inputs W c)) !! k
  = match last_typed inputs k with
    | Some v => Some v
    | None => formData (store c) !! k
    end.
Proof.
  revert c. induction inputs as [|a inputs IH]; intros c Hin.
  - reflexivity.
  - cbn [forallb] in Hin. apply andb_prop in Hin as [Ha Hin].
    destruct a as [|n v t ch| | | |]; try discriminate Ha.
    cbn [run_actions]. unfold dispatch. rewrite handleInputChange_run.
    cbn [snd]. rewrite (IH _ Hin). cbn [last_typed store].
    destruct (last_typed inputs k); [reflexivity|].
    cbn [formData with_formData].
    destruct (String.eqb_spec n k) as [->|Hne].
    + now rewrite lookup_insert_eq.
    + now rewrite lookup_insert_ne.
Qed.

(** The cells a run of input changes never writes. *)
Lemma typing_keeps_the_rest (P : Props) (W : World) (inputs : list Action)
    (c : Config) :
  forallb is_InputChange inputs = true ->
  let c' := run_actions P inputs W c in
  entities (store c') = entities (store c)
  /\ loading (store c') = loading (store c)
  /\ error (store c') = error (store c)
  /\ editId (store c') = editId (store c).
Proof.
  revert c. induction inputs as [|a inputs IH]; intros c Hin; cbn zeta.
  - repeat split.
  - cbn [forallb] in Hin. apply andb_prop in Hin as [Ha Hin].
    destruct a as [|n v t ch| | | |]; try discriminate Ha.
    cbn [run_actions]. unfold dispatch. rewrite handleInputChange_run.
    cbn [snd].
    match goal with
    | |- context [run_actions P inputs W ?c1] =>
        destruct (IH c1 Hin) as (He & Hl & Herr & Hid)
    end.
    rewrite He, Hl, Herr, Hid. repeat split.
Qed.

(** X1.  Typing into the form changes the draft and nothing else: after any
    run of input changes each input holds what was typed into it last, an
    input that was not touched holds what it held, and the records, the
    flags, the mode, the captured identifier and the trace are those of
    before. *)
Theorem input_changes_keep_last_typed (P : Props) (W : World)
    (inputs : list Action) (c : Config) :
  forallb is_InputChange inputs = true ->
  let c' := run_actions P inputs W c in
  (forall k : string,
     formData (store c') !! k
     = match last_typed inputs k with
       | Some v => Some v
       | None => formData (store c) !! k
       end)
  /\ entities (store c') = entities (store c)
  /\ loading (store c') = loading (store c)
  /\ error (store c') = error (store c)
  /\ isEditing (store c') = isEditing (store c)
  /\ editId (store c') = editId (store c)
  /\ editIdentifier (store c') = editIdentifier (store c)
  /\ trace c' = trace c.
Proof.
  intros Hin. cbn zeta.
  destruct (typing_keeps_the_rest P W inputs c Hin) as (He & Hl & Herr & Hid).
  destruct (input_changes_touch_the_draft_only P W inputs c Hin)
    as (Hmode & Hcap & Htr).
  split; [intros k; now apply typing_draft|].
  repeat split; assumption.
Qed.

(** One turn of the loop of [handleEdit] throws nothing but the
    [RangeError] of an invalid date. *)
Lemma normalize_date_field_throws (m : gmap string value) (f : FieldSpec)
    (e : Error) :
  normalize_date_field m f = inl e ->
  e = mkError "RangeError" invalid_time_message /\ rejected_date m f.
Proof.
  unfold normalize_date_field, rejected_date.
  destruct (String.eqb_spec (type f) "date") as [Hty|]; [|discriminate].
  destruct (ToBoolean (get m (name f))) eqn:Htruthy; [|discriminate].
  cbn [andb].
  destruct (new_Date (get m (name f))) as [t|]; cbn [Date_toISOString];
    [discriminate|].
  intros [= <-]. auto.
Qed.

Lemma normalize_date_field_rejected (m : gmap string value) (f : FieldSpec) :
  rejected_date m f ->
  normalize_date_field m f = inl (mkError "RangeError" invalid_time_message).
Proof.
  intros (Hty & Htruthy & Hdate). unfold normalize_date_field.
  now rewrite Hty, Htruthy, Hdate.
Qed.

(** A rejected date further down the form is still there after a turn of the
    loop that did not throw. *)
Lemma rejected_date_survives (m m1 : gmap string value) (g f : FieldSpec) :
  normalize_date_field m g = inr m1 ->
  rejected_date m f ->
  rejected_date m1 f.
Proof.
  intros Hstep (Hty & Htruthy & Hdate).
  destruct (normalize_date_field_frame m m1 g Hstep) as [_ Hframe].
  assert (Hsame : m1 !! name f = m !! name f).
  { destruct (String.eqb_spec (name f) (name g)) as [Heq|Hne].
    - destruct (String.eqb (type g) "date") eqn:Hg.
      + exfalso. apply String.eqb_eq in Hg.
        rewrite (normalize_date_field_rejected m g) in Hstep; [discriminate|].
        unfold rejected_date. now rewrite <- Heq.
      + apply Hframe. now right.
    - apply Hframe. now left. }
  unfold rejected_date. now rewrite (get_of_lookup _ _ _ Hsame).
Qed.

Lemma forEach_field_rejected (fields : list FieldSpec) (m : gmap string value) :
  (exists f, f ∈ fields /\ rejected_date m f) ->
  forEach_field fields m = inl (mkError "RangeError" invalid_time_message).
Proof.
  revert m. induction fields as [|g fields IH]; intros m (f & Hf & Hbad).
  - now apply not_elem_of_nil in Hf.
  - cbn [forEach_field].
    destruct (normalize_date_field m g) as [e|m1] eqn:Hstep.
    + now apply normalize_date_field_throws in Hstep as [-> _].
    + apply IH. exists f. split; [|now apply (rejected_date_survives m m1 g)].
      apply elem_of_cons in Hf as [->|Hf]; [|exact Hf].
      rewrite (normalize_date_field_rejected m g Hbad) in Hstep.
      discriminate.
Qed.

(** X2.  [handleEdit] is all or nothing.  When some date field of the record
    holds a non-empty value that [new Date] rejects, it throws the
    [RangeError] of [toISOString] and leaves the state and the trace exactly
    as they were: Edit mode is not entered.  It returns exactly when
    [new Date] accepts every non-empty date field. *)
Theorem handleEdit_rejected_date_changes_nothing (P : Props) (W : World)
    (c : Config) (entity : gmap string value) :
  ((exists f, f ∈ formFields P /\ rejected_date entity f) ->
   handleEdit P entity W c
   = (Threw (mkError "RangeError" invalid_time_message), c))
  /\ (fst (handleEdit P entity W c) = Returned tt
      <-> dates_accepted (formFields P) entity).
Proof.
  split.
  - intros Hbad. rewrite handleEdit_run.
    now rewrite (forEach_field_rejected _ _ Hbad).
  - split.
    + intros Hret f Hf Hty Htruthy Hdate.
      rewrite handleEdit_run in Hret.
      rewrite (forEach_field_rejected (formFields P) entity) in Hret;
        [discriminate|].
      exists f. unfold rejected_date. auto.
    + intros Hok.
      destruct (forEach_field_normalizes P entity Hok) as (m & Hloop & _).
      rewrite handleEdit_run, Hloop. reflexivity.
Qed.

(** X3.  A successful [handleEdit] sends no request: its one effect is the
    scroll to the top.  It enters Edit mode, takes [_id] of the record as
    [editId], and leaves the records, the loading flag and the error shown
    as they were; and the draft it builds is the same whatever the form held
    before. *)
Theorem handleEdit_overwrites_the_form (P : Props) (W : World) (c : Config)
    (entity : gmap string value) :
  fst (handleEdit P entity W c) = Returned tt ->
  let c' := snd (handleEdit P entity W c) in
  isEditing (store c') = true
  /\ editId (store c') = get entity "_id"
  /\ entities (store c') = entities (store c)
  /\ loading (store c') = loading (store c)
  /\ error (store c') = error (store c)
  /\ List.map fst (new_events c c') = [EvScrollTo]
  /\ requests (new_events c c') = []
  /\ forall (W0 : World) (c0 : Config),
       formData (store (snd (handleEdit P entity W0 c0)))
       = formData (store c').
Proof.
  rewrite !handleEdit_run.
  destruct (forEach_field (formFields P) entity) as [e|m] eqn:Hloop;
    [discriminate|].
  intros _. cbn zeta. cbn [snd store trace].
  rewrite new_events_app.
  repeat split. intros W0 c0. rewrite handleEdit_run, Hloop. reflexivity.
Qed.

(** X4.  Editing and cancelling is a round trip: from a form that is empty,
    in Add mode and shows no error, an edit of a record, any typing and a
    cancel give back the very state of before, and no request was sent. *)
Theorem edit_then_cancel_restores_the_form (P : Props) (W : World)
    (c : Config) (entity : gmap string value) (inputs : list Action) :
  pristine (store c) ->
  forallb is_InputChange inputs = true ->
  let c' := run_actions P (Edit entity :: inputs ++ [CancelEdit]) W c in
  store c' = store c /\ requests (new_events c c') = [].
Proof.
  intros (Hdraft & Hmode & Hid & Hcap & Herr) Hin. cbn zeta.
  cbn [run_actions]. rewrite run_actions_app. cbn [run_actions].
  set (c1 := snd (dispatch P (Edit entity) W c)).
  destruct (typing_keeps_the_rest P W inputs c1 Hin) as (He & Hl & _ & _).
  destruct (input_changes_touch_the_draft_only P W inputs c1 Hin)
    as (_ & _ & Htr).
  change (snd (dispatch P CancelEdit W (run_actions P inputs W c1)))
    with (mkConfig
            (with_error "" (form_reset (store (run_actions P inputs W c1))))
            (trace (run_actions P inputs W c1))).
  cbn [store trace].
  assert (Hc1 : entities (store c1) = entities (store c)
                /\ loading (store c1) = loading (store c)
                /\ (trace c1 = trace c
                    \/ exists s, trace c1 = trace c ++ [(EvScrollTo, s)])).
  { subst c1. unfold dispatch. rewrite handleEdit_run.
    destruct (forEach_field _ _); cbn [snd store trace]; eauto 6. }
  destruct Hc1 as (He1 & Hl1 & Htr1).
  split.
  - apply State_eq; cbn; congruence.
  - unfold new_events. cbn [trace]. rewrite Htr.
    destruct Htr1 as [->|(s & ->)].
    + now rewrite drop_all.
    + now rewrite drop_app_length.
Qed.



(** X6.  A confirmed delete whose request fails changes nothing but the
    error: the records, the loading flag and the whole form are those of
    before, the error is [Failed to delete <entity>: <message>], the delete
    is the only request, and no success alert is shown. *)
Theorem failed_delete_changes_only_the_error (P : Props) (W : World)
    (c : Config) (entity : gmap string value) (e : Error) :
  let prompt :=
    "Are you sure you want to delete this " +:+ entityName P +:+ "?" in
  let url := API_BASE_URL +:+ endpoint P +:+ "/" +:+ identifier_path P entity in
  let c' := snd (handleDelete P entity W c) in
  confirm_answer W (history c) prompt = true ->
  fst (apiCall (endpoint P +:+ "/" +:+ identifier_path P entity) "DELETE" None W
         (mkConfig (with_error "" (store c))
            (trace c ++ [(EvConfirm prompt, store c)]))) = Threw e ->
  store c'
  = with_error ("Failed to delete " +:+ entityName P +:+ ": " +:+ err_message e)
      (store c)
  /\ requests (new_events c c') = [EvFetch "DELETE" url None]
  /\ Forall (fun es => forall msg, fst es <> EvAlert msg) (new_events c c').
Proof.
  cbv zeta. intros Hyes Hfail.
  apply apiCall_threw in Hfail. rewrite history_app in Hfail.
  fold (history c) in Hfail.
  rewrite handleDelete_run. cbv zeta. cbn [snd].
  unfold delete_prompt, delete_endpoint. rewrite Hyes, record_path, Hfail.
  cbn [store trace]. split; [|split].
  - apply State_eq; reflexivity.
  - trace_norm. reflexivity.
  - trace_norm. repeat constructor; intros msg; discriminate.
Qed.

(** X7.  A delete never touches the form, whatever the user answers and
    however the requests end: the draft, the mode, [editId] and the captured
    identifier stay.  When the delete succeeds, the success alert is shown
    and the run continues as [fetchEntities], so that one list request
    follows the delete. *)
Theorem delete_keeps_the_form_and_refetches (P : Props) (W : World)
    (c : Config) (entity : gmap string value) :
  let prompt :=
    "Are you sure you want to delete this " +:+ entityName P +:+ "?" in
  let url := API_BASE_URL +:+ endpoint P +:+ "/" +:+ identifier_path P entity in
  let s1 := with_error "" (store c) in
  let c' := snd (handleDelete P entity W c) in
  (formData (store c') = formData (store c)
   /\ isEditing (store c') = isEditing (store c)
   /\ editId (store c') = editId (store c)
   /\ editIdentifier (store c') = editIdentifier (store c))
  /\ (forall v : value,
        confirm_answer W (history c) prompt = true ->
        fst (apiCall (endpoint P +:+ "/" +:+ identifier_path P entity) "DELETE"
               None W
               (mkConfig s1 (trace c ++ [(EvConfirm prompt, store c)])))
        = Returned v ->
        c' = snd (fetchEntities P W
                    (mkConfig s1
                       (trace c ++
                        [(EvConfirm prompt, store c);
                         (EvFetch "DELETE" url None, s1);
                         (EvAlert (entityName P +:+ " deleted successfully!"),
                          s1)])))
        /\ requests (new_events c c')
           = [EvFetch "DELETE" url None;
              EvFetch "GET" (API_BASE_URL +:+ endpoint P) None]).
Proof.
  cbv zeta. rewrite handleDelete_run. cbv zeta. cbn [snd].
  unfold delete_prompt, delete_endpoint. rewrite record_path.
  split.
  - destruct (confirm_answer _ _ _); [|repeat split].
    destruct (api_completion _); [repeat split|].
    match goal with
    | |- context [fetchEntities P W ?c0] =>
        destruct (fetchEntities_keeps_form P W c0) as (H1 & H2 & H3 & H4)
    end.
    rewrite H1, H2, H3, H4. repeat split.
  - intros v Hyes Hok. apply apiCall_returned in Hok.
    rewrite history_app in Hok. fold (history c) in Hok.
    rewrite Hyes, Hok. clear Hok.
    rewrite <- !List.app_assoc. cbn [List.app].
    split; [reflexivity|].
    rewrite fetchEntities_run. cbn [snd store trace].
    destruct (api_completion _); trace_norm; reflexivity.
Qed.

(** X8.  A submit whose request fails, for whatever reason, changes nothing
    but the error: the draft, the mode, the captured identifier, the records
    and the loading flag are kept, the error is
    [Failed to save <entity>: <message>], no success alert is shown and no
    list request follows. *)
Theorem failed_submit_changes_only_the_error (P : Props) (W : World)
    (c : Config) (e : Error) :
  let r := store c in
  let c' := snd (handleSubmit P r W c) in
  fst (apiCall (submit_endpoint P r) (submit_method r) (Some (formData r)) W
         (mkConfig (with_error "" (store c))
            (trace c ++ [(EvPreventDefault, store c)]))) = Threw e ->
  store c'
  = with_error ("Failed to save " +:+ entityName P +:+ ": " +:+ err_message e)
      (store c)
  /\ requests (new_events c c')
     = [EvFetch (submit_method r) (API_BASE_URL +:+ submit_endpoint P r)
          (Some (formData r))]
  /\ Forall (fun es => forall msg, fst es <> EvAlert msg) (new_events c c').
Proof.
  cbv zeta. intros Hfail.
  apply apiCall_threw in Hfail. rewrite history_app in Hfail.
  fold (history c) in Hfail.
  rewrite handleSubmit_run. cbv zeta. cbn [snd]. rewrite Hfail.
  cbn [store trace]. split; [|split].
  - apply State_eq; reflexivity.
  - trace_norm. reflexivity.
  - trace_norm. repeat constructor; intros msg; discriminate.
Qed.

(** X9.  When the list request succeeds, [fetchEntities] replaces the records
    wholesale by the parsed body, whatever it is, clears the error, lowers
    the loading flag and leaves the form alone; the list request is its only
    effect. *)
Theorem fetchEntities_success_replaces_records (P : Props) (W : World)
    (c : Config) (data : value) :
  let s1 := with_error "" (with_loading true (store c)) in
  let c' := snd (fetchEntities P W c) in
  fst (apiCall (endpoint P) "GET" None W (mkConfig s1 (trace c)))
  = Returned data ->
  store c' = with_loading false (with_entities data (with_error "" (store c)))
  /\ new_events c c'
     = [(EvFetch "GET" (API_BASE_URL +:+ endpoint P) None, s1)].
Proof.
  cbv zeta. intros Hok. apply apiCall_returned in Hok.
  change (history {| store := with_error "" (with_loading true (store c));
                     trace := trace c |}) with (history c) in Hok.
  rewrite fetchEntities_run. cbv zeta. cbn [snd]. rewrite Hok.
  cbn [store trace]. split; [apply State_eq; reflexivity|].
  apply new_events_app.
Qed.

(** X10.  The transport adapter is stateless and sends exactly one request
    per call, whatever the outcome: the component's state after the call is
    the one before, the one request goes to the base URL followed by the
    endpoint with the given method and body, and how the call completes does
    not depend on the component's state. *)
Theorem apiCall_sends_one_request_and_keeps_the_state (W : World) (c : Config)
    (ep method : string) (data : option (gmap string value)) :
  let c' := snd (apiCall ep method data W c) in
  store c' = store c
  /\ requests (new_events c c')
     = [EvFetch method ("http://localhost:5000/api" +:+ ep) data]
  /\ forall s : State,
       fst (apiCall ep method data W (mkConfig s (trace c)))
       = fst (apiCall ep method data W c).
Proof.
  cbv zeta. rewrite apiCall_run. cbv zeta.
  split; [|split].
  - destruct (api_completion _); reflexivity.
  - destruct (api_completion _); cbn [snd]; trace_norm; reflexivity.
  - intros s. rewrite apiCall_run. cbv zeta.
    change (history {| store := s; trace := trace c |}) with (history c).
    destruct (api_completion _); reflexivity.
Qed.

Lemma slash_joined_cons (a b : string) (l : list string) :
  slash_joined (a :: b :: l) = a +:+ "/" +:+ slash_joined (b :: l).
Proof. reflexivity. Qed.

Lemma slash_joined_empty_segments (n : nat) :
  slash_joined (List.repeat "" n) = slashes (n - 1).
Proof.
  destruct n as [|n]; [reflexivity|].
  cbn [Nat.sub]. rewrite Nat.sub_0_r.
  induction n as [|n IH]; [reflexivity|].
  change (List.repeat "" (S (S n))) with ("" :: "" :: List.repeat "" n).
  rewrite slash_joined_cons.
  change ("" :: List.repeat "" n) with (List.repeat "" (S n)).
  rewrite IH. reflexivity.
Qed.

(** X11.  An identifier value that is missing from the record, or is [null],
    leaves an empty segment in the path: a record without any of its
    identifier values is addressed by slashes alone.  With the default, empty
    list of identifier fields the path is empty, so that a confirmed delete
    of any record goes to the collection URL followed by a slash. *)
Theorem missing_identifiers_leave_empty_segments :
  (forall (P : Props) (r : gmap string value),
     Forall (fun f => nullish (get r f) = true) (uniqueIdentifierFields P) ->
     identifier_path P r
     = slashes (length (uniqueIdentifierFields P) - 1))
  /\ (forall (P : Props) (W : World) (c : Config) (r : gmap string value),
        uniqueIdentifierFields P = [] ->
        confirm_answer W (history c)
          ("Are you sure you want to delete this " +:+ entityName P +:+ "?")
        = true ->
        exists rest,
          requests (new_events c (snd (handleDelete P r W c)))
          = EvFetch "DELETE" (API_BASE_URL +:+ endpoint P +:+ "/") None :: rest).
Proof.
  split.
  - intros P r Hall. unfold identifier_path.
    rewrite <- slash_joined_empty_segments. f_equal.
    induction Hall as [|f fs Hf _ IH]; [reflexivity|].
    cbn [List.map length List.repeat]. rewrite IH. f_equal.
    destruct (get r f); try discriminate Hf; reflexivity.
  - intros P W c r Hnone Hyes.
    destruct (confirmed_delete_requests P W c r Hyes) as (rest & Hreq & _).
    exists rest. rewrite Hreq. unfold identifier_path. rewrite Hnone.
    reflexivity.
Qed.


(** A calendar date written [YYYY-MM-DD] denotes midnight UTC of that
    date. *)
Lemma new_Date_calendar_date (d : string) :
  ESDate.is_calendar_date d = true ->
  exists t : Z, new_Date (VStr d) = Some t /\ ESDate.date_string t = d.
Proof.
  intros Hd.
  unfold ESDate.is_calendar_date in Hd. apply andb_prop in Hd as [Hshape Hd].
  set (tf := ESDate.mkTime 0 0 0 0 (Some 0)).
  destruct (ESDateFacts.timestamp_fields d "00:00Z" tf Hshape eq_refl)
    as (y & m & day & Hdate & _ & Hwritten & Hy).
  rewrite Hdate in Hd.
  assert (Hfields :
    ESDate.valid_fields (ESDate.mkDate y m day (Some tf)) = true).
  { unfold ESDate.valid_fields in *.
    cbn [ESDate.df_year ESDate.df_month ESDate.df_day ESDate.df_time] in *.
    rewrite andb_true_r in Hd. now rewrite Hd. }
  destruct (ESDateFacts.utc_timestamp_date y m day tf Hy Hfields)
    as [Hclip Hstring]; [cbn; lia|cbn; lia|].
  exists (ESDate.fields_time (ESDate.mkDate y m day None)).
  change (ESDate.fields_time (ESDate.mkDate y m day (Some tf)))
    with (ESDate.fields_time (ESDate.mkDate y m day None)) in Hclip, Hstring.
  split; [|now rewrite Hstring].
  unfold new_Date, Date_parse. rewrite Hdate, Hd. cbn [ESDate.df_time].
  cbn [mbind option_bind]. exact Hclip.
Qed.

(** A loop that changes nothing at any of its turns changes nothing. *)
Lemma forEach_field_stable (fields : list FieldSpec) (m : gmap string value) :
  (forall f, f ∈ fields -> normalize_date_field m f = inr m) ->
  forEach_field fields m = inr m.
Proof.
  induction fields as [|f fields IH]; intros Hall; [reflexivity|].
  cbn [forEach_field]. rewrite (Hall f) by apply list_elem_of_here.
  apply IH. intros g Hg. apply Hall. now apply list_elem_of_further.
Qed.

Lemma normalize_date_field_written (m : gmap string value) (f : FieldSpec)
    (t : Z) :
  type f = "date" ->
  get m (name f) = VStr (ESDate.date_string t) ->
  m !! name f = Some (VStr (ESDate.date_string t)) ->
  new_Date (VStr (ESDate.date_string t)) = Some t
  \/ -8640000000000000 <= t <= 8640000000000000 ->
  normalize_date_field m f = inr m.
Proof.
  intros Hty Hget Hm Ht.
  assert (exists t', new_Date (VStr (ESDate.date_string t)) = Some t'
                     /\ ESDate.date_string t' = ESDate.date_string t)
    as (t' & Hdate & Hsame).
  { destruct Ht as [Ht|Ht].
    - eauto.
    - exists (ESDate.Day t * ESDate.msPerDay). split.
      + now apply new_Date_date_string.
      + apply ESDateFacts.date_string_Day, ESDateFacts.Day_of_midnight. }
  rewrite (normalize_date_field_date m f t' Hty).
  - rewrite Hsame. now rewrite insert_id.
  - rewrite Hget. cbn [ToBoolean].
    now rewrite ESDateFacts.date_string_not_empty.
  - now rewrite Hget.
Qed.

(** X12.  When every date field of the record is empty or already holds a
    calendar date written [YYYY-MM-DD], [handleEdit] succeeds and the draft
    is the record itself, field for field.  This is so for every record on
    the six pages whose form has no date field. *)
Theorem edit_of_plain_dates_copies_the_record :
  (forall (P : Props) (W : World) (c : Config) (entity : gmap string value),
     (forall f, f ∈ formFields P -> type f = "date" -> date_kept entity f) ->
     fst (handleEdit P entity W c) = Returned tt
     /\ formData (store (snd (handleEdit P entity W c))) = entity)
  /\ (forall (P : Props) (W : World) (c : Config) (entity : gmap string value),
        P ∈ all_pages -> P <> RawMaterialCostManager ->
        fst (handleEdit P entity W c) = Returned tt
        /\ formData (store (snd (handleEdit P entity W c))) = entity).
Proof.
  assert (Hgen :
    forall (P : Props) (W : World) (c : Config) (entity : gmap string value),
     (forall f, f ∈ formFields P -> type f = "date" -> date_kept entity f) ->
     fst (handleEdit P entity W c) = Returned tt
     /\ formData (store (snd (handleEdit P entity W c))) = entity).
  { intros P W c entity Hkept.
    assert (Hloop : forEach_field (formFields P) entity = inr entity).
    { apply forEach_field_stable. intros f Hf.
      destruct (String.eqb_spec (type f) "date") as [Hty|Hty].
      - destruct (Hkept f Hf Hty) as [Hfalsy|(d & Hget & Hd)].
        + apply normalize_date_field_skip. rewrite Hfalsy. apply andb_false_r.
        + destruct (new_Date_calendar_date d Hd) as (t & Hdate & Hwritten).
          rewrite <- Hwritten in Hget, Hdate.
          apply (normalize_date_field_written entity f t Hty Hget); [|now left].
          unfold get in Hget. destruct (entity !! name f) as [v|] eqn:Hv;
            cbn in Hget; [now rewrite Hget|discriminate].
      - apply normalize_date_field_skip.
        apply String.eqb_neq in Hty. now rewrite Hty. }
    rewrite handleEdit_run, Hloop. split; reflexivity. }
  split; [exact Hgen|].
  intros P W c entity Hpage Hother. apply Hgen.
  intros f Hf Hty. exfalso.
  unfold all_pages in Hpage.
  repeat (apply elem_of_cons in Hpage as [->|Hpage]);
    try (now apply Hother);
    try (now apply not_elem_of_nil in Hpage);
    cbn [formFields ProductManager LocationManager InventoryManager
         StoreLimitManager SupplierManager TransportationRouteManager] in Hf;
    repeat (apply elem_of_cons in Hf as [->|Hf]); try discriminate Hty;
    now apply not_elem_of_nil in Hf.
Qed.

(** X13.  The normalization of [handleEdit] is idempotent: the draft that a
    successful [handleEdit] builds from a record is a record that
    [handleEdit] accepts in its turn, and whose draft is itself. *)
Theorem handleEdit_normalization_is_idempotent (P : Props) (W : World)
    (c : Config) (entity : gmap string value) :
  fst (handleEdit P entity W c) = Returned tt ->
  let draft := formData (store (snd (handleEdit P entity W c))) in
  forall (W0 : World) (c0 : Config),
    fst (handleEdit P draft W0 c0) = Returned tt
    /\ formData (store (snd (handleEdit P draft W0 c0))) = draft.
Proof.
  intros Hret.
  assert (Hok : dates_accepted (formFields P) entity).
  { intros f Hf Hty Htruthy Hdate.
    rewrite handleEdit_run in Hret.
    rewrite (forEach_field_rejected (formFields P) entity) in Hret;
      [discriminate|].
    exists f. unfold rejected_date. auto. }
  destruct (forEach_field_invariant entity (formFields P) [] entity)
    as (m & Hloop & Hinv); [|exact Hok|].
  { intros k. left. split; [reflexivity|].
    intros Hin. now apply not_elem_of_nil in Hin. }
  cbn [List.app] in Hinv. cbn zeta.
  rewrite handleEdit_run, Hloop. cbn [snd store formData edit_state
    with_editIdentifier with_editId with_isEditing with_formData].
  intros W0 c0.
  assert (Hagain : forEach_field (formFields P) m = inr m).
  { apply forEach_field_stable. intros f Hf.
    destruct (String.eqb_spec (type f) "date") as [Hty|Hty].
    2:{ apply normalize_date_field_skip.
        apply String.eqb_neq in Hty. now rewrite Hty. }
    assert (Hin : name f ∈ date_field_names (formFields P)).
    { unfold date_field_names. apply list_elem_of_fmap. exists f.
      split; [reflexivity|]. apply list_elem_of_In, List.filter_In.
      split; [now apply list_elem_of_In|]. now apply String.eqb_eq. }
    destruct (Hinv (name f)) as [[Hsame Hfalsy]|[_ (t & _ & Hdate & Hm)]].
    - apply normalize_date_field_skip.
      rewrite (get_of_lookup _ _ _ Hsame), (Hfalsy Hin). apply andb_false_r.
    - apply (normalize_date_field_written m f t Hty); [now apply get_Some|
        exact Hm|].
      right. now apply (new_Date_range (get entity (name f))). }
  rewrite handleEdit_run, Hagain. split; reflexivity.
Qed.

(** X14.  The form locks nothing in Add mode.  In Edit mode, on each of the
    seven pages, it locks exactly one input, the [idField], which is the
    first identifier field; the identifier fields after the first, on the
    pages with a composite key, stay open to typing.  The form fields of a
    page have distinct names. *)
Theorem edit_mode_locks_the_first_identifier_only :
  (forall (P : Props) (f : FieldSpec), input_disabled P false f = false)
  /\ (forall P : Props,
        P ∈ all_pages ->
        List.map name (List.filter (input_disabled P true) (formFields P))
        = [idField P]
        /\ head (uniqueIdentifierFields P) = Some (idField P)
        /\ List.map name
             (List.filter
                (fun f => negb (input_disabled P true f)
                          && bool_decide (name f ∈ uniqueIdentifierFields P))
                (formFields P))
           = tail (uniqueIdentifierFields P)
        /\ NoDup (List.map name (formFields P))).
Proof.
  split.
  - intros P f. unfold input_disabled.
    destruct (String.eqb _ "select"); [reflexivity|].
    destruct (String.eqb _ "textarea"); reflexivity.
  - intros P Hpage. unfold all_pages in Hpage.
    repeat (apply elem_of_cons in Hpage as [->|Hpage]);
      try (now apply not_elem_of_nil in Hpage);
      (split; [reflexivity|split; [reflexivity|split; [reflexivity|]]]);
      apply (bool_decide_unpack _); vm_compute; exact I.
Qed.


(** X15.  The adapter parses the body before it looks at the status, so a
    successful response without a JSON body fails the operation: a confirmed
    delete answered with a success status and a body that does not parse
    ends with the error [Failed to delete <entity>: <message of the parse
    error>], and the list is not fetched again. *)
Theorem delete_fails_on_success_without_json (P : Props) (W : World)
    (c : Config) (entity : gmap string value) (response : Response)
    (e : Error) :
  let prompt :=
    "Are you sure you want to delete this " +:+ entityName P +:+ "?" in
  let url := API_BASE_URL +:+ endpoint P +:+ "/" +:+ identifier_path P entity in
  let c' := snd (handleDelete P entity W c) in
  confirm_answer W (history c) prompt = true ->
  fetch_answer W (history c ++ [EvConfirm prompt]) "DELETE" url None
  = inr response ->
  ok response = true ->
  json response = inl e ->
  store c'
  = with_error ("Failed to delete " +:+ entityName P +:+ ": " +:+ err_message e)
      (store c)
  /\ requests (new_events c c') = [EvFetch "DELETE" url None].
Proof.
  cbv zeta. intros Hyes Hans Hok Hjson.
  rewrite handleDelete_run. cbv zeta. cbn [snd].
  unfold delete_prompt, delete_endpoint. rewrite Hyes, record_path, Hans.
  unfold api_completion. rewrite Hjson. cbn [store trace].
  split; [apply State_eq; reflexivity|]. trace_norm. reflexivity.
Qed.

End MoreEngineFacts.

(** ** The further properties at work *)

(** X1 at work: an input typed into twice holds the second value. *)
Lemma last_typed_witness :
  let c' := run_actions SupplierManager retyping agreeable_world initial_config in
  formData (store c') !! "supplier_id" = Some (VStr "SUP002")
  /\ formData (store c') !! "contact_email" = None
  /\ trace c' = [].
Proof.
  pose proof (@input_changes_keep_last_typed sample_runtime SupplierManager
                agreeable_world retyping initial_config eq_refl)
    as (Hdraft & _ & _ & _ & _ & _ & _ & Htrace).
  split; [apply (Hdraft "supplier_id")|].
  split; [apply (Hdraft "contact_email")|exact Htrace].
Defined.

(** X2 at work: a record whose date is not a date cannot be edited. *)
Lemma rejected_date_witness :
  handleEdit RawMaterialCostManager undated_record agreeable_world
    initial_config
  = (Threw (mkError "RangeError" "Invalid time value"), initial_config).
Proof.
  apply (proj1 (@handleEdit_rejected_date_changes_nothing sample_runtime
                  RawMaterialCostManager agreeable_world initial_config
                  undated_record)).
  exists (mkField "effective_date" "Effective Date" "date" None true [] None).
  split.
  - cbn [formFields RawMaterialCostManager]. do 4 apply list_elem_of_further.
    apply list_elem_of_here.
  - repeat split.
Defined.

(** X3 at work: an edit while an error is shown. *)
Lemma edit_keeps_the_error_witness :
  let stale :=
    mkConfig (with_error "Failed to save Raw Material Cost: duplicate"
                initialState) [] in
  let c' :=
    snd (handleEdit RawMaterialCostManager raw_material_cost_record
           agreeable_world stale) in
  isEditing (store c') = true
  /\ editId (store c') = VStr "665f1c2ab7e4a90012d3f002"
  /\ error (store c') = "Failed to save Raw Material Cost: duplicate"
  /\ requests (new_events stale c') = [].
Proof.
  pose proof (@handleEdit_overwrites_the_form sample_runtime
                RawMaterialCostManager agreeable_world
                (mkConfig (with_error "Failed to save Raw Material Cost: duplicate"
                             initialState) [])
                raw_material_cost_record eq_refl)
    as (Hmode & Hid & _ & _ & Herr & _ & Hreq & _).
  repeat split; assumption.
Defined.

(** X4 at work: edit, type, cancel. *)
Lemma edit_then_cancel_witness :
  store (run_actions StoreLimitManager
           (Edit store_limit_record
            :: [InputChange "max_limit" "250" "number" false] ++ [CancelEdit])
           agreeable_world initial_config)
  = initialState.
Proof.
  apply (@edit_then_cancel_restores_the_form sample_runtime StoreLimitManager
           agreeable_world initial_config store_limit_record
           [InputChange "max_limit" "250" "number" false]).
  - repeat split.
  - reflexivity.
Defined.


(** X6 at work: a delete while the network is down. *)
Lemma failed_delete_witness :
  let c' :=
    snd (handleDelete StoreLimitManager store_limit_record offline_world
           initial_config) in
  store c'
  = with_error "Failed to delete Store Limit: Failed to fetch" initialState
  /\ requests (new_events initial_config c')
     = [EvFetch "DELETE"
          "http://localhost:5000/api/store_limits/PRD003/LOC004" None].
Proof.
  pose proof (@failed_delete_changes_only_the_error sample_runtime
                StoreLimitManager offline_world initial_config
                store_limit_record (mkError "TypeError" "Failed to fetch")
                eq_refl eq_refl)
    as (Hstore & Hreq & _).
  split; [exact Hstore|exact Hreq].
Defined.

(** X7 at work: a delete that succeeds. *)
Lemma delete_refetch_witness :
  requests
    (new_events initial_config
       (snd (handleDelete StoreLimitManager store_limit_record agreeable_world
               initial_config)))
  = [ EvFetch "DELETE"
        "http://localhost:5000/api/store_limits/PRD003/LOC004" None;
      EvFetch "GET" "http://localhost:5000/api/store_limits" None ].
Proof.
  apply (proj2 (@delete_keeps_the_form_and_refetches sample_runtime
                  StoreLimitManager agreeable_world initial_config
                  store_limit_record) (VArr []) eq_refl eq_refl).
Defined.

(** X8 at work: a submit while the network is down. *)
Lemma failed_submit_witness :
  store (snd (handleSubmit SupplierManager (store supplier_form) offline_world
                supplier_form))
  = with_error "Failed to save Supplier: Failed to fetch" (store supplier_form).
Proof.
  apply (@failed_submit_changes_only_the_error sample_runtime SupplierManager
           offline_world supplier_form (mkError "TypeError" "Failed to fetch")).
  reflexivity.
Defined.

(** X9 at work: the list arrives. *)
Lemma fetch_success_witness :
  store (snd (fetchEntities SupplierManager agreeable_world initial_config))
  = with_loading false (with_entities (VArr []) (with_error "" initialState)).
Proof.
  apply (@fetchEntities_success_replaces_records sample_runtime SupplierManager
           agreeable_world initial_config (VArr [])).
  reflexivity.
Defined.

(** X11 at work: a StoreLimit record without its two identifier values, and
    a page without identifier fields. *)
Lemma empty_segments_witness :
  identifier_path StoreLimitManager anonymous_record = "/"
  /\ exists rest,
       requests
         (new_events initial_config
            (snd (handleDelete keyless_page supplier_record agreeable_world
                    initial_config)))
       = EvFetch "DELETE" "http://localhost:5000/api/notes/" None :: rest.
Proof.
  pose proof (@missing_identifiers_leave_empty_segments sample_runtime)
    as [Hpath Hdefault].
  split.
  - apply (Hpath StoreLimitManager anonymous_record).
    repeat constructor.
  - apply (Hdefault keyless_page agreeable_world initial_config supplier_record);
      reflexivity.
Defined.

(** X12 at work: a record whose date is already a calendar date. *)
Lemma plain_date_witness :
  formData
    (store (snd (handleEdit RawMaterialCostManager plain_date_record
                   agreeable_world initial_config)))
  = plain_date_record.
Proof.
  apply (proj1 (@edit_of_plain_dates_copies_the_record sample_runtime)
           RawMaterialCostManager agreeable_world initial_config
           plain_date_record).
  intros f Hf Hty.
  cbn [formFields RawMaterialCostManager] in Hf.
  repeat (apply elem_of_cons in Hf as [->|Hf]); try discriminate Hty.
  - right. exists "2024-03-05". split; reflexivity.
  - now apply not_elem_of_nil in Hf.
Defined.

(** X13 at work: the draft of the specification's example, edited again. *)
Lemma idempotent_normalization_witness :
  let draft :=
    formData
      (store (snd (handleEdit RawMaterialCostManager raw_material_cost_record
                     agreeable_world initial_config))) in
  formData
    (store (snd (handleEdit RawMaterialCostManager draft agreeable_world
                   initial_config)))
  = draft.
Proof.
  apply (@handleEdit_normalization_is_idempotent sample_runtime
           RawMaterialCostManager agreeable_world initial_config
           raw_material_cost_record eq_refl agreeable_world initial_config).
Defined.

(** X15 at work: a delete answered with [204 No Content]. *)
Lemma no_content_delete_witness :
  let c' :=
    snd (handleDelete StoreLimitManager store_limit_record no_content_world
           initial_config) in
  store c'
  = with_error "Failed to delete Store Limit: Unexpected end of JSON input"
      initialState
  /\ requests (new_events initial_config c')
     = [EvFetch "DELETE"
          "http://localhost:5000/api/store_limits/PRD003/LOC004" None].
Proof.
  apply (@delete_fails_on_success_without_json sample_runtime StoreLimitManager
           no_content_world initial_config store_limit_record
           (mkResponse 204
              (inl (mkError "SyntaxError" "Unexpected end of JSON input")))
           (mkError "SyntaxError" "Unexpected end of JSON input"));
    reflexivity.
Defined.

(** X14 at work: the StoreLimit form in Edit mode locks [product_id] and
    leaves [location_id], the second half of the key, open. *)
Lemma locked_input_witness :
  List.map name
    (List.filter (input_disabled StoreLimitManager true)
       (formFields StoreLimitManager))
  = ["product_id"]
  /\ List.map name
       (List.filter
          (fun f => negb (input_disabled StoreLimitManager true f)
                    && bool_decide
                         (name f ∈ uniqueIdentifierFields StoreLimitManager))
          (formFields StoreLimitManager))
     = ["location_id"].
Proof.
  destruct (proj2 edit_mode_locks_the_first_identifier_only StoreLimitManager)
    as (Hlocked & _ & Hopen & _).
  - cbn [all_pages]. do 3 apply list_elem_of_further. apply list_elem_of_here.
  - split; [exact Hlocked|exact Hopen].
Defined.

(** X17 at work: the list is still loading when the user adds a supplier;
    the new list, fetched after the submit, arrives first and shows the
    supplier; then the response of the first request arrives and the table
    is empty again. *)
Lemma stale_list_witness :
  let created := mkResponse 201 (inr (VObj supplier_draft)) in
  let new_list := mkResponse 200 (inr (VArr [VObj supplier_record])) in
  let old_list := mkResponse 200 (inr (VArr [])) in
  let s2 :=
    Interleaved.run agreeable_world SupplierManager
      (List.map Interleaved.User supplier_typing
       ++ [Interleaved.User Submit;
           Interleaved.Settle 4 (inr created); Interleaved.Resume 4;
           Interleaved.Settle 5 (inr new_list); Interleaved.Resume 5])
      (Interleaved.step agreeable_world SupplierManager
         (Interleaved.User Mount) Interleaved.boot) in
  let s3 :=
    Interleaved.run agreeable_world SupplierManager
      [Interleaved.Settle 0 (inr old_list); Interleaved.Resume 0] s2 in
  entities (store (Interleaved.config s2)) = VArr [VObj supplier_record]
  /\ entities (store (Interleaved.config s3)) = VArr [].
Proof.
  cbv zeta. split; [vm_compute; reflexivity|].
  vm_cast_no_check
    (f_equal entities
       (proj1 (@late_list_response_overwrites_records sample_runtime
                 SupplierManager agreeable_world []
                 (List.map Interleaved.User supplier_typing
                  ++ [Interleaved.User Submit;
                      Interleaved.Settle 4
                        (inr (mkResponse 201 (inr (VObj supplier_draft))));
                      Interleaved.Resume 4;
                      Interleaved.Settle 5
                        (inr (mkResponse 200
                                (inr (VArr [VObj supplier_record]))));
                      Interleaved.Resume 5])
                 (mkResponse 200 (inr (VArr []))) (VArr [])
                 ltac:(vm_compute; reflexivity)
                 ltac:(vm_compute; reflexivity)))).
Defined.
